(** * Dots: a team-based replicator simulation (src/src/App.tsx)

    A shallow embedding of the simulation engine of [App.tsx]: the grid and
    cell model, the rule resolver [stepGrid], the nutrient flow engine
    [runNutrients] and the seeding commands [placeDot] / [handleDrop].

    Conventions of the embedding.
    - Coordinates are [Z] (the source adds offsets such as [-1] and [-2]
      before it checks bounds); a grid is a list of rows.
    - [Math.random()] is the only source of randomness.  The values it
      returns, in call order, are given by a function [rnd : nat -> Q];
      every function that calls [Math.random()] threads the number of
      calls made so far (a cursor [k : nat]) and returns the new cursor.
      Products and comparisons of a draw are taken exactly on [Q].
    - [Date.now()] is read once per emitted nutrient id; the clock value is
      a parameter [now] of [runNutrients].
    - Optional fields ([team?], [health?], [prev?]) are [option]s.
    - [stepTrace] is [stepGrid] with the values of its working grid between
      the phases kept; [stepGrid] is its last component. *)

From Stdlib Require Import ZArith QArith Qround Lia.
From stdpp Require Import base option list gmap.

Local Open Scope Z_scope.

(** ** Data model *)

Inductive Team := blue | green.

Inductive CellState := empty | dot | producer | block | bomb_armed | bomb_hot.

Record Cell := mkCell { state : CellState; team : option Team; health : option Z }.

Abbreviation Grid := (list (list Cell)).

Inductive AnimType := spawn | move | plop | blockAnim.

Record AnimInfo := mkAnim { type : AnimType; dx : option Z; dy : option Z }.

Abbreviation NutrientDir := (Z * Z)%type.

(** A spawn or attack proposal [{ r, c, team }].  The source casts
    [grid[r][c].team as Team]; the value is whatever the cell holds. *)
Module Intent.
Record t := mk { r : Z; c : Z; team : option Team }.
End Intent.

(** A nutrient id is built once, at emission, from the clock, the
    producer's position, the nutrient tick and a draw:
    [`${Date.now()}-${r}-${c}-${tick}-${Math.random()}`]. *)
Record NutrientId := mkId { idNow : Z; idR : Z; idC : Z; idTick : Z; idRnd : Q }.

Module Nutrient.
Record t := mk {
  id : NutrientId; r : Z; c : Z; team : Team;
  dir : NutrientDir; prev : option NutrientDir }.
End Nutrient.

Module StepResult.
Record t := mk {
  grid : Grid; blasts : list (Z * Z); anims : gmap (Z * Z) AnimInfo }.
End StepResult.

(** The working grid [next] of [stepGrid] after each phase, the intents
    of the replication scan and the centres found, next to the result. *)
Module Trace.
Record t := mk {
  armed : Grid;        (* after "Apply newly armed bombs" *)
  advanced : Grid;     (* after "Advance armed -> hot" *)
  exploded : Grid;     (* after "Handle explosions" *)
  intents : list Intent.t;
  resolved : Grid;     (* after the intents are resolved *)
  centers : list (Z * Z);
  final : StepResult.t }.
End Trace.

Module FlowResult.
Record t := mk { grid : Grid; nutrients : list Nutrient.t }.
End FlowResult.

(** The loop state of [runNutrients]: [next], [nextNutrients], [occupied]
    and the cursor of the random source. *)
Abbreviation FlowState := (Grid * list Nutrient.t * gmap (Z * Z) Z * nat)%type.

Module Sim.
Record t := mk { grid : Grid; nutrients : list Nutrient.t; nutrientTick : Z }.
End Sim.

#[global] Instance Team_eq_dec : EqDecision Team.
Proof. solve_decision. Defined.

#[global] Instance CellState_eq_dec : EqDecision CellState.
Proof. solve_decision. Defined.

#[global] Instance Cell_eq_dec : EqDecision Cell.
Proof. solve_decision. Defined.

Definition ROWS : Z := 24.
Definition COLS : Z := 24.

Definition CARDINALS : list (Z * Z) := [(1, 0); (-1, 0); (0, 1); (0, -1)].
Definition DIAGONALS : list (Z * Z) := [(1, 1); (1, -1); (-1, 1); (-1, -1)].
Definition ALL_NEIGHBORS : list (Z * Z) := CARDINALS ++ DIAGONALS.

Definition BLAST_SURVIVAL_CHANCE : Q := 12 # 100.
Definition SPILL_CHANCE : Q := 25 # 100.
Definition MAX_HEALTH : Z := 3.
Definition PRODUCE_EVERY : Z := 6.
Definition MAX_NUTRIENTS_PER_CELL : Z := 1.

(** [{ state: 'empty', team: undefined }] *)
Definition emptyCell : Cell := mkCell empty None None.

Definition createEmptyGrid (rows cols : Z) : Grid :=
  replicate (Z.to_nat rows) (replicate (Z.to_nat cols) emptyCell).

Definition inBounds (r c rows cols : Z) : bool :=
  (0 <=? r) && (r <? rows) && (0 <=? c) && (c <? cols).

(** [grid.length] and [grid[0].length]. *)
Definition gridRows (g : Grid) : Z := Z.of_nat (length g).
Definition gridCols (g : Grid) : Z :=
  match g with
  | [] => 0
  | row :: _ => Z.of_nat (length row)
  end.

(** [grid[r][c]].  Every read in the source is guarded by [inBounds] or by
    loop bounds; a read outside the grid (which would throw in the source)
    yields [emptyCell] here. *)
Definition getCell (g : Grid) (r c : Z) : Cell :=
  if (0 <=? r) && (0 <=? c) then
    match g !! Z.to_nat r with
    | Some row => default emptyCell (row !! Z.to_nat c)
    | None => emptyCell
    end
  else emptyCell.

(** [grid[r][c] = x].  Every write in the source is guarded likewise; a
    write outside the grid leaves the grid unchanged here. *)
Definition setCell (g : Grid) (r c : Z) (x : Cell) : Grid :=
  if (0 <=? r) && (0 <=? c) then
    match g !! Z.to_nat r with
    | Some row => <[Z.to_nat r := <[Z.to_nat c := x]> row]> g
    | None => g
    end
  else g.

(** A grid as [createEmptyGrid] builds it: [rows] rows of [cols] cells. *)
Definition wfGrid (g : Grid) : Prop :=
  Forall (fun row => Z.of_nat (length row) = gridCols g) g.

Definition isDotLike (cell : Cell) : bool :=
  bool_decide (state cell = dot) || bool_decide (state cell = producer).

Definition isBomb (cell : Cell) : bool :=
  bool_decide (state cell = bomb_armed) || bool_decide (state cell = bomb_hot).

(** [cell.health ?? 0] *)
Definition healthOr0 (cell : Cell) : Z := default 0 (health cell).

(** ** The random source *)

Definition Qltb (x y : Q) : bool := (Qnum x * QDen y <? Qnum y * QDen x)%Z.

(** [Math.floor(q * n)] for a draw [q].  The product is exact here; the
    source rounds it to a double first, which can move a product that is
    within one rounding step below an integer up to that integer. *)
Definition randomIndex (q : Q) (n : nat) : nat :=
  Z.to_nat (Qfloor (q * inject_Z (Z.of_nat n))).

(** [[arr[i], arr[j]] = [arr[j], arr[i]]].  With draws in [0,1) both indices
    are inside the array; otherwise the array is left as it is. *)
Definition swap {T} (arr : list T) (i j : nat) : list T :=
  match arr !! i, arr !! j with
  | Some a, Some b => <[j := a]> (<[i := b]> arr)
  | _, _ => arr
  end.

Section Engine.

Variable rnd : nat -> Q.

Fixpoint shuffleLoop {T} (i : nat) (arr : list T) (k : nat) : list T * nat :=
  match i with
  | O => (arr, k)
  | S i' => shuffleLoop i' (swap arr i (randomIndex (rnd k) (S i))) (S k)
  end.

Definition shuffled {T} (items : list T) (k : nat) : list T * nat :=
  shuffleLoop (length items - 1) items k.

(** ** Blast footprint *)

Definition blastCore (r c rows cols : Z) : list (Z * Z) :=
  filter (fun p => inBounds p.1 p.2 rows cols = true)
    (dr ← [-1; 0; 1]; dc ← [-1; 0; 1]; [(r + dr, c + dc)]).

Definition spill (r c : Z) : list (Z * Z) :=
  [(r + 2, c); (r - 2, c); (r, c + 2); (r, c - 2);
   (r + 1, c + 1); (r + 1, c - 1); (r - 1, c + 1); (r - 1, c - 1)].

Fixpoint spillLoop (rows cols : Z) (cands : list (Z * Z)) (k : nat)
  : list (Z * Z) * nat :=
  match cands with
  | [] => ([], k)
  | (nr, nc) :: rest =>
      if inBounds nr nc rows cols then
        let '(xs, k') := spillLoop rows cols rest (S k) in
        (if Qltb (rnd k) SPILL_CHANCE then (nr, nc) :: xs else xs, k')
      else spillLoop rows cols rest k
  end.

Definition collectBlastCells (r c rows cols : Z) (k : nat) : list (Z * Z) * nat :=
  let '(xs, k') := spillLoop rows cols (spill r c) k in
  (blastCore r c rows cols ++ xs, k').

(** ** The rule resolver [stepGrid] *)

(** The loop [for r in 0..rows-1, for c in 0..cols-1], row-major. *)
Definition range (n : Z) : list Z := Z.of_nat <$> seq 0 (Z.to_nat n).

Definition allCells (rows cols : Z) : list (Z * Z) :=
  r ← range rows; c ← range cols; [(r, c)].

(** [if (!anims[key]) anims[key] = info] *)
Definition markAnim (key : Z * Z) (info : AnimInfo) (anims : gmap (Z * Z) AnimInfo)
  : gmap (Z * Z) AnimInfo :=
  match anims !! key with
  | Some _ => anims
  | None => <[key := info]> anims
  end.

(** Bomb triggers: the number of neighbours (8-neighbourhood) that are
    blocks of another team. *)
Definition enemyWalls (grid : Grid) (rows cols r c : Z) : Z :=
  let tm := team (getCell grid r c) in
  Z.of_nat (length (filter (fun d : Z * Z =>
    inBounds (r + d.1) (c + d.2) rows cols = true
    ∧ state (getCell grid (r + d.1) (c + d.2)) = block
    ∧ team (getCell grid (r + d.1) (c + d.2)) ≠ tm) ALL_NEIGHBORS)).

Definition toArm (grid : Grid) (rows cols : Z) : list (Z * Z) :=
  filter (fun p : Z * Z =>
    isDotLike (getCell grid p.1 p.2) = true ∧ 4 <= enemyWalls grid rows cols p.1 p.2)
    (allCells rows cols).

Definition toHot (grid : Grid) (rows cols : Z) : list (Z * Z) :=
  filter (fun p : Z * Z => state (getCell grid p.1 p.2) = bomb_armed) (allCells rows cols).

Definition toExplode (grid : Grid) (rows cols : Z) : list (Z * Z) :=
  filter (fun p : Z * Z => state (getCell grid p.1 p.2) = bomb_hot) (allCells rows cols).

(** [next[r][c] = { state: s, team: grid[r][c].team }] over a worklist. *)
Definition applyBombState (s : CellState) (grid next : Grid) (work : list (Z * Z)) : Grid :=
  foldl (fun nx p => setCell nx p.1 p.2 (mkCell s (team (getCell grid p.1 p.2)) None))
    next work.

Fixpoint collectAll (rows cols : Z) (bombs : list (Z * Z)) (k : nat)
  : list (Z * Z) * nat :=
  match bombs with
  | [] => ([], k)
  | (r, c) :: rest =>
      let '(cells, k1) := collectBlastCells r c rows cols k in
      let '(more, k2) := collectAll rows cols rest k1 in
      (cells ++ more, k2)
  end.

(** One blast cell: a bomb never survives (and no draw is made for it, the
    [&&] short-circuits); anything else survives on a draw below
    [BLAST_SURVIVAL_CHANCE]. *)
Definition blastOne (rows cols : Z) (st : Grid * nat) (p : Z * Z) : Grid * nat :=
  let '(next, k) := st in
  if inBounds p.1 p.2 rows cols then
    if isBomb (getCell next p.1 p.2) then (setCell next p.1 p.2 emptyCell, k)
    else if Qltb (rnd k) BLAST_SURVIVAL_CHANCE then (next, S k)
    else (setCell next p.1 p.2 emptyCell, S k)
  else (next, k).

(** Handle explosions (hot -> boom): returns the grid, the blast list and
    the cursor. *)
Definition explode (rows cols : Z) (next : Grid) (bombs : list (Z * Z)) (k : nat)
  : Grid * list (Z * Z) * nat :=
  match bombs with
  | [] => (next, [], k)
  | _ =>
      let '(blastCells, k1) := collectAll rows cols bombs k in
      let '(next', k2) := foldl (blastOne rows cols) (next, k1) blastCells in
      (next', blastCells, k2)
  end.

(** The body of [for (const [dr, dc] of dirs)]: [Some] intent when the
    direction produces one (the [break]), [None] to go on ([continue] or
    falling through). *)
Definition tryDir (grid : Grid) (rows cols r c : Z) (tm : option Team) (d : Z * Z)
  : option Intent.t :=
  let nr := r + d.1 in
  let nc := c + d.2 in
  if negb (inBounds nr nc rows cols) then None
  else if bool_decide (state (getCell grid nr nc) = empty) then
    Some (Intent.mk nr nc tm)
  else if isDotLike (getCell grid nr nc) then
    let rr := nr + d.1 in
    let cc := nc + d.2 in
    if inBounds rr cc rows cols && bool_decide (state (getCell grid rr cc) = empty) then
      Some (Intent.mk rr cc tm)
    else if bool_decide (team (getCell grid nr nc) ≠ tm) then
      Some (Intent.mk nr nc tm)
    else None
  else None.

Fixpoint tryDirs (grid : Grid) (rows cols r c : Z) (tm : option Team)
  (dirs : list (Z * Z)) : option Intent.t :=
  match dirs with
  | [] => None
  | d :: rest =>
      match tryDir grid rows cols r c tm d with
      | Some it => Some it
      | None => tryDirs grid rows cols r c tm rest
      end
  end.

(** Rule 1 + 2: the replication scan over the cells listed in [cells]. *)
Fixpoint scanCells (grid : Grid) (rows cols : Z) (cells : list (Z * Z)) (k : nat)
  : list Intent.t * nat :=
  match cells with
  | [] => ([], k)
  | (r, c) :: rest =>
      if isDotLike (getCell grid r c) then
        let '(dirs, k1) := shuffled CARDINALS k in
        let '(more, k2) := scanCells grid rows cols rest k1 in
        (option_list (tryDirs grid rows cols r c (team (getCell grid r c)) dirs) ++ more, k2)
      else scanCells grid rows cols rest k
  end.

Definition spawnIntents (grid : Grid) (rows cols : Z) (k : nat) : list Intent.t * nat :=
  scanCells grid rows cols (allCells rows cols) k.

Definition spawnAnim : AnimInfo := mkAnim spawn None None.

(** The body of [shuffled(spawnIntents).forEach]. *)
Definition resolveIntent (st : Grid * gmap (Z * Z) AnimInfo) (it : Intent.t)
  : Grid * gmap (Z * Z) AnimInfo :=
  let '(next, anims) := st in
  let r := Intent.r it in
  let c := Intent.c it in
  let tm := Intent.team it in
  let defender := getCell next r c in
  if bool_decide (state defender = empty) then
    (setCell next r c (mkCell dot tm (Some 0)), markAnim (r, c) spawnAnim anims)
  else if bool_decide (is_Some (team defender) ∧ team defender ≠ tm) then
    if 0 <? healthOr0 defender then
      (setCell next r c
         (mkCell (state defender) (team defender)
            (Some (Z.max 0 (healthOr0 defender - 1)))), anims)
    else
      (setCell next r c (mkCell dot tm (Some 0)), markAnim (r, c) spawnAnim anims)
  else (next, anims).

(** Rule 3-6: the centres of 5-in-a-row runs.  [centers] is a JS [Set] of
    keys, which iterates in insertion order. *)
Definition centersAdd (key : Z * Z) (centers : list (Z * Z)) : list (Z * Z) :=
  if bool_decide (key ∈ centers) then centers else centers ++ [key].

Definition rowOf (g : Grid) (r : Z) : list Cell := default [] (g !! Z.to_nat r).

(** [next[r].slice(c, c + 5)] *)
Definition segmentH (next : Grid) (r c : Z) : list Cell :=
  take 5 (drop (Z.to_nat c) (rowOf next r)).

(** [next[r + k][c]] for [k = 0..4] *)
Definition segmentV (next : Grid) (r c : Z) : list Cell :=
  (fun k => getCell next (r + k) c) <$> [0; 1; 2; 3; 4].

(** [new Set(segment.map((cell) => cell.team)).size === 1] *)
Definition oneTeam (segment : list Cell) : bool :=
  bool_decide (length (remove_dups (team <$> segment)) = 1%nat).

Definition isRun (segment : list Cell) : bool :=
  forallb isDotLike segment && oneTeam segment.

Definition findCenters (next : Grid) (rows cols : Z) : list (Z * Z) :=
  let horizontal :=
    foldl (fun cs p =>
             if isRun (segmentH next p.1 p.2) then centersAdd (p.1, p.2 + 2) cs else cs)
      [] (allCells rows (cols - 4)) in
  foldl (fun cs p =>
           if isRun (segmentV next p.1 p.2) then centersAdd (p.1 + 2, p.2) cs else cs)
    horizontal (c ← range cols; r ← range (rows - 4); [(r, c)]).

Definition openNeighbors (next : Grid) (rows cols r c : Z) : list (Z * Z) :=
  filter (fun p : Z * Z =>
            inBounds p.1 p.2 rows cols = true ∧ state (getCell next p.1 p.2) = empty)
    ((fun d : Z * Z => (r + d.1, c + d.2)) <$> CARDINALS).

(** Burst: one diagonal corner. *)
Definition burstCorner (rows cols r c : Z) (tm : option Team)
  (st : Grid * gmap (Z * Z) AnimInfo) (d : Z * Z) : Grid * gmap (Z * Z) AnimInfo :=
  let '(next, anims) := st in
  let nr := r + d.1 in
  let nc := c + d.2 in
  if negb (inBounds nr nc rows cols) then st
  else
    let target := getCell next nr nc in
    if bool_decide (state target = empty) then
      (setCell next nr nc (mkCell dot tm None),
       markAnim (nr, nc) (mkAnim plop (Some (c - nc)) (Some (r - nr))) anims)
    else if bool_decide (team target ≠ tm) then
      (setCell next nr nc (mkCell block tm None),
       markAnim (nr, nc) (mkAnim blockAnim None None) anims)
    else
      (setCell next nr nc (mkCell block tm None),
       markAnim (nr, nc) (mkAnim blockAnim None None) anims).

(** Burst: remove the centre and fill or block the four corners. *)
Definition burst (rows cols r c : Z) (tm : option Team) (next : Grid)
  (anims : gmap (Z * Z) AnimInfo) : Grid * gmap (Z * Z) AnimInfo :=
  foldl (burstCorner rows cols r c tm) (setCell next r c emptyCell, anims) DIAGONALS.

(** The body of [shuffled(Array.from(centers)).forEach]. *)
Definition resolveCenter (rows cols : Z) (st : Grid * gmap (Z * Z) AnimInfo * nat)
  (key : Z * Z) : Grid * gmap (Z * Z) AnimInfo * nat :=
  let '(next, anims, k) := st in
  let r := key.1 in
  let c := key.2 in
  if negb (bool_decide (state (getCell next r c) = dot)) then st
  else
    let tm := team (getCell next r c) in
    let opens := openNeighbors next rows cols r c in
    if (0 <? length opens)%nat then
      let '(order, k1) := shuffled opens k in
      match order with
      | (nr, nc) :: _ =>
          let next1 := setCell next nr nc (mkCell dot tm (health (getCell next r c))) in
          let next2 := setCell next1 r c (mkCell empty None None) in
          (next2, markAnim (nr, nc) (mkAnim move (Some (c - nc)) (Some (r - nr))) anims, k1)
      | [] => (next, anims, k1)
      end
    else
      let '(next', anims') := burst rows cols r c tm next anims in
      (next', anims', k).

(** [stepGrid], with the values its local variables hold between the
    phases kept in a [Trace.t]: [grid] is the pre-tick grid, [next] the copy
    that is written.  [stepGrid] itself returns [{ grid: next, blasts,
    anims }]. *)
Definition stepTrace (grid : Grid) (k : nat) : Trace.t * nat :=
  let rows := gridRows grid in
  let cols := gridCols grid in
  let next0 := grid in
  let next1 := applyBombState bomb_armed grid next0 (toArm grid rows cols) in
  let next2 := applyBombState bomb_hot grid next1 (toHot grid rows cols) in
  let '(next3, blasts, k1) := explode rows cols next2 (toExplode grid rows cols) k in
  let '(intents, k2) := spawnIntents grid rows cols k1 in
  let '(order, k3) := shuffled intents k2 in
  let '(next4, anims) := foldl resolveIntent (next3, ∅) order in
  let centers := findCenters next4 rows cols in
  let '(corder, k4) := shuffled centers k3 in
  let '(next5, anims', k5) := foldl (resolveCenter rows cols) (next4, anims, k4) corder in
  (Trace.mk next1 next2 next3 intents next4 centers (StepResult.mk next5 blasts anims'), k5).

Definition stepGrid (grid : Grid) (k : nat) : StepResult.t * nat :=
  let '(trace, k') := stepTrace grid k in (Trace.final trace, k').

(** ** The nutrient flow engine [runNutrients] *)

Definition pruneNutrients (grid : Grid) (nutrients : list Nutrient.t) : list Nutrient.t :=
  filter (fun n =>
            inBounds (Nutrient.r n) (Nutrient.c n) (gridRows grid) (gridCols grid) = true
            ∧ state (getCell grid (Nutrient.r n) (Nutrient.c n)) = block
            ∧ team (getCell grid (Nutrient.r n) (Nutrient.c n)) = Some (Nutrient.team n))
    nutrients.

Definition hasEnemyNeighbor (grid : Grid) (r c : Z) (tm : option Team) : bool :=
  match tm with
  | None => false
  | Some _ =>
      existsb (fun d : Z * Z =>
                 let other := getCell grid (r + d.1) (c + d.2) in
                 inBounds (r + d.1) (c + d.2) (gridRows grid) (gridCols grid)
                 && bool_decide (is_Some (team other) ∧ team other ≠ tm ∧ state other ≠ empty))
        CARDINALS
  end.

(** [cell.health = Math.min(MAX_HEALTH, (cell.health ?? 0) + 1)] on the
    cell object stored at [next[r][c]]. *)
Definition bumpHealth (next : Grid) (r c : Z) : Grid :=
  let cell := getCell next r c in
  setCell next r c
    (mkCell (state cell) (team cell) (Some (Z.min MAX_HEALTH (healthOr0 cell + 1)))).

(** [cell.state = s] on the cell object stored at [next[r][c]]. *)
Definition setState (next : Grid) (r c : Z) (s : CellState) : Grid :=
  let cell := getCell next r c in
  setCell next r c (mkCell s (team cell) (health cell)).

Definition feedDot (next : Grid) (nr nc : Z) (tm : Team) : Grid * bool :=
  let cell := getCell next nr nc in
  if bool_decide (team cell ≠ Some tm) || negb (isDotLike cell) then (next, false)
  else
    let next1 := bumpHealth next nr nc in
    if negb (hasEnemyNeighbor next1 nr nc (Some tm)) then
      (setState next1 nr nc producer, true)
    else (next1, true).

Definition friendlyDots (next : Grid) (rows cols r c : Z) (tm : Team) : list (Z * Z) :=
  filter (fun p : Z * Z =>
            inBounds p.1 p.2 rows cols = true
            ∧ team (getCell next p.1 p.2) = Some tm
            ∧ isDotLike (getCell next p.1 p.2) = true)
    ((fun d : Z * Z => (r + d.1, c + d.2)) <$> CARDINALS).

Definition handleDeadEnd (next : Grid) (rows cols : Z) (n : Nutrient.t) : Grid :=
  match friendlyDots next rows cols (Nutrient.r n) (Nutrient.c n) (Nutrient.team n) with
  | (nr, nc) :: _ => (feedDot next nr nc (Nutrient.team n)).1
  | [] => next
  end.

Definition wallNeighborDirs (next : Grid) (rows cols r c : Z) (tm : Team)
  (prev : option NutrientDir) : list NutrientDir :=
  let dirs :=
    filter (fun d : Z * Z =>
              inBounds (r + d.1) (c + d.2) rows cols = true
              ∧ state (getCell next (r + d.1) (c + d.2)) = block
              ∧ team (getCell next (r + d.1) (c + d.2)) = Some tm) CARDINALS in
  match prev with
  | Some p =>
      if (1 <? length dirs)%nat then
        filter (fun d : Z * Z => ¬ (d.1 = - p.1 ∧ d.2 = - p.2)) dirs
      else dirs
  | None => dirs
  end.

(** [occupied.get(key) ?? 0] *)
Definition occupancy (occupied : gmap (Z * Z) Z) (key : Z * Z) : Z :=
  default 0 (occupied !! key).

(** Move nutrients: the body of [nutrients.forEach]. *)
Definition moveNutrient (rows cols : Z) (st : FlowState) (n : Nutrient.t) : FlowState :=
  let '(next, nextNutrients, occupied, k) := st in
  let r := Nutrient.r n in
  let c := Nutrient.c n in
  if negb (inBounds r c rows cols)
     || bool_decide (state (getCell next r c) ≠ block)
     || bool_decide (team (getCell next r c) ≠ Some (Nutrient.team n)) then st
  else
    let dirs := wallNeighborDirs next rows cols r c (Nutrient.team n) (Some (Nutrient.dir n)) in
    if (length dirs =? 0)%nat then
      (handleDeadEnd next rows cols n, nextNutrients, occupied, k)
    else
      let '(order, k1) := shuffled dirs k in
      match order with
      | (dr, dc) :: _ =>
          let key := (r + dr, c + dc) in
          let count := occupancy occupied key in
          if MAX_NUTRIENTS_PER_CELL <=? count then
            (next, nextNutrients ++ [n],
             <[(r, c) := occupancy occupied (r, c) + 1]> occupied, k1)
          else
            (next,
             nextNutrients ++
               [Nutrient.mk (Nutrient.id n) (r + dr) (c + dc) (Nutrient.team n)
                  (dr, dc) (Some (Nutrient.dir n))],
             <[key := count + 1]> occupied, k1)
      | [] => (next, nextNutrients, occupied, k1)
      end.

(** Producer spawns: the body of the double loop, for the cell [(r, c)].
    [now (r, c)] is the value [Date.now()] returns when this producer
    builds its nutrient's id. *)
Definition produceAt (now : Z * Z -> Z) (tick rows cols : Z) (st : FlowState)
  (p : Z * Z) : FlowState :=
  let '(next, nextNutrients, occupied, k) := st in
  let r := p.1 in
  let c := p.2 in
  let cell := getCell next r c in
  match team cell with
  | Some tm =>
      if bool_decide (state cell ≠ producer) then st
      else
        let dirs := wallNeighborDirs next rows cols r c tm None in
        if (length dirs =? 0)%nat then st
        else
          let '(order, k1) := shuffled dirs k in
          match order with
          | (dr, dc) :: _ =>
              let key := (r + dr, c + dc) in
              let count := occupancy occupied key in
              if MAX_NUTRIENTS_PER_CELL <=? count then (next, nextNutrients, occupied, k1)
              else
                (next,
                 nextNutrients ++
                   [Nutrient.mk (mkId (now (r, c)) r c tick (rnd k1)) (r + dr) (c + dc) tm
                      (dr, dc) None],
                 <[key := count + 1]> occupied, S k1)
          | [] => (next, nextNutrients, occupied, k1)
          end
  | None => st
  end.

Definition runNutrients (now : Z * Z -> Z) (grid : Grid) (nutrients : list Nutrient.t)
  (tick : Z) (k : nat) : FlowResult.t * nat :=
  let rows := gridRows grid in
  let cols := gridCols grid in
  let moved := foldl (moveNutrient rows cols) (grid, [], ∅, k) nutrients in
  let '(next, nextNutrients, _, k') :=
    if Z.rem tick PRODUCE_EVERY =? 0 then
      foldl (produceAt now tick rows cols) moved (allCells rows cols)
    else moved in
  (FlowResult.mk next nextNutrients, k').

(** ** The driver: the two interval callbacks, the buttons and seeding *)

(** The state held by [App]: [grid], [nutrientsRef.current] and
    [nutrientTickRef.current]. *)
Definition tickInterval (sim : Sim.t) (k : nat) : Sim.t * nat :=
  let '(result, k') := stepGrid (Sim.grid sim) k in
  (Sim.mk (StepResult.grid result)
     (pruneNutrients (StepResult.grid result) (Sim.nutrients sim))
     (Sim.nutrientTick sim), k').

(** The "Step once" button: [stepGrid] without pruning. *)
Definition stepOnce (sim : Sim.t) (k : nat) : Sim.t * nat :=
  let '(result, k') := stepGrid (Sim.grid sim) k in
  (Sim.mk (StepResult.grid result) (Sim.nutrients sim) (Sim.nutrientTick sim), k').

Definition nutrientInterval (now : Z * Z -> Z) (sim : Sim.t) (k : nat) : Sim.t * nat :=
  let '(result, k') :=
    runNutrients now (Sim.grid sim) (Sim.nutrients sim) (Sim.nutrientTick sim) k in
  (Sim.mk (FlowResult.grid result) (FlowResult.nutrients result)
     (Sim.nutrientTick sim + 1), k').

End Engine.

(** [setGrid] callback of [placeDot]. *)
Definition placeDot (tm : Team) (r c : Z) (prev : Grid) : Grid :=
  if bool_decide (state (getCell prev r c) ≠ empty) then prev
  else setCell prev r c (mkCell dot (Some tm) (Some 0)).

(** What [handleDrop] reads from the drag event:
    [getData('producer') === 'true'] and [getData('team')] (falsy when the
    drag carried none). *)
Record DataTransfer := mkDrop { dropProducer : bool; dropTeam : option Team }.

Definition handleDrop (e : DataTransfer) (selectedTeam : Team) (r c : Z) (prev : Grid)
  : Grid :=
  let tm := default selectedTeam (dropTeam e) in
  if dropProducer e then
    if bool_decide (state (getCell prev r c) ≠ empty) then prev
    else setCell prev r c (mkCell producer (Some tm) (Some 0))
  else placeDot tm r c prev.

Definition resetGrid : Sim.t := Sim.mk (createEmptyGrid ROWS COLS) [] 0.

(** ** Notions used to state the properties *)

(** A property of every cell of a grid. *)
Definition allCellsOf (P : Cell → Prop) (g : Grid) : Prop := Forall (Forall P) g.

(** City-block and king-move distance between two cells. *)
Definition manhattan (p q : Z * Z) : Z := Z.abs (p.1 - q.1) + Z.abs (p.2 - q.2).
Definition chebyshev (p q : Z * Z) : Z := Z.max (Z.abs (p.1 - q.1)) (Z.abs (p.2 - q.2)).

(** The spill candidates that pass the bounds check, in source order. *)
Definition spillCandidates (r c rows cols : Z) : list (Z * Z) :=
  filter (fun p => inBounds p.1 p.2 rows cols = true) (spill r c).

(** One draw per listed cell, starting at cursor [k]; a cell is kept when
    its own draw is below [SPILL_CHANCE]. *)
Fixpoint pickDraws (rnd : nat → Q) (cands : list (Z * Z)) (k : nat) : list (Z * Z) :=
  match cands with
  | [] => []
  | p :: rest =>
      if Qltb (rnd k) SPILL_CHANCE then p :: pickDraws rnd rest (S k)
      else pickDraws rnd rest (S k)
  end.

(** A wall of team [tm] at [p]; a dot or producer of team [tm] at [p]. *)
Definition isWallOf (g : Grid) (rows cols : Z) (tm : Team) (p : Z * Z) : Prop :=
  inBounds p.1 p.2 rows cols = true
  ∧ state (getCell g p.1 p.2) = block ∧ team (getCell g p.1 p.2) = Some tm.

Definition isFriendlyDot (g : Grid) (rows cols : Z) (tm : Team) (p : Z * Z) : Prop :=
  inBounds p.1 p.2 rows cols = true
  ∧ team (getCell g p.1 p.2) = Some tm ∧ isDotLike (getCell g p.1 p.2) = true.

(** [p] is the first cardinal neighbour of [(r, c)], in the order of
    [CARDINALS], that satisfies [P]. *)
Definition firstInScan (P : Z * Z → Prop) (r c : Z) (p : Z * Z) : Prop :=
  ∃ pre d post, CARDINALS = pre ++ d :: post ∧ p = (r + d.1, c + d.2) ∧ P p
    ∧ ∀ d', d' ∈ pre → ¬ P (r + d'.1, c + d'.2).

(** Some cardinal neighbour of [p] is inside the grid, not empty, and of a
    team other than [tm]. *)
Definition enemyAdjacent (g : Grid) (p : Z * Z) (tm : Team) : Prop :=
  ∃ d, d ∈ CARDINALS
    ∧ inBounds (p.1 + d.1) (p.2 + d.2) (gridRows g) (gridCols g) = true
    ∧ is_Some (team (getCell g (p.1 + d.1) (p.2 + d.2)))
    ∧ team (getCell g (p.1 + d.1) (p.2 + d.2)) ≠ Some tm
    ∧ state (getCell g (p.1 + d.1) (p.2 + d.2)) ≠ empty.

(** What the replication scan guarantees of an intent, read on the grid
    [grid]: some dot/producer of [grid], of the intent's team, tried a
    cardinal direction [d] and either found the neighbour empty (spawn),
    or found a dot/producer with an empty cell behind it (line extension),
    or found a dot/producer of another team (attack). *)
Definition scanJustified (grid : Grid) (rows cols : Z) (it : Intent.t) : Prop :=
  ∃ r c d,
    inBounds r c rows cols = true
    ∧ isDotLike (getCell grid r c) = true
    ∧ Intent.team it = team (getCell grid r c)
    ∧ d ∈ CARDINALS
    ∧ inBounds (r + d.1) (c + d.2) rows cols = true
    ∧ (((Intent.r it, Intent.c it) = (r + d.1, c + d.2)
        ∧ state (getCell grid (r + d.1) (c + d.2)) = empty)
       ∨ ((Intent.r it, Intent.c it) = (r + d.1 + d.1, c + d.2 + d.2)
          ∧ isDotLike (getCell grid (r + d.1) (c + d.2)) = true
          ∧ inBounds (r + d.1 + d.1) (c + d.2 + d.2) rows cols = true
          ∧ state (getCell grid (r + d.1 + d.1) (c + d.2 + d.2)) = empty)
       ∨ ((Intent.r it, Intent.c it) = (r + d.1, c + d.2)
          ∧ isDotLike (getCell grid (r + d.1) (c + d.2)) = true
          ∧ team (getCell grid (r + d.1) (c + d.2)) ≠ Intent.team it)).

(** The resolver as the phase rule words it: every phase after the first
    reads the grid as mutated so far, so the replication scan reads the
    working grid left by the explosions.  Everything else is [stepGrid]. *)
Definition stepGridPhasewise (rnd : nat → Q) (grid : Grid) (k : nat)
  : StepResult.t * nat :=
  let rows := gridRows grid in
  let cols := gridCols grid in
  let next1 := applyBombState bomb_armed grid grid (toArm grid rows cols) in
  let next2 := applyBombState bomb_hot grid next1 (toHot grid rows cols) in
  let '(next3, blasts, k1) := explode rnd rows cols next2 (toExplode grid rows cols) k in
  let '(intents, k2) := spawnIntents rnd next3 rows cols k1 in
  let '(order, k3) := shuffled rnd intents k2 in
  let '(next4, anims) := foldl resolveIntent (next3, ∅) order in
  let '(corder, k4) := shuffled rnd (findCenters next4 rows cols) k3 in
  let '(next5, anims', k5) :=
    foldl (resolveCenter rnd rows cols) (next4, anims, k4) corder in
  (StepResult.mk next5 blasts anims', k5).

(** Two sources of draws that return the same values from call [k] on. *)
Definition agreeFrom (k : nat) (rnd1 rnd2 : nat → Q) : Prop :=
  ∀ n, (k ≤ n)%nat → rnd1 n = rnd2 n.

(** Two tokens that are one and the same, or that one producer, at [p],
    emitted on nutrient tick [tick] in two runs whose clocks read [now1]
    and [now2]: these differ at most in the clock value of their ids. *)
Definition sameButClock (now1 now2 : Z * Z → Z) (tick : Z) (m1 m2 : Nutrient.t) : Prop :=
  m1 = m2
  ∨ ∃ (p : Z * Z) (q : Q) (r c : Z) (tm : Team) (d : NutrientDir),
      m1 = Nutrient.mk (mkId (now1 p) p.1 p.2 tick q) r c tm d None
      ∧ m2 = Nutrient.mk (mkId (now2 p) p.1 p.2 tick q) r c tm d None.

(** Two loop states of [runNutrients] that differ at most in the clock
    values of the ids of the tokens emitted so far. *)
Definition flowRelated (now1 now2 : Z * Z → Z) (tick : Z) (s1 s2 : FlowState) : Prop :=
  s1.1.1.1 = s2.1.1.1 ∧ Forall2 (sameButClock now1 now2 tick) s1.1.1.2 s2.1.1.2
  ∧ s1.1.2 = s2.1.2 ∧ s1.2 = s2.2.

(** The cell-state invariants: an empty cell has no team, a block has a
    team, health (absent read as 0) is within [0, MAX_HEALTH]. *)
Definition cellInvariant (x : Cell) : Prop :=
  (state x = empty → team x = None)
  ∧ (state x = block → is_Some (team x))
  ∧ 0 <= healthOr0 x <= MAX_HEALTH.

(** The invariant the operations actually maintain: dots and producers
    have a team too (a burst hands the centre's team to the blocks it
    makes). *)
Definition cellOK (x : Cell) : Prop :=
  (state x = empty → team x = None)
  ∧ (state x = dot ∨ state x = producer ∨ state x = block → is_Some (team x))
  ∧ 0 <= healthOr0 x <= MAX_HEALTH.

(** The states of [App] reachable from its initial state by the interval
    callbacks, the "Step once" button, seeding by click or drop on a cell
    of the board, and reset; the draws, the clock and the cursor are
    arbitrary. *)
Inductive reachable : Sim.t → Prop :=
  | reach_init : reachable resetGrid
  | reach_tick rnd k sim :
      reachable sim → reachable (tickInterval rnd sim k).1
  | reach_step rnd k sim :
      reachable sim → reachable (stepOnce rnd sim k).1
  | reach_nutrient rnd now k sim :
      reachable sim → reachable (nutrientInterval rnd now sim k).1
  | reach_place tm r c sim :
      reachable sim →
      reachable (Sim.mk (placeDot tm r c (Sim.grid sim)) (Sim.nutrients sim)
                   (Sim.nutrientTick sim))
  | reach_drop e selectedTeam r c sim :
      reachable sim →
      reachable (Sim.mk (handleDrop e selectedTeam r c (Sim.grid sim)) (Sim.nutrients sim)
                   (Sim.nutrientTick sim))
  | reach_reset sim : reachable sim → reachable resetGrid.

(** Two grids with the same wall cells: wherever either has a block, the
    two cells are equal. *)
Definition blocksSame (g g' : Grid) : Prop :=
  ∀ r c, state (getCell g' r c) = block ∨ state (getCell g r c) = block →
         getCell g' r c = getCell g r c.

(** A cell that holds a bomb or nothing. *)
Definition bombOrEmpty (x : Cell) : Prop :=
  state x = bomb_armed ∨ state x = bomb_hot ∨ state x = empty.

(** ** Sample boards *)

Definition blueDot : Cell := mkCell dot (Some blue) (Some 0).
Definition greenDot : Cell := mkCell dot (Some green) (Some 0).
Definition blueProducer : Cell := mkCell producer (Some blue) (Some 0).
Definition blueWall : Cell := mkCell block (Some blue) None.
Definition greenWall : Cell := mkCell block (Some green) None.
Definition blueHot : Cell := mkCell bomb_hot (Some blue) None.
Definition blueArmed : Cell := mkCell bomb_armed (Some blue) None.

(** A lone blue dot in the middle of a 3×3 board. *)
Definition loneDot : Grid :=
  [[emptyCell; emptyCell; emptyCell];
   [emptyCell; blueDot; emptyCell];
   [emptyCell; emptyCell; emptyCell]].

(** A blue dot facing a green dot with an empty cell behind it. *)
Definition facingDots : Grid := [[blueDot; greenDot; emptyCell]].

(** A row of five blue dots (resp. producers) above an empty row. *)
Definition fiveDots : Grid :=
  [replicate 5 blueDot; replicate 5 emptyCell].
Definition fiveProducers : Grid :=
  [replicate 5 blueProducer; replicate 5 emptyCell].

(** A hot bomb, a dot next to it, and an empty cell. *)
Definition bombRow : Grid := [[blueHot; blueDot; emptyCell]].

(** An armed bomb next to a hot one. *)
Definition armedByHot : Grid := [[blueHot; blueArmed]].

(** A row of five blue dots with a hot bomb under its centre. *)
Definition fiveOverHot : Grid :=
  [replicate 5 blueDot; [emptyCell; emptyCell; blueHot; emptyCell; emptyCell]].

(** A blue dot with four green walls around it and a green dot to its
    right. *)
Definition walledDot : Grid :=
  [[greenWall; greenWall; greenWall];
   [greenWall; blueDot; greenDot];
   [emptyCell; emptyCell; emptyCell]].

(** Two sources of draws that differ in their first five values only. *)
Definition drawsA : nat → Q := fun n => if (n <? 5)%nat then (1 # 2)%Q else 0%Q.
Definition drawsB : nat → Q := fun _ => 0%Q.

(** A blue wall cell with a blue dot to its right: a dead end. *)
Definition deadEndBoard : Grid := [[blueWall; blueDot; emptyCell]].

Definition sampleId (i : Z) : NutrientId := mkId 0 0 0 i 0.

Definition deadEndToken : Nutrient.t := Nutrient.mk (sampleId 0) 0 0 blue (0, -1) None.

(** The 24×24 board with a corridor of four blue wall cells (0,0)..(0,3),
    and three nutrients on it, no two on the same cell: one that reached
    the end (0,3) moving right, one that reached the end (0,0) moving left,
    and one at (0,1) moving right. *)
Definition corridorBoard : Grid :=
  foldl (fun g c => setCell g 0 c blueWall) (createEmptyGrid ROWS COLS) [0; 1; 2; 3].

Definition corridorTokens : list Nutrient.t :=
  [Nutrient.mk (sampleId 0) 0 3 blue (0, 1) (Some (0, 1));
   Nutrient.mk (sampleId 1) 0 0 blue (0, -1) (Some (0, -1));
   Nutrient.mk (sampleId 2) 0 1 blue (0, 1) (Some (0, 1))].

(** The cells the nutrients of a list sit on. *)
Definition positions (nutrients : list Nutrient.t) : list (Z * Z) :=
  (fun n => (Nutrient.r n, Nutrient.c n)) <$> nutrients.

(** The board after a reset and one blue dot placed at (5,5). *)
Definition seededSim : Sim.t :=
  Sim.mk (placeDot blue 5 5 (Sim.grid resetGrid)) (Sim.nutrients resetGrid)
    (Sim.nutrientTick resetGrid).

(** ** Notions used for the further properties *)

(** [g'] has the dimensions of [g], and is rectangular when [g] is. *)
Definition sameShape (g g' : Grid) : Prop :=
  gridRows g' = gridRows g ∧ gridCols g' = gridCols g ∧ (wfGrid g → wfGrid g').

(** A token that sits, inside the board, on a wall cell of its own team:
    the test of [pruneNutrients] and of the move loop. *)
Definition hosted (g : Grid) (n : Nutrient.t) : Prop :=
  isWallOf g (gridRows g) (gridCols g) (Nutrient.team n) (Nutrient.r n, Nutrient.c n).

(** What feeding may do to a grid, cell by cell: the team stays; a cell
    that is no dot or producer stays as it is; a dot or producer stays one,
    a producer stays a producer, and health that is within [MAX_HEALTH]
    does not go down and stays within it. *)
Definition fedFrom (g g' : Grid) : Prop :=
  ∀ r c,
    team (getCell g' r c) = team (getCell g r c)
    ∧ (isDotLike (getCell g r c) = false → getCell g' r c = getCell g r c)
    ∧ (isDotLike (getCell g r c) = true →
       isDotLike (getCell g' r c) = true
       ∧ (state (getCell g r c) = producer → state (getCell g' r c) = producer)
       ∧ (healthOr0 (getCell g r c) <= MAX_HEALTH →
          healthOr0 (getCell g r c) <= healthOr0 (getCell g' r c) <= MAX_HEALTH)).

(** The part of a token that moving never changes. *)
Definition idTeam (n : Nutrient.t) : NutrientId * Team := (Nutrient.id n, Nutrient.team n).

(** A token as a producer emits it on nutrient tick [tick]: its id names
    the tick and the producer's cell, which holds a producer of the token's
    team in [g]; it has no previous direction and sits one cardinal step
    [dir] away from the producer. *)
Definition emittedBy (g : Grid) (tick : Z) (m : Nutrient.t) : Prop :=
  idTick (Nutrient.id m) = tick
  ∧ Nutrient.prev m = None
  ∧ state (getCell g (idR (Nutrient.id m)) (idC (Nutrient.id m))) = producer
  ∧ team (getCell g (idR (Nutrient.id m)) (idC (Nutrient.id m))) = Some (Nutrient.team m)
  ∧ Nutrient.dir m ∈ CARDINALS
  ∧ (Nutrient.r m, Nutrient.c m)
    = (idR (Nutrient.id m) + (Nutrient.dir m).1, idC (Nutrient.id m) + (Nutrient.dir m).2).

(** The number of tokens of a list that sit on the cell [p]. *)
Definition tokensAt (p : Z * Z) (out : list Nutrient.t) : Z :=
  Z.of_nat (length (filter (fun m => (Nutrient.r m, Nutrient.c m) = p) out)).

(** [grid.flat().filter((cell) => isDotLike(cell)).length]: the counter
    shown above the board. *)
Definition dotCount (g : Grid) : nat :=
  length (filter (fun cell => isDotLike cell = true) (concat g)).

(** A board of walls and free cells. *)
Definition wallsOnly : Grid := [[blueWall; emptyCell; greenWall]; [emptyCell; blueWall; blueWall]].

(** The five cells centred on [(r, c)] along the direction [d] are inside
    the board and hold dots or producers of one team. *)
Definition lineOfFive (g : Grid) (r c : Z) (d : Z * Z) : Prop :=
  ∀ i, -2 <= i <= 2 →
    inBounds (r + i * d.1) (c + i * d.2) (gridRows g) (gridCols g) = true
    ∧ isDotLike (getCell g (r + i * d.1) (c + i * d.2)) = true
    ∧ team (getCell g (r + i * d.1) (c + i * d.2)) = team (getCell g r c).

(** A state a later phase of [stepGrid] can leave in a cell that held
    [s0]: [s0] itself, or one of the states those phases write. *)
Definition keptOr (s0 s : CellState) : Prop := s = s0 ∨ s = empty ∨ s = dot ∨ s = block.

(** No cell of the grid belongs to team [tm]. *)
Definition teamAbsent (tm : Team) (g : Grid) : Prop :=
  allCellsOf (fun x => team x ≠ Some tm) g.

(** The cell a free target becomes once an intent of a team has been
    resolved on it. *)
Definition claimedBy (tm : option Team) : Cell := mkCell dot tm (Some 0).

(** The token [m] is the token [n] moved by one cardinal step: same id
    and team, the new direction is the step taken, and the previous
    direction is the one [n] had. *)
Definition movedFrom (n m : Nutrient.t) : Prop :=
  Nutrient.id m = Nutrient.id n
  ∧ Nutrient.team m = Nutrient.team n
  ∧ Nutrient.dir m ∈ CARDINALS
  ∧ (Nutrient.r m, Nutrient.c m)
    = (Nutrient.r n + (Nutrient.dir m).1, Nutrient.c n + (Nutrient.dir m).2)
  ∧ Nutrient.prev m = Some (Nutrient.dir n).

(** A blue dot with four green walls around it, an armed blue bomb and a
    blue producer. *)
Definition besieged : Grid :=
  [[greenWall; greenWall; greenWall];
   [greenWall; blueDot; emptyCell];
   [blueArmed; emptyCell; blueProducer]].

(** A row of five blue producers between two rows of blue walls that
    leave only the cells above and below the middle producer free. *)
Definition pinnedProducers : Grid :=
  [[blueWall; blueWall; emptyCell; blueWall; blueWall];
   replicate 5 blueProducer;
   [blueWall; blueWall; emptyCell; blueWall; blueWall]].

(** * Properties *)

(** ** Grid reads and writes *)

Lemma inBounds_spec r c rows cols :
  inBounds r c rows cols = true ↔ 0 <= r < rows ∧ 0 <= c < cols.
Proof. unfold inBounds. rewrite !andb_true_iff. lia. Qed.

Lemma getCell_setCell_ne g r c x r' c' :
  (r, c) ≠ (r', c') → getCell (setCell g r c x) r' c' = getCell g r' c'.
Proof.
  intros Hne. unfold getCell, setCell.
  destruct ((0 <=? r) && (0 <=? c)) eqn:Hrc; [|done].
  destruct ((0 <=? r') && (0 <=? c')) eqn:Hrc'; [|done].
  apply andb_true_iff in Hrc as [Hr Hc]. apply andb_true_iff in Hrc' as [Hr' Hc'].
  destruct (g !! Z.to_nat r) as [row|] eqn:Hrow; [|done].
  destruct (decide (Z.to_nat r = Z.to_nat r')) as [Heq|Hneq].
  - rewrite <- Heq, Hrow, list_lookup_insert_eq by (by eapply lookup_lt_Some).
    rewrite list_lookup_insert_ne; [done|].
    intros Hcc. apply Hne. f_equal; lia.
  - by rewrite list_lookup_insert_ne.
Qed.

Lemma getCell_setCell_other g r c x r' c' :
  (r', c') ≠ (r, c) → getCell (setCell g r c x) r' c' = getCell g r' c'.
Proof. intros Hne. apply getCell_setCell_ne. intros Heq. apply Hne. by symmetry. Qed.

Lemma gridRows_setCell g r c x : gridRows (setCell g r c x) = gridRows g.
Proof.
  unfold gridRows, setCell. destruct (_ && _); [|done].
  destruct (g !! _); [|done]. by rewrite length_insert.
Qed.

Lemma gridCols_setCell g r c x : gridCols (setCell g r c x) = gridCols g.
Proof.
  unfold gridCols, setCell. destruct (_ && _); [|done].
  destruct (g !! Z.to_nat r) as [row|] eqn:Hrow; [|done].
  destruct g as [|row0 g']; [done|].
  destruct (Z.to_nat r) as [|n]; simpl in *.
  - injection Hrow as ->. by rewrite length_insert.
  - done.
Qed.

Lemma wfGrid_setCell g r c x : wfGrid g → wfGrid (setCell g r c x).
Proof.
  unfold wfGrid. intros Hwf. rewrite gridCols_setCell.
  unfold setCell. destruct (_ && _); [|done].
  destruct (g !! Z.to_nat r) as [row|] eqn:Hrow; [|done].
  apply Forall_insert; [done|]. rewrite length_insert.
  eapply (Forall_lookup_1 _ _ _ _ Hwf Hrow).
Qed.

(** Inside the bounds of a well-formed grid there is a cell. *)
Lemma lookup_inBounds g r c :
  wfGrid g → inBounds r c (gridRows g) (gridCols g) = true →
  ∃ row x, g !! Z.to_nat r = Some row ∧ row !! Z.to_nat c = Some x.
Proof.
  intros Hwf [Hr Hc]%inBounds_spec. unfold gridRows in Hr.
  destruct (lookup_lt_is_Some_2 g (Z.to_nat r)) as [row Hrow]; [lia|].
  pose proof (Forall_lookup_1 _ _ _ _ Hwf Hrow) as Hlen. simpl in Hlen.
  destruct (lookup_lt_is_Some_2 row (Z.to_nat c)) as [x Hx]; [lia|].
  eauto.
Qed.

Lemma getCell_setCell_eq g r c x :
  wfGrid g → inBounds r c (gridRows g) (gridCols g) = true →
  getCell (setCell g r c x) r c = x.
Proof.
  intros Hwf Hin. destruct (lookup_inBounds _ _ _ Hwf Hin) as (row & y & Hrow & Hy).
  apply inBounds_spec in Hin as [Hr Hc].
  unfold getCell, setCell.
  replace ((0 <=? r) && (0 <=? c)) with true by (symmetry; apply andb_true_iff; lia).
  rewrite Hrow, list_lookup_insert_eq by (by eapply lookup_lt_Some).
  by rewrite list_lookup_insert_eq by (by eapply lookup_lt_Some).
Qed.

Lemma allCellsOf_setCell P g r c x : allCellsOf P g → P x → allCellsOf P (setCell g r c x).
Proof.
  unfold allCellsOf, setCell. intros Hall Hx. destruct (_ && _); [|done].
  destruct (g !! Z.to_nat r) as [row|] eqn:Hrow; [|done].
  apply Forall_insert; [done|]. apply Forall_insert; [|done].
  eapply (Forall_lookup_1 _ _ _ _ Hall Hrow).
Qed.

Lemma allCellsOf_getCell P g r c : allCellsOf P g → P emptyCell → P (getCell g r c).
Proof.
  unfold allCellsOf, getCell. intros Hall He. destruct (_ && _); [|done].
  destruct (g !! Z.to_nat r) as [row|] eqn:Hrow; [|done].
  destruct (row !! Z.to_nat c) as [x|] eqn:Hx; [|done]. simpl.
  eapply Forall_lookup_1; [|exact Hx]. eapply Forall_lookup_1; [exact Hall|exact Hrow].
Qed.

Lemma getCell_setCell_same g r c x :
  getCell g r c ≠ emptyCell → getCell (setCell g r c x) r c = x.
Proof.
  unfold getCell, setCell. destruct ((0 <=? r) && (0 <=? c)); [|done].
  destruct (g !! Z.to_nat r) as [row|] eqn:Hrow; [|done].
  destruct (row !! Z.to_nat c) as [y|] eqn:Hy; [|done]. intros _.
  rewrite list_lookup_insert_eq by (by eapply lookup_lt_Some).
  by rewrite list_lookup_insert_eq by (by eapply lookup_lt_Some).
Qed.

Lemma getCell_setCell_cases g r c x r' c' :
  (getCell (setCell g r c x) r' c' = x ∧ (r', c') = (r, c))
  ∨ getCell (setCell g r c x) r' c' = getCell g r' c'.
Proof.
  destruct (decide ((r', c') = (r, c))) as [[= -> ->]|Hne].
  - unfold getCell, setCell. destruct ((0 <=? r) && (0 <=? c)); [|by right].
    destruct (g !! Z.to_nat r) as [row|] eqn:Hrow; [|right; by rewrite Hrow].
    rewrite list_lookup_insert_eq by (by eapply lookup_lt_Some).
    destruct (row !! Z.to_nat c) as [y|] eqn:Hy.
    + left. by rewrite list_lookup_insert_eq by (by eapply lookup_lt_Some).
    + right. rewrite list_insert_ge by (by apply lookup_ge_None). by rewrite Hy.
  - right. by apply getCell_setCell_other.
Qed.

(** A write keeps a property of the state of the cell at [p] when the
    written cell has it, should the write land on [p]. *)
Lemma setCell_keeps (S : CellState → Prop) g r c x (p : Z * Z) :
  S (state (getCell g p.1 p.2)) → ((r, c) = p → S (state x)) →
  S (state (getCell (setCell g r c x) p.1 p.2)).
Proof.
  intros Hold Hnew. destruct (getCell_setCell_cases g r c x p.1 p.2) as [[-> Heq]| ->]; [|done].
  apply Hnew. destruct p. by symmetry.
Qed.

Lemma foldl_invariant {S A} (I : S → Prop) (f : S → A → S) (l : list A) (s : S) :
  (∀ s a, a ∈ l → I s → I (f s a)) → I s → I (foldl f s l).
Proof.
  revert s. induction l as [|a l IH]; intros s Hstep Hs; simpl; [done|].
  apply IH.
  - intros s' a' Ha'. apply Hstep. by apply list_elem_of_further.
  - apply Hstep; [apply list_elem_of_here|done].
Qed.

(** ** The shuffle permutes *)

Lemma swap_Permutation {T} (arr : list T) i j : swap arr i j ≡ₚ arr.
Proof.
  unfold swap. destruct (arr !! i) as [a|] eqn:Hi; [|done].
  destruct (arr !! j) as [b|] eqn:Hj; [|done].
  apply Permutation_inj. split; [by rewrite !length_insert|].
  exists (fun x => if decide (x = i) then j else if decide (x = j) then i else x).
  split.
  - intros x y. repeat case_decide; congruence.
  - intros x. pose proof (lookup_lt_Some _ _ _ Hi). pose proof (lookup_lt_Some _ _ _ Hj).
    destruct (decide (x = j)) as [->|Hxj].
    + rewrite list_lookup_insert_eq by (by rewrite length_insert).
      destruct (decide (j = i)) as [->|Hji]; congruence.
    + rewrite list_lookup_insert_ne by done.
      destruct (decide (x = i)) as [->|Hxi].
      * by rewrite list_lookup_insert_eq.
      * by rewrite list_lookup_insert_ne.
Qed.

Lemma shuffleLoop_Permutation {T} rnd i (arr : list T) k : (shuffleLoop rnd i arr k).1 ≡ₚ arr.
Proof.
  revert arr k. induction i as [|i IH]; intros arr k; simpl; [done|].
  rewrite IH. apply swap_Permutation.
Qed.

Lemma shuffled_Permutation {T} rnd (items : list T) k : (shuffled rnd items k).1 ≡ₚ items.
Proof. apply shuffleLoop_Permutation. Qed.

Lemma shuffleLoop_cursor {T} rnd i (arr : list T) k : (shuffleLoop rnd i arr k).2 = (k + i)%nat.
Proof.
  revert arr k. induction i as [|i IH]; intros arr k; simpl; [lia|].
  rewrite IH. lia.
Qed.

(** ** Seeding *)

(** C10: on an empty target cell, seeding creates the new cell with health
    exactly 0, whether a dot is placed by click ([placeDot]) or a dot or a
    producer by drop ([handleDrop]). *)
Theorem C10_seed_health_zero (e : DataTransfer) (selectedTeam tm : Team) (r c : Z)
  (prev : Grid) :
  wfGrid prev →
  inBounds r c (gridRows prev) (gridCols prev) = true →
  state (getCell prev r c) = empty →
  getCell (placeDot tm r c prev) r c = mkCell dot (Some tm) (Some 0)
  ∧ getCell (handleDrop e selectedTeam r c prev) r c
    = mkCell (if dropProducer e then producer else dot)
        (Some (default selectedTeam (dropTeam e))) (Some 0)
  ∧ health (getCell (placeDot tm r c prev) r c) = Some 0
  ∧ health (getCell (handleDrop e selectedTeam r c prev) r c) = Some 0.
Proof.
  intros Hwf Hin Hempty.
  assert (Hplace : ∀ t, getCell (placeDot t r c prev) r c = mkCell dot (Some t) (Some 0)).
  { intros t. unfold placeDot. rewrite bool_decide_eq_false_2 by (by intros ?).
    by apply getCell_setCell_eq. }
  assert (Hdrop : getCell (handleDrop e selectedTeam r c prev) r c
    = mkCell (if dropProducer e then producer else dot)
        (Some (default selectedTeam (dropTeam e))) (Some 0)).
  { unfold handleDrop. destruct (dropProducer e); [|apply Hplace].
    rewrite bool_decide_eq_false_2 by (by intros ?). by apply getCell_setCell_eq. }
  rewrite Hplace, Hdrop. done.
Qed.

Lemma C10_seed_health_zero_witness :
  wfGrid (createEmptyGrid 2 3)
  ∧ inBounds 1 2 (gridRows (createEmptyGrid 2 3)) (gridCols (createEmptyGrid 2 3)) = true
  ∧ state (getCell (createEmptyGrid 2 3) 1 2) = empty
  ∧ health (getCell (placeDot green 1 2 (createEmptyGrid 2 3)) 1 2) = Some 0
  ∧ health (getCell (handleDrop (mkDrop true None) blue 1 2 (createEmptyGrid 2 3)) 1 2)
    = Some 0.
Proof.
  assert (Hwf : wfGrid (createEmptyGrid 2 3)) by (repeat constructor).
  split; [exact Hwf|]. split; [reflexivity|]. split; [reflexivity|].
  exact (proj2 (proj2 (C10_seed_health_zero (mkDrop true None) blue green 1 2
                         (createEmptyGrid 2 3) Hwf eq_refl eq_refl))).
Defined.

(** ** Blast footprint *)

Lemma spillLoop_spec rnd rows cols cands k :
  spillLoop rnd rows cols cands k
  = (pickDraws rnd (filter (fun p => inBounds p.1 p.2 rows cols = true) cands) k,
     (k + length (filter (fun p => inBounds p.1 p.2 rows cols = true) cands))%nat).
Proof.
  revert k. induction cands as [|[nr nc] rest IH]; intros k; simpl.
  - f_equal. lia.
  - rewrite filter_cons. simpl. destruct (inBounds nr nc rows cols) eqn:Hin.
    + rewrite decide_True by done. rewrite IH. simpl.
      destruct (Qltb (rnd k) SPILL_CHANCE); f_equal; lia.
    + rewrite decide_False by (by intros ?). apply IH.
Qed.

Lemma blastCore_spec r c rows cols p :
  p ∈ blastCore r c rows cols ↔ inBounds p.1 p.2 rows cols = true ∧ chebyshev p (r, c) <= 1.
Proof.
  unfold blastCore, chebyshev. rewrite list_elem_of_filter. destruct p as [a b]. simpl.
  rewrite !elem_of_cons, elem_of_nil.
  split.
  - intros [Hin Hor]. split; [done|].
    repeat destruct Hor as [Hor|Hor]; try done; simplify_eq; lia.
  - intros [Hin Hd]. split; [done|].
    assert (a = r + -1 ∨ a = r + 0 ∨ a = r + 1) as Ha by lia.
    assert (b = c + -1 ∨ b = c + 0 ∨ b = c + 1) as Hb by lia.
    destruct Ha as [->|[->| ->]], Hb as [->|[->| ->]]; tauto.
Qed.

Lemma spill_spec r c p : p ∈ spill r c ↔ manhattan p (r, c) = 2.
Proof.
  unfold spill, manhattan. destruct p as [a b]. simpl.
  rewrite !elem_of_cons, elem_of_nil.
  split.
  - intros Hor. repeat destruct Hor as [Hor|Hor]; try done; simplify_eq; lia.
  - intros Hd.
    assert ((a = r + 2 ∧ b = c) ∨ (a = r - 2 ∧ b = c) ∨ (a = r ∧ b = c + 2)
            ∨ (a = r ∧ b = c - 2) ∨ (a = r + 1 ∧ b = c + 1) ∨ (a = r + 1 ∧ b = c - 1)
            ∨ (a = r - 1 ∧ b = c + 1) ∨ (a = r - 1 ∧ b = c - 1)) as Hcases by lia.
    repeat destruct Hcases as [[-> ->]|Hcases]; try tauto.
    destruct Hcases as [-> ->]. tauto.
Qed.

(** C3 (as the code has it): the footprint list is the in-bounds 3×3
    neighbourhood followed by the selected spill candidates; there are 8
    distinct candidates, exactly the cells at city-block distance 2 from
    the bomb; every in-bounds candidate takes one draw of its own and is
    included when that draw is below 0.25; the four diagonal candidates
    (r±1, c±1) lie inside the 3×3 neighbourhood and the four axial ones
    (two steps away) outside it. *)
Theorem C3_blast_footprint (rnd : nat → Q) (r c rows cols : Z) (k : nat) :
  collectBlastCells rnd r c rows cols k
  = (blastCore r c rows cols ++ pickDraws rnd (spillCandidates r c rows cols) k,
     (k + length (spillCandidates r c rows cols))%nat)
  ∧ (∀ p, p ∈ blastCore r c rows cols
          ↔ inBounds p.1 p.2 rows cols = true ∧ chebyshev p (r, c) <= 1)
  ∧ length (spill r c) = 8%nat
  ∧ NoDup (spill r c)
  ∧ (∀ p, p ∈ spill r c ↔ manhattan p (r, c) = 2)
  ∧ (∀ p, p ∈ spill r c →
          (chebyshev p (r, c) <= 1
           ↔ p ∈ [(r + 1, c + 1); (r + 1, c - 1); (r - 1, c + 1); (r - 1, c - 1)])).
Proof.
  split; [|split; [|split; [|split; [|split]]]].
  - unfold collectBlastCells. by rewrite spillLoop_spec.
  - intros p. apply blastCore_spec.
  - done.
  - unfold spill. rewrite !NoDup_cons, !elem_of_cons, !elem_of_nil.
    repeat split; try apply NoDup_nil_2; intros Hor;
      repeat destruct Hor as [Hor|Hor]; try done; simplify_eq; lia.
  - intros p. apply spill_spec.
  - intros [a b] Hp. unfold spill in Hp. unfold chebyshev. simpl.
    rewrite !elem_of_cons, elem_of_nil in Hp. rewrite !elem_of_cons, elem_of_nil.
    repeat destruct Hp as [Hp|Hp]; try done; simplify_eq;
      (split; [intros ?; try lia; tauto | intros Hor; try lia;
        repeat destruct Hor as [Hor|Hor]; try done; simplify_eq; lia]).
Qed.

(** C3, as stated, fails: a selected spill cell can lie inside the 3×3
    neighbourhood.  With every draw 0 the bomb at (5,5) of a 24×24 grid
    selects (6,6), which the neighbourhood already holds. *)
Lemma C3_counterexample :
  ¬ (∀ (rnd : nat → Q) (r c rows cols : Z) (k : nat) (p : Z * Z),
        p ∈ (spillLoop rnd rows cols (spill r c) k).1 → p ∉ blastCore r c rows cols).
Proof.
  intros Hclaim.
  apply (Hclaim (fun _ => 0%Q) 5 5 24 24 0%nat (6, 6)).
  - vm_compute. set_solver.
  - vm_compute. set_solver.
Qed.

(** ** Replication scan *)

(** C1 (as the code has it): when the neighbour tried is a dot/producer of
    either team, the cell beyond it is checked first; an empty in-bounds
    cell beyond yields a spawn intent there and the scan of this cell
    stops, whatever the neighbour's team.  Only when the cell beyond is
    out of bounds or not empty does an opposing neighbour yield an attack
    intent targeting that neighbour (and the scan stops), while an
    own-team neighbour makes the cell go on to its next direction. *)
Theorem C1_neighbour_dotlike (grid : Grid) (rows cols r c : Z) (tm : option Team)
  (d : Z * Z) (rest : list (Z * Z)) :
  inBounds (r + d.1) (c + d.2) rows cols = true →
  isDotLike (getCell grid (r + d.1) (c + d.2)) = true →
  let nr := r + d.1 in
  let nc := c + d.2 in
  let rr := nr + d.1 in
  let cc := nc + d.2 in
  let beyondFree :=
    inBounds rr cc rows cols = true ∧ state (getCell grid rr cc) = empty in
  (beyondFree →
     tryDirs grid rows cols r c tm (d :: rest) = Some (Intent.mk rr cc tm))
  ∧ (¬ beyondFree → team (getCell grid nr nc) ≠ tm →
     tryDirs grid rows cols r c tm (d :: rest) = Some (Intent.mk nr nc tm))
  ∧ (¬ beyondFree → team (getCell grid nr nc) = tm →
     tryDirs grid rows cols r c tm (d :: rest) = tryDirs grid rows cols r c tm rest).
Proof.
  intros Hin Hdot nr nc rr cc beyondFree.
  assert (Hne : state (getCell grid nr nc) ≠ empty).
  { intros He. unfold isDotLike in Hdot. subst nr nc. rewrite He in Hdot. done. }
  assert (Hstep : tryDir grid rows cols r c tm d
    = if inBounds rr cc rows cols && bool_decide (state (getCell grid rr cc) = empty)
      then Some (Intent.mk rr cc tm)
      else if bool_decide (team (getCell grid nr nc) ≠ tm)
           then Some (Intent.mk nr nc tm) else None).
  { unfold tryDir. fold nr nc rr cc. subst nr nc. rewrite Hin. simpl.
    rewrite bool_decide_eq_false_2 by done. by rewrite Hdot. }
  simpl. rewrite Hstep. subst beyondFree.
  split; [|split].
  - intros [Hb He]. rewrite Hb. simpl. by rewrite bool_decide_eq_true_2.
  - intros Hnb Hteam.
    destruct (inBounds rr cc rows cols && bool_decide (state (getCell grid rr cc) = empty))
      eqn:Hb.
    + apply andb_true_iff in Hb as [Hb He]. apply bool_decide_eq_true in He. tauto.
    + by rewrite bool_decide_eq_true_2.
  - intros Hnb Hteam.
    destruct (inBounds rr cc rows cols && bool_decide (state (getCell grid rr cc) = empty))
      eqn:Hb.
    + apply andb_true_iff in Hb as [Hb He]. apply bool_decide_eq_true in He. tauto.
    + by rewrite bool_decide_eq_false_2 by (intros Hn; by apply Hn).
Qed.

Lemma C1_neighbour_dotlike_witness :
  inBounds (0 + 0) (0 + 1) 1 3 = true
  ∧ isDotLike (getCell facingDots (0 + 0) (0 + 1)) = true
  ∧ tryDirs facingDots 1 3 0 0 (Some blue) [(0, 1); (1, 0)]
    = Some (Intent.mk 0 2 (Some blue)).
Proof.
  split; [reflexivity|]. split; [reflexivity|].
  exact (proj1 (C1_neighbour_dotlike facingDots 1 3 0 0 (Some blue) (0, 1) [(1, 0)]
                  eq_refl eq_refl)
           (conj eq_refl eq_refl)).
Defined.

(** C1, as stated, fails: a blue dot at (0,0) trying the direction of the
    green dot at (0,1), with (0,2) empty, emits a spawn intent at (0,2),
    not an attack intent targeting (0,1). *)
Lemma C1_counterexample :
  ¬ (∀ (grid : Grid) (r c : Z) (d : Z * Z),
        isDotLike (getCell grid r c) = true →
        inBounds (r + d.1) (c + d.2) (gridRows grid) (gridCols grid) = true →
        isDotLike (getCell grid (r + d.1) (c + d.2)) = true →
        team (getCell grid (r + d.1) (c + d.2)) ≠ team (getCell grid r c) →
        tryDir grid (gridRows grid) (gridCols grid) r c (team (getCell grid r c)) d
        = Some (Intent.mk (r + d.1) (c + d.2) (team (getCell grid r c)))).
Proof.
  intros Hclaim.
  specialize (Hclaim facingDots 0 0 (0, 1) eq_refl eq_refl eq_refl).
  vm_compute in Hclaim. specialize (Hclaim ltac:(congruence)). congruence.
Qed.

(** ** Line-of-five pressure *)

Lemma getCell_inBounds g r c :
  wfGrid g → getCell g r c ≠ emptyCell → inBounds r c (gridRows g) (gridCols g) = true.
Proof.
  intros Hwf Hne. unfold getCell in Hne.
  destruct ((0 <=? r) && (0 <=? c)) eqn:Hrc; [|done].
  apply andb_true_iff in Hrc as [Hr Hc].
  destruct (g !! Z.to_nat r) as [row|] eqn:Hrow; [|done].
  destruct (row !! Z.to_nat c) as [x|] eqn:Hx; [|done].
  pose proof (Forall_lookup_1 _ _ _ _ Hwf Hrow) as Hlen. simpl in Hlen.
  apply lookup_lt_Some in Hrow, Hx. apply inBounds_spec. unfold gridRows. lia.
Qed.

Lemma openNeighbors_spec next rows cols r c p :
  p ∈ openNeighbors next rows cols r c
  ↔ (∃ d, d ∈ CARDINALS ∧ p = (r + d.1, c + d.2))
    ∧ inBounds p.1 p.2 rows cols = true ∧ state (getCell next p.1 p.2) = empty.
Proof.
  unfold openNeighbors. rewrite list_elem_of_filter, list_elem_of_fmap.
  split.
  - intros [[H1 H2] [d [-> Hd]]]. eauto.
  - intros [[d [Hd ->]] [H1 H2]]. eauto.
Qed.

Lemma shuffled_head {T} rnd (items : list T) k :
  items ≠ [] → ∃ x rest, (shuffled rnd items k).1 = x :: rest ∧ x ∈ items.
Proof.
  intros Hne. pose proof (shuffled_Permutation rnd items k) as Hperm.
  destruct (shuffled rnd items k).1 as [|x rest] eqn:Hs.
  - apply Permutation_nil_l in Hperm. congruence.
  - exists x, rest. split; [done|]. rewrite <- Hperm. set_solver.
Qed.

(** ** Nutrient dead ends *)

Lemma filter_first {A} (P : A → Prop) `{∀ x, Decision (P x)} (pre post : list A) x :
  P x → (∀ y, y ∈ pre → ¬ P y) → filter P (pre ++ x :: post) = x :: filter P post.
Proof.
  intros Hx. induction pre as [|y pre IH]; intros Hpre; simpl.
  - by rewrite filter_cons_True.
  - rewrite filter_cons_False by (apply Hpre; set_solver).
    apply IH. intros z Hz. apply Hpre. set_solver.
Qed.

Lemma filter_none {A} (P : A → Prop) `{∀ x, Decision (P x)} (l : list A) :
  (∀ x, x ∈ l → ¬ P x) → filter P l = [].
Proof.
  induction l as [|y l IH]; intros Hl; [done|].
  rewrite filter_cons_False by (apply Hl; set_solver).
  apply IH. intros z Hz. apply Hl. set_solver.
Qed.

Lemma wallNeighborDirs_dead_end next rows cols r c tm prev :
  (∀ d, d ∈ CARDINALS → ¬ isWallOf next rows cols tm (r + d.1, c + d.2)) →
  wallNeighborDirs next rows cols r c tm prev = [].
Proof.
  intros Hdead.
  assert (Hnil : filter (fun d : Z * Z =>
              inBounds (r + d.1) (c + d.2) rows cols = true
              ∧ state (getCell next (r + d.1) (c + d.2)) = block
              ∧ team (getCell next (r + d.1) (c + d.2)) = Some tm) CARDINALS = []).
  { apply filter_none. intros d Hd. exact (Hdead d Hd). }
  unfold wallNeighborDirs. rewrite Hnil. by destruct prev.
Qed.

Lemma hasEnemyNeighbor_spec g r c tm :
  hasEnemyNeighbor g r c (Some tm) = true ↔ enemyAdjacent g (r, c) tm.
Proof.
  unfold hasEnemyNeighbor, enemyAdjacent. rewrite existsb_exists.
  split.
  - intros (d & Hd & Hb). apply andb_true_iff in Hb as [Hin Hb].
    apply bool_decide_eq_true in Hb. exists d.
    split; [by apply list_elem_of_In|]. split; [exact Hin|exact Hb].
  - intros (d & Hd & Hin & Hb). cbn [fst snd] in Hin, Hb.
    exists d. split; [by apply list_elem_of_In|].
    rewrite Hin. by apply bool_decide_eq_true.
Qed.

Lemma hasEnemyNeighbor_setCell g r c x tm :
  hasEnemyNeighbor (setCell g r c x) r c tm = hasEnemyNeighbor g r c tm.
Proof.
  unfold hasEnemyNeighbor. destruct tm as [t|]; [|done].
  rewrite gridRows_setCell, gridCols_setCell. unfold CARDINALS. simpl.
  rewrite !getCell_setCell_ne; [done|..]; intros [= ? ?]; lia.
Qed.

(** What feeding does to the grid. *)
Lemma feedDot_spec next fr fc tm :
  wfGrid next →
  isFriendlyDot next (gridRows next) (gridCols next) tm (fr, fc) →
  let old := getCell next fr fc in
  let next' := (feedDot next fr fc tm).1 in
  getCell next' fr fc
  = mkCell (if hasEnemyNeighbor next fr fc (Some tm) then state old else producer)
      (team old) (Some (Z.min MAX_HEALTH (healthOr0 old + 1)))
  ∧ ∀ r' c', (r', c') ≠ (fr, fc) → getCell next' r' c' = getCell next r' c'.
Proof.
  intros Hwf (Hin & Hteam & Hdot) old next'. simpl in Hin, Hteam, Hdot.
  subst next'. unfold feedDot, bumpHealth. rewrite hasEnemyNeighbor_setCell, Hdot.
  rewrite bool_decide_eq_false_2 by (intros Hn; by apply Hn). fold old.
  destruct (hasEnemyNeighbor next fr fc (Some tm)); cbn [negb orb fst].
  - split; [by apply getCell_setCell_eq|].
    intros r' c' Hne. by apply getCell_setCell_other.
  - unfold setState. rewrite (getCell_setCell_eq next) by done. simpl. split.
    + apply getCell_setCell_eq; [by apply wfGrid_setCell|].
      by rewrite gridRows_setCell, gridCols_setCell.
    + intros r' c' Hne. by rewrite !getCell_setCell_other.
Qed.

(** Feeding leaves the walls alone, so the wall neighbours of a cell are
    the same all along the move loop. *)
Lemma blocksSame_refl g : blocksSame g g.
Proof. by intros r c _. Qed.

Lemma blocksSame_trans g1 g2 g3 : blocksSame g1 g2 → blocksSame g2 g3 → blocksSame g1 g3.
Proof.
  intros H12 H23 r c [H3|H1].
  - rewrite (H23 r c) by (by left). apply H12. left. by rewrite <- (H23 r c) by (by left).
  - pose proof (H12 r c (or_intror H1)) as Heq. rewrite <- Heq.
    apply H23. right. by rewrite Heq.
Qed.

Lemma blocksSame_setCell g r c x :
  state (getCell g r c) ≠ block → state x ≠ block → blocksSame g (setCell g r c x).
Proof.
  intros Hold Hnew r' c' Hor.
  destruct (getCell_setCell_cases g r c x r' c') as [[Hx [= -> ->]]|Heq]; [|done].
  rewrite Hx in Hor. tauto.
Qed.

Lemma isDotLike_not_block x : isDotLike x = true → state x ≠ block.
Proof.
  unfold isDotLike. intros H Hb. rewrite Hb in H. done.
Qed.

Lemma blocksSame_feedDot next nr nc tm : blocksSame next (feedDot next nr nc tm).1.
Proof.
  unfold feedDot. destruct (bool_decide _); [apply blocksSame_refl|].
  destruct (isDotLike (getCell next nr nc)) eqn:Hdot; [|apply blocksSame_refl].
  cbn [negb orb]. apply isDotLike_not_block in Hdot.
  assert (Hbump : blocksSame next (bumpHealth next nr nc)).
  { unfold bumpHealth. by apply blocksSame_setCell. }
  destruct (negb _); [|done]. cbn [fst]. eapply blocksSame_trans; [exact Hbump|].
  unfold setState. apply blocksSame_setCell; [|done].
  intros Hb. apply Hdot. rewrite <- (Hbump nr nc) by (by left). done.
Qed.

Lemma wallNeighborDirs_blocksSame next next' rows cols r c tm prev :
  blocksSame next next' →
  wallNeighborDirs next' rows cols r c tm prev = wallNeighborDirs next rows cols r c tm prev.
Proof.
  intros Hsame. unfold wallNeighborDirs.
  assert (Heq : filter (fun d : Z * Z =>
              inBounds (r + d.1) (c + d.2) rows cols = true
              ∧ state (getCell next' (r + d.1) (c + d.2)) = block
              ∧ team (getCell next' (r + d.1) (c + d.2)) = Some tm) CARDINALS
            = filter (fun d : Z * Z =>
              inBounds (r + d.1) (c + d.2) rows cols = true
              ∧ state (getCell next (r + d.1) (c + d.2)) = block
              ∧ team (getCell next (r + d.1) (c + d.2)) = Some tm) CARDINALS).
  { apply list_filter_iff. intros d. split; intros (Hin & Hb & Ht).
    - rewrite <- (Hsame (r + d.1) (c + d.2)) by (by left). done.
    - rewrite (Hsame (r + d.1) (c + d.2)) by (by right). done. }
  by rewrite Heq.
Qed.

(** Where the nutrients collected by the move loop come from: each carries
    the id of an input nutrient that has a wall neighbour in the input
    grid. *)
Lemma moveNutrients_origin rnd (grid : Grid) (nutrients : list Nutrient.t) (k : nat) :
  let rows := gridRows grid in
  let cols := gridCols grid in
  let moved := foldl (moveNutrient rnd rows cols) (grid, [], ∅, k) nutrients in
  blocksSame grid moved.1.1.1
  ∧ Forall (fun m => ∃ n', n' ∈ nutrients ∧ Nutrient.id m = Nutrient.id n'
              ∧ wallNeighborDirs grid rows cols (Nutrient.r n') (Nutrient.c n')
                  (Nutrient.team n') (Some (Nutrient.dir n')) ≠ []) moved.1.1.2.
Proof.
  intros rows cols moved. subst moved.
  apply (foldl_invariant (fun st : FlowState =>
    blocksSame grid st.1.1.1
    ∧ Forall (fun m => ∃ n', n' ∈ nutrients ∧ Nutrient.id m = Nutrient.id n'
                ∧ wallNeighborDirs grid rows cols (Nutrient.r n') (Nutrient.c n')
                    (Nutrient.team n') (Some (Nutrient.dir n')) ≠ []) st.1.1.2)).
  - intros [[[next out] occ] k0] n Hn [Hsame Hout]. cbn [fst snd] in *.
    unfold moveNutrient.
    destruct (_ || _); [done|].
    rewrite (wallNeighborDirs_blocksSame grid next) by done.
    destruct (length _ =? 0)%nat eqn:Hlen.
    + cbn [fst snd]. split; [|done]. eapply blocksSame_trans; [exact Hsame|].
      unfold handleDeadEnd. destruct (friendlyDots _ _ _ _ _ _) as [|[nr nc] ?];
        [apply blocksSame_refl|apply blocksSame_feedDot].
    + assert (Hdirs : wallNeighborDirs grid rows cols (Nutrient.r n) (Nutrient.c n)
                        (Nutrient.team n) (Some (Nutrient.dir n)) ≠ []).
      { intros Hnil. rewrite Hnil in Hlen. done. }
      destruct (shuffled rnd _ k0) as [order k1]. destruct order as [|[dr dc] ?]; [done|].
      destruct (MAX_NUTRIENTS_PER_CELL <=? _); cbn [fst snd]; (split; [done|]);
        (apply Forall_app_2; [done|]); apply Forall_singleton; by exists n.
  - cbn [fst snd]. split; [apply blocksSame_refl|constructor].
Qed.

Lemma produceAt_out (rnd : nat → Q) (now : Z * Z → Z) (tick rows cols : Z)
  (st : FlowState) (p : Z * Z) (P : Nutrient.t → Prop) :
  (∀ m, idTick (Nutrient.id m) = tick → P m) →
  Forall P st.1.1.2 → Forall P (produceAt rnd now tick rows cols st p).1.1.2.
Proof.
  destruct st as [[[next out] occ] k]. cbn [fst snd]. intros Hnew Hout. unfold produceAt.
  destruct (team _); [|done]. destruct (bool_decide _); [done|].
  destruct (length _ =? 0)%nat; [done|].
  destruct (shuffled rnd _ k) as [order k1]. destruct order as [|[dr dc] ?]; [done|].
  destruct (MAX_NUTRIENTS_PER_CELL <=? _); [done|]. cbn [fst snd].
  apply Forall_app_2; [done|]. apply Forall_singleton. by apply Hnew.
Qed.

(** A dead-end nutrient is absent from what [runNutrients] returns: no
    returned nutrient carries its id, provided the id is its own among the
    input nutrients and was not built in this very tick. *)
Lemma runNutrients_absent rnd now (grid : Grid) (nutrients : list Nutrient.t)
  (tick : Z) (k : nat) (n : Nutrient.t) :
  wallNeighborDirs grid (gridRows grid) (gridCols grid) (Nutrient.r n) (Nutrient.c n)
    (Nutrient.team n) (Some (Nutrient.dir n)) = [] →
  (∀ n', n' ∈ nutrients → Nutrient.id n' = Nutrient.id n → n' = n) →
  idTick (Nutrient.id n) ≠ tick →
  Forall (fun m => Nutrient.id m ≠ Nutrient.id n)
    (FlowResult.nutrients (runNutrients rnd now grid nutrients tick k).1).
Proof.
  intros Hdead Huniq Htick. unfold runNutrients.
  destruct (moveNutrients_origin rnd grid nutrients k) as [_ Horigin].
  assert (Hmoved : Forall (fun m => Nutrient.id m ≠ Nutrient.id n)
    (foldl (moveNutrient rnd (gridRows grid) (gridCols grid)) (grid, [], ∅, k) nutrients).1.1.2).
  { eapply Forall_impl; [exact Horigin|]. intros m (n' & Hn' & Hid & Hdirs) Heq.
    apply Hdirs. rewrite (Huniq n' Hn') by congruence. exact Hdead. }
  destruct (Z.rem tick PRODUCE_EVERY =? 0).
  - assert (Hprod : Forall (fun m => Nutrient.id m ≠ Nutrient.id n)
      (foldl (produceAt rnd now tick (gridRows grid) (gridCols grid))
         (foldl (moveNutrient rnd (gridRows grid) (gridCols grid)) (grid, [], ∅, k) nutrients)
         (allCells (gridRows grid) (gridCols grid))).1.1.2).
    { apply (foldl_invariant (fun st : FlowState =>
               Forall (fun m => Nutrient.id m ≠ Nutrient.id n) st.1.1.2)); [|done].
      intros st p _ Hst. apply produceAt_out; [|done].
      intros m Hm Heq. apply Htick. by rewrite <- Heq. }
    by destruct (foldl (produceAt _ _ _ _ _) _ _) as [[[? ?] ?] ?].
  - by destruct (foldl (moveNutrient _ _ _) _ _) as [[[? ?] ?] ?].
Qed.

(** C7: a nutrient on a wall cell that has no cardinal same-team wall
    neighbour is a dead end.  Processing it pushes no token, claims no
    cell and makes no draw.  If no cardinal neighbour is a same-team
    dot/producer the grid is unchanged.  Otherwise the first such
    neighbour in scan order gets health [min 3 (health + 1)], keeps its
    team, and becomes a producer exactly when it has no cardinal,
    non-empty, other-team neighbour (else it keeps its state); no other
    cell changes.  The token is absent from the returned set: a run on that
    token alone, off the emission cadence, returns no token, and a run on
    any set of nutrients in which the token's id is its own (and was not
    built in this very tick) returns no nutrient with that id. *)
Theorem C7_dead_end (rnd : nat → Q) (now : Z * Z → Z) (next : Grid)
  (nextNutrients : list Nutrient.t) (occupied : gmap (Z * Z) Z) (k : nat)
  (n : Nutrient.t) (tick : Z) :
  wfGrid next →
  let rows := gridRows next in
  let cols := gridCols next in
  let r := Nutrient.r n in
  let c := Nutrient.c n in
  let tm := Nutrient.team n in
  isWallOf next rows cols tm (r, c) →
  (∀ d, d ∈ CARDINALS → ¬ isWallOf next rows cols tm (r + d.1, c + d.2)) →
  ∃ next',
    moveNutrient rnd rows cols (next, nextNutrients, occupied, k) n
    = (next', nextNutrients, occupied, k)
    ∧ ((∀ d, d ∈ CARDINALS → ¬ isFriendlyDot next rows cols tm (r + d.1, c + d.2)) →
       next' = next)
    ∧ (∀ p, firstInScan (isFriendlyDot next rows cols tm) r c p →
         let old := getCell next p.1 p.2 in
         health (getCell next' p.1 p.2) = Some (Z.min 3 (healthOr0 old + 1))
         ∧ team (getCell next' p.1 p.2) = team old
         ∧ (¬ enemyAdjacent next p tm → state (getCell next' p.1 p.2) = producer)
         ∧ (enemyAdjacent next p tm → state (getCell next' p.1 p.2) = state old)
         ∧ ∀ r' c', (r', c') ≠ p → getCell next' r' c' = getCell next r' c')
    ∧ (Z.rem tick PRODUCE_EVERY ≠ 0 →
       runNutrients rnd now next [n] tick k = (FlowResult.mk next' [], k))
    ∧ (∀ nutrients : list Nutrient.t,
         (∀ n', n' ∈ nutrients → Nutrient.id n' = Nutrient.id n → n' = n) →
         idTick (Nutrient.id n) ≠ tick →
         ∀ m, m ∈ FlowResult.nutrients (runNutrients rnd now next nutrients tick k).1 →
              Nutrient.id m ≠ Nutrient.id n).
Proof.
  intros Hwf rows cols r c tm (Hin & Hblock & Hteam) Hdead. simpl in Hin, Hblock, Hteam.
  exists (handleDeadEnd next rows cols n).
  assert (Hmove : ∀ out occ,
    moveNutrient rnd rows cols (next, out, occ, k) n
    = (handleDeadEnd next rows cols n, out, occ, k)).
  { intros out occ. unfold moveNutrient. fold r c tm. rewrite Hin.
    rewrite bool_decide_eq_false_2 by (intros Hn; by apply Hn).
    rewrite bool_decide_eq_false_2 by (intros Hn; by apply Hn). cbn [negb orb].
    by rewrite wallNeighborDirs_dead_end. }
  split; [apply Hmove|]. split; [|split; [|split]].
  - intros Hnone. unfold handleDeadEnd. fold r c tm.
    replace (friendlyDots next rows cols r c tm) with (@nil (Z * Z)); [done|].
    symmetry. apply filter_none. intros p Hp.
    apply list_elem_of_fmap in Hp as (d & -> & Hd). exact (Hnone d Hd).
  - intros p (pre & d & post & Hcard & -> & Hfriend & Hpre) old. simpl in old.
    assert (Hfd : friendlyDots next rows cols r c tm
                  = (r + d.1, c + d.2) :: filter (isFriendlyDot next rows cols tm)
                      ((fun d : Z * Z => (r + d.1, c + d.2)) <$> post)).
    { unfold friendlyDots. rewrite Hcard, fmap_app, fmap_cons.
      apply (filter_first (isFriendlyDot next rows cols tm)); [done|].
      intros y Hy. apply list_elem_of_fmap in Hy as (d' & -> & Hd'). by apply Hpre. }
    unfold handleDeadEnd. fold r c tm. rewrite Hfd.
    destruct (feedDot_spec next (r + d.1) (c + d.2) tm Hwf Hfriend) as [Hfed Hother].
    cbn [fst snd] in *. rewrite Hfed. cbn [state team health]. fold old.
    split; [done|]. split; [done|].
    split; [|split].
    + intros Hno. destruct (hasEnemyNeighbor next (r + d.1) (c + d.2) (Some tm)) eqn:He.
      * apply hasEnemyNeighbor_spec in He. contradiction.
      * reflexivity.
    + intros Hyes. apply hasEnemyNeighbor_spec in Hyes. cbn [fst snd] in Hyes.
      by rewrite Hyes.
    + exact Hother.
  - intros Htick. unfold runNutrients. fold rows cols. cbn [foldl]. rewrite Hmove.
    destruct (Z.rem tick PRODUCE_EVERY =? 0) eqn:Hz; [|done].
    apply Z.eqb_eq in Hz. done.
  - intros nutrients Huniq Htick m Hm.
    pose proof (runNutrients_absent rnd now next nutrients tick k n
                  (wallNeighborDirs_dead_end _ _ _ _ _ _ _ Hdead) Huniq Htick) as Habs.
    by apply (proj1 (Forall_forall _ _) Habs).
Qed.

Lemma C7_dead_end_witness :
  wfGrid deadEndBoard
  ∧ isWallOf deadEndBoard 1 3 blue (0, 0)
  ∧ (∀ d, d ∈ CARDINALS → ¬ isWallOf deadEndBoard 1 3 blue (0 + d.1, 0 + d.2))
  ∧ ∃ next', moveNutrient (fun _ => 0%Q) 1 3 (deadEndBoard, [], ∅, 0%nat) deadEndToken
             = (next', [], ∅, 0%nat).
Proof.
  assert (Hwf : wfGrid deadEndBoard) by (repeat constructor).
  assert (Hwall : isWallOf deadEndBoard 1 3 blue (0, 0)) by (repeat split).
  assert (Hdead : ∀ d, d ∈ CARDINALS → ¬ isWallOf deadEndBoard 1 3 blue (0 + d.1, 0 + d.2)).
  { intros d Hd (H1 & H2 & H3). unfold CARDINALS in Hd.
    rewrite !elem_of_cons, elem_of_nil in Hd.
    destruct Hd as [->|[->|[->|[->|[]]]]]; vm_compute in H1, H2; congruence. }
  split; [exact Hwf|]. split; [exact Hwall|]. split; [exact Hdead|].
  destruct (C7_dead_end (fun _ => 0%Q) (fun _ => 0) deadEndBoard [] ∅ 0%nat deadEndToken 1
              Hwf Hwall Hdead) as (next' & Hmove & _).
  exists next'. exact Hmove.
Defined.

(** ** Nutrient occupancy *)

(** C6 (the code at a failing input): on the corridor board the three
    nutrients start on three different wall cells of their team, and one
    [runNutrients] call (off the emission cadence, whatever the draws and
    the clock) returns two nutrients on the cell (0,1): the one that turned
    back from (0,0) into it and the one that waited there because its
    destination (0,2) had been claimed by the nutrient turning back from
    (0,3). *)
Theorem C6_cap_exceeded (rnd : nat → Q) (now : Z * Z → Z) (k : nat) :
  NoDup (positions corridorTokens)
  ∧ pruneNutrients corridorBoard corridorTokens = corridorTokens
  ∧ positions (FlowResult.nutrients (runNutrients rnd now corridorBoard corridorTokens 1 k).1)
    = [(0, 2); (0, 1); (0, 1)]
  ∧ ¬ NoDup (positions
               (FlowResult.nutrients (runNutrients rnd now corridorBoard corridorTokens 1 k).1)).
Proof.
  assert (Hpos : positions
    (FlowResult.nutrients (runNutrients rnd now corridorBoard corridorTokens 1 k).1)
    = [(0, 2); (0, 1); (0, 1)]) by (vm_compute; reflexivity).
  split; [|split; [|split]].
  - vm_compute. rewrite !NoDup_cons, !elem_of_cons, !elem_of_nil.
    repeat split; try apply NoDup_nil_2; intros Hor;
      repeat destruct Hor as [Hor|Hor]; congruence.
  - vm_compute. reflexivity.
  - exact Hpos.
  - rewrite Hpos. rewrite !NoDup_cons, !elem_of_cons. intros (_ & Hn & _). tauto.
Qed.

(** ** Which grid the phases read *)

Lemma elem_of_range n x : x ∈ range n ↔ 0 <= x < n.
Proof.
  unfold range. rewrite list_elem_of_fmap. split.
  - intros (i & -> & Hi). apply elem_of_seq in Hi. lia.
  - intros Hx. exists (Z.to_nat x). split; [lia|]. apply elem_of_seq. lia.
Qed.

Lemma elem_of_allCells rows cols r c :
  (r, c) ∈ allCells rows cols ↔ inBounds r c rows cols = true.
Proof.
  unfold allCells. rewrite inBounds_spec, list_elem_of_bind. split.
  - intros (r' & Hc & Hr). apply list_elem_of_bind in Hc as (c' & Hp & Hc).
    apply list_elem_of_singleton in Hp as [= -> ->].
    apply elem_of_range in Hr, Hc. done.
  - intros [Hr Hc]. exists r. split; [|by apply elem_of_range].
    apply list_elem_of_bind. exists c.
    split; [by apply list_elem_of_singleton|by apply elem_of_range].
Qed.

Lemma tryDir_justified grid rows cols r c d it :
  inBounds r c rows cols = true →
  isDotLike (getCell grid r c) = true →
  d ∈ CARDINALS →
  tryDir grid rows cols r c (team (getCell grid r c)) d = Some it →
  scanJustified grid rows cols it.
Proof.
  intros Hin Hdot Hd Htry. exists r, c, d. unfold tryDir in Htry.
  destruct (inBounds (r + d.1) (c + d.2) rows cols) eqn:Hn; [|done]. cbn [negb] in Htry.
  case_bool_decide as He.
  { injection Htry as <-. cbn. repeat split; try done. by left. }
  destruct (isDotLike (getCell grid (r + d.1) (c + d.2))) eqn:Hnd; [|done].
  destruct (inBounds (r + d.1 + d.1) (c + d.2 + d.2) rows cols
            && bool_decide (state (getCell grid (r + d.1 + d.1) (c + d.2 + d.2)) = empty))
    eqn:Hb.
  { apply andb_true_iff in Hb as [Hb Hbe]. apply bool_decide_eq_true in Hbe.
    injection Htry as <-. cbn. repeat split; try done. right. by left. }
  case_bool_decide as Ht; [|done].
  injection Htry as <-. cbn. repeat split; try done. right. by right.
Qed.

Lemma tryDirs_Some grid rows cols r c tm dirs it :
  tryDirs grid rows cols r c tm dirs = Some it →
  ∃ d, d ∈ dirs ∧ tryDir grid rows cols r c tm d = Some it.
Proof.
  induction dirs as [|d dirs IH]; [done|]. simpl.
  destruct (tryDir grid rows cols r c tm d) as [it'|] eqn:Hd.
  - intros [= ->]. exists d. split; [apply list_elem_of_here|done].
  - intros Hrest. destruct (IH Hrest) as (d' & Hd' & Ht). exists d'.
    split; [by apply list_elem_of_further|done].
Qed.

Lemma scanCells_justified rnd grid rows cols cells k :
  (∀ p, p ∈ cells → inBounds p.1 p.2 rows cols = true) →
  Forall (scanJustified grid rows cols) (scanCells rnd grid rows cols cells k).1.
Proof.
  revert k. induction cells as [|[r c] cells IH]; intros k Hcells; [constructor|].
  cbn [scanCells].
  assert (Hrest : ∀ p, p ∈ cells → inBounds p.1 p.2 rows cols = true).
  { intros p Hp. apply Hcells. by apply list_elem_of_further. }
  destruct (isDotLike (getCell grid r c)) eqn:Hdot; [|by apply IH].
  pose proof (shuffled_Permutation rnd CARDINALS k) as Hperm.
  destruct (shuffled rnd CARDINALS k) as [dirs k1]. simpl in Hperm.
  specialize (IH k1 Hrest). destruct (scanCells rnd grid rows cols cells k1) as [more k2].
  cbn [fst snd] in *. apply Forall_app_2; [|done].
  destruct (tryDirs grid rows cols r c (team (getCell grid r c)) dirs) as [it|] eqn:Htry;
    simpl; [|constructor].
  apply Forall_singleton. apply tryDirs_Some in Htry as (d & Hd & Htry).
  rewrite Hperm in Hd.
  eapply tryDir_justified; [|done|exact Hd|exact Htry].
  apply (Hcells (r, c)). apply list_elem_of_here.
Qed.

Lemma stepTrace_intents rnd grid k :
  Forall (scanJustified grid (gridRows grid) (gridCols grid))
    (Trace.intents (stepTrace rnd grid k).1).
Proof.
  unfold stepTrace.
  destruct (explode _ _ _ _ _ _) as [[next3 blasts] k1].
  pose proof (scanCells_justified rnd grid (gridRows grid) (gridCols grid)
                (allCells (gridRows grid) (gridCols grid)) k1) as Hscan.
  unfold spawnIntents.
  destruct (scanCells _ _ _ _ _ _) as [intents k2].
  destruct (shuffled rnd intents k2) as [order k3].
  destruct (foldl resolveIntent _ _) as [next4 anims].
  destruct (shuffled rnd (findCenters _ _ _) k3) as [corder k4].
  destruct (foldl (resolveCenter _ _ _) _ _) as [[next5 anims'] k5]. simpl.
  apply Hscan. intros [r c] Hp. by apply elem_of_allCells.
Qed.

(** ** Dependence on the draws and on the clock *)

Lemma agreeFrom_le k k' rnd1 rnd2 : agreeFrom k rnd1 rnd2 → (k ≤ k')%nat → agreeFrom k' rnd1 rnd2.
Proof. intros H Hle n Hn. apply H. lia. Qed.

Ltac agree := eapply agreeFrom_le; [eassumption|lia].

(** A loop whose state carries the cursor: if the two bodies agree on every
    state whose cursor is past [k] and never move the cursor back, so do
    the loops. *)
Lemma foldl_agree {S A} (cur : S → nat) (f1 f2 : S → A → S) (k : nat) (l : list A) (s : S) :
  (∀ s a, (k ≤ cur s)%nat → f1 s a = f2 s a ∧ (cur s ≤ cur (f1 s a))%nat) →
  (k ≤ cur s)%nat →
  foldl f1 s l = foldl f2 s l ∧ (cur s ≤ cur (foldl f1 s l))%nat.
Proof.
  intros Hstep. revert s. induction l as [|a l IH]; intros s Hs; simpl; [done|].
  destruct (Hstep s a Hs) as [Heq Hle]. rewrite <- Heq.
  destruct (IH (f1 s a) ltac:(lia)) as [Heq' Hle']. split; [done|lia].
Qed.

Lemma shuffleLoop_agree {T} rnd1 rnd2 i (arr : list T) k :
  agreeFrom k rnd1 rnd2 → shuffleLoop rnd1 i arr k = shuffleLoop rnd2 i arr k.
Proof.
  revert arr k. induction i as [|i IH]; intros arr k Hag; [done|].
  cbn [shuffleLoop]. rewrite (Hag k) by lia. apply IH. agree.
Qed.

Lemma shuffled_agree {T} rnd1 rnd2 (items : list T) k :
  agreeFrom k rnd1 rnd2 → shuffled rnd1 items k = shuffled rnd2 items k.
Proof. apply shuffleLoop_agree. Qed.

Lemma shuffled_cursor {T} rnd (items : list T) k : (k ≤ (shuffled rnd items k).2)%nat.
Proof. unfold shuffled. rewrite shuffleLoop_cursor. lia. Qed.

Lemma spillLoop_agree rnd1 rnd2 rows cols cands k :
  agreeFrom k rnd1 rnd2 → spillLoop rnd1 rows cols cands k = spillLoop rnd2 rows cols cands k.
Proof.
  revert k. induction cands as [|[nr nc] rest IH]; intros k Hag; [done|].
  cbn [spillLoop]. destruct (inBounds nr nc rows cols); [|by apply IH].
  rewrite (IH (S k)) by agree. by rewrite (Hag k) by lia.
Qed.

Lemma collectBlastCells_agree rnd1 rnd2 r c rows cols k :
  agreeFrom k rnd1 rnd2 →
  collectBlastCells rnd1 r c rows cols k = collectBlastCells rnd2 r c rows cols k.
Proof. intros Hag. unfold collectBlastCells. by rewrite (spillLoop_agree rnd1 rnd2). Qed.

Lemma collectBlastCells_cursor rnd r c rows cols k :
  (k ≤ (collectBlastCells rnd r c rows cols k).2)%nat.
Proof. unfold collectBlastCells. rewrite spillLoop_spec. simpl. lia. Qed.

Lemma collectAll_agree rnd1 rnd2 rows cols bombs k :
  agreeFrom k rnd1 rnd2 →
  collectAll rnd1 rows cols bombs k = collectAll rnd2 rows cols bombs k
  ∧ (k ≤ (collectAll rnd1 rows cols bombs k).2)%nat.
Proof.
  revert k. induction bombs as [|[r c] rest IH]; intros k Hag; [done|].
  cbn [collectAll]. rewrite <- (collectBlastCells_agree rnd1 rnd2) by done.
  pose proof (collectBlastCells_cursor rnd1 r c rows cols k) as Hle.
  destruct (collectBlastCells rnd1 r c rows cols k) as [cells k1]. simpl in Hle.
  destruct (IH k1 ltac:(agree)) as [Heq Hle']. rewrite <- Heq.
  destruct (collectAll rnd1 rows cols rest k1) as [more k2]. simpl in *. split; [done|lia].
Qed.

Lemma blastOne_agree (rnd1 rnd2 : nat → Q) (rows cols : Z) (k : nat) (st : Grid * nat)
  (p : Z * Z) :
  agreeFrom k rnd1 rnd2 → (k ≤ st.2)%nat →
  blastOne rnd1 rows cols st p = blastOne rnd2 rows cols st p
  ∧ (st.2 ≤ (blastOne rnd1 rows cols st p).2)%nat.
Proof.
  intros Hag Hk. destruct st as [next k0]. simpl in Hk. unfold blastOne.
  rewrite (Hag k0) by lia.
  destruct (inBounds _ _ _ _); [|done]. destruct (isBomb _); [done|].
  destruct (Qltb _ _); simpl; split; (done || lia).
Qed.

Lemma explode_agree rnd1 rnd2 rows cols next bombs k :
  agreeFrom k rnd1 rnd2 →
  explode rnd1 rows cols next bombs k = explode rnd2 rows cols next bombs k
  ∧ (k ≤ (explode rnd1 rows cols next bombs k).2)%nat.
Proof.
  intros Hag. unfold explode. destruct bombs as [|b bombs]; [done|].
  destruct (collectAll_agree rnd1 rnd2 rows cols (b :: bombs) k Hag) as [Heq Hle].
  rewrite <- Heq. destruct (collectAll rnd1 rows cols (b :: bombs) k) as [cells k1].
  simpl in Hle.
  destruct (foldl_agree snd (blastOne rnd1 rows cols) (blastOne rnd2 rows cols) k cells
              (next, k1)) as [Heq' Hle']; [|done|].
  { intros st p Hst. by apply (blastOne_agree _ _ _ _ k). }
  rewrite <- Heq'. destruct (foldl (blastOne rnd1 rows cols) (next, k1) cells) as [next' k2].
  simpl in *. split; [done|lia].
Qed.

Lemma scanCells_agree rnd1 rnd2 grid rows cols cells k :
  agreeFrom k rnd1 rnd2 →
  scanCells rnd1 grid rows cols cells k = scanCells rnd2 grid rows cols cells k
  ∧ (k ≤ (scanCells rnd1 grid rows cols cells k).2)%nat.
Proof.
  revert k. induction cells as [|[r c] cells IH]; intros k Hag; [done|].
  cbn [scanCells]. destruct (isDotLike (getCell grid r c)); [|by apply IH].
  rewrite <- (shuffled_agree rnd1 rnd2) by done.
  pose proof (shuffled_cursor rnd1 CARDINALS k) as Hle.
  destruct (shuffled rnd1 CARDINALS k) as [dirs k1]. simpl in Hle.
  destruct (IH k1 ltac:(agree)) as [Heq Hle']. rewrite <- Heq.
  destruct (scanCells rnd1 grid rows cols cells k1) as [more k2]. simpl in *.
  split; [done|lia].
Qed.

Lemma resolveCenter_agree (rnd1 rnd2 : nat → Q) (rows cols : Z) (k : nat)
  (st : Grid * gmap (Z * Z) AnimInfo * nat) (key : Z * Z) :
  agreeFrom k rnd1 rnd2 → (k ≤ st.2)%nat →
  resolveCenter rnd1 rows cols st key = resolveCenter rnd2 rows cols st key
  ∧ (st.2 ≤ (resolveCenter rnd1 rows cols st key).2)%nat.
Proof.
  intros Hag Hk. destruct st as [[next anims] k0]. simpl in Hk. unfold resolveCenter.
  destruct (negb _); [done|].
  destruct (0 <? length _)%nat.
  - rewrite <- (shuffled_agree rnd1 rnd2) by agree.
    pose proof (shuffled_cursor rnd1 (openNeighbors next rows cols key.1 key.2) k0) as Hle.
    destruct (shuffled rnd1 _ k0) as [order k1]. simpl in Hle.
    destruct order as [|[nr nc] ?]; simpl; split; (done || lia).
  - destruct (burst _ _ _ _ _ _ _) as [next' anims']. simpl. split; [done|lia].
Qed.

Lemma stepTrace_agree rnd1 rnd2 grid k :
  agreeFrom k rnd1 rnd2 → stepTrace rnd1 grid k = stepTrace rnd2 grid k.
Proof.
  intros Hag. unfold stepTrace.
  destruct (explode_agree rnd1 rnd2 (gridRows grid) (gridCols grid)
              (applyBombState bomb_hot grid
                 (applyBombState bomb_armed grid grid
                    (toArm grid (gridRows grid) (gridCols grid)))
                 (toHot grid (gridRows grid) (gridCols grid)))
              (toExplode grid (gridRows grid) (gridCols grid)) k Hag) as [He Hle1].
  rewrite <- He. destruct (explode rnd1 _ _ _ _ _) as [[next3 blasts] k1]. simpl in Hle1.
  unfold spawnIntents.
  destruct (scanCells_agree rnd1 rnd2 grid (gridRows grid) (gridCols grid)
              (allCells (gridRows grid) (gridCols grid)) k1 ltac:(agree)) as [Hs Hle2].
  rewrite <- Hs. destruct (scanCells rnd1 _ _ _ _ _) as [intents k2]. simpl in Hle2.
  rewrite <- (shuffled_agree rnd1 rnd2 intents k2) by agree.
  pose proof (shuffled_cursor rnd1 intents k2) as Hle3.
  destruct (shuffled rnd1 intents k2) as [order k3]. simpl in Hle3.
  destruct (foldl resolveIntent (next3, ∅) order) as [next4 anims].
  rewrite <- (shuffled_agree rnd1 rnd2 _ k3) by agree.
  pose proof (shuffled_cursor rnd1 (findCenters next4 (gridRows grid) (gridCols grid)) k3)
    as Hle4.
  destruct (shuffled rnd1 _ k3) as [corder k4]. simpl in Hle4.
  destruct (foldl_agree snd (resolveCenter rnd1 (gridRows grid) (gridCols grid))
              (resolveCenter rnd2 (gridRows grid) (gridCols grid)) k corder
              (next4, anims, k4)) as [Hc _]; [|simpl; lia|].
  { intros st key Hst. by apply (resolveCenter_agree _ _ _ _ k). }
  by rewrite <- Hc.
Qed.

Lemma foldl_related {S A} (R : S → S → Prop) (cur : S → nat) (f1 f2 : S → A → S)
  (k : nat) (l : list A) (s1 s2 : S) :
  (∀ s1 s2 a, R s1 s2 → (k ≤ cur s1)%nat →
              R (f1 s1 a) (f2 s2 a) ∧ (cur s1 ≤ cur (f1 s1 a))%nat) →
  R s1 s2 → (k ≤ cur s1)%nat →
  R (foldl f1 s1 l) (foldl f2 s2 l) ∧ (cur s1 ≤ cur (foldl f1 s1 l))%nat.
Proof.
  intros Hstep. revert s1 s2. induction l as [|a l IH]; intros s1 s2 HR Hk; simpl; [done|].
  destruct (Hstep s1 s2 a HR Hk) as [HR' Hle].
  destruct (IH _ _ HR' ltac:(lia)) as [HR'' Hle']. split; [done|lia].
Qed.

Lemma moveNutrient_related (rnd1 rnd2 : nat → Q) (now1 now2 : Z * Z → Z) (tick rows cols : Z)
  (k : nat) (s1 s2 : FlowState) (n : Nutrient.t) :
  agreeFrom k rnd1 rnd2 → flowRelated now1 now2 tick s1 s2 → (k ≤ s1.2)%nat →
  flowRelated now1 now2 tick (moveNutrient rnd1 rows cols s1 n) (moveNutrient rnd2 rows cols s2 n)
  ∧ (s1.2 ≤ (moveNutrient rnd1 rows cols s1 n).2)%nat.
Proof.
  intros Hag HR Hk.
  destruct s1 as [[[next out1] occ] k0], s2 as [[[next2 out2] occ2] k2].
  destruct HR as (Hn & Hout & Ho & Hc). simpl in Hn, Hout, Ho, Hc, Hk. subst next2 occ2 k2.
  unfold moveNutrient.
  destruct (_ || _); [by repeat split|].
  destruct (length _ =? 0)%nat; [by repeat split|].
  rewrite <- (shuffled_agree rnd1 rnd2) by agree.
  pose proof (shuffled_cursor rnd1
    (wallNeighborDirs next rows cols (Nutrient.r n) (Nutrient.c n) (Nutrient.team n)
       (Some (Nutrient.dir n))) k0) as Hle.
  destruct (shuffled rnd1 _ k0) as [order k1]. simpl in Hle.
  destruct order as [|[dr dc] ?]; [by repeat split|].
  destruct (MAX_NUTRIENTS_PER_CELL <=? _);
    unfold flowRelated; cbn [fst snd]; (split; [|lia]); (split; [done|]);
    (split; [|by split]); (apply Forall2_app; [done|]);
    (apply Forall2_cons_2; [by left|constructor]).
Qed.

Lemma produceAt_related (rnd1 rnd2 : nat → Q) (now1 now2 : Z * Z → Z) (tick rows cols : Z)
  (k : nat) (s1 s2 : FlowState) (p : Z * Z) :
  agreeFrom k rnd1 rnd2 → flowRelated now1 now2 tick s1 s2 → (k ≤ s1.2)%nat →
  flowRelated now1 now2 tick (produceAt rnd1 now1 tick rows cols s1 p)
    (produceAt rnd2 now2 tick rows cols s2 p)
  ∧ (s1.2 ≤ (produceAt rnd1 now1 tick rows cols s1 p).2)%nat.
Proof.
  intros Hag HR Hk.
  destruct s1 as [[[next out1] occ] k0], s2 as [[[next2 out2] occ2] k2].
  destruct HR as (Hn & Hout & Ho & Hc). simpl in Hn, Hout, Ho, Hc, Hk. subst next2 occ2 k2.
  unfold produceAt.
  destruct (team (getCell next p.1 p.2)) as [tm|]; [|by repeat split].
  destruct (bool_decide _); [by repeat split|].
  destruct (length _ =? 0)%nat; [by repeat split|].
  rewrite <- (shuffled_agree rnd1 rnd2) by agree.
  pose proof (shuffled_cursor rnd1 (wallNeighborDirs next rows cols p.1 p.2 tm None) k0) as Hle.
  destruct (shuffled rnd1 _ k0) as [order k1]. simpl in Hle.
  destruct order as [|[dr dc] ?]; [by repeat split|].
  destruct (MAX_NUTRIENTS_PER_CELL <=? _); [by repeat split|].
  unfold flowRelated. cbn [fst snd]. split; [|lia]. split; [done|].
  split; [|by split]. apply Forall2_app; [done|]. apply Forall2_cons_2; [|constructor].
  right. exists (p.1, p.2), (rnd1 k1), (p.1 + dr), (p.2 + dc), tm, (dr, dc).
  split; [done|]. rewrite <- (Hag k1) by lia. done.
Qed.

Lemma runNutrients_related rnd1 rnd2 now1 now2 grid nutrients tick k :
  agreeFrom k rnd1 rnd2 →
  FlowResult.grid (runNutrients rnd1 now1 grid nutrients tick k).1
  = FlowResult.grid (runNutrients rnd2 now2 grid nutrients tick k).1
  ∧ Forall2 (sameButClock now1 now2 tick)
      (FlowResult.nutrients (runNutrients rnd1 now1 grid nutrients tick k).1)
      (FlowResult.nutrients (runNutrients rnd2 now2 grid nutrients tick k).1)
  ∧ (runNutrients rnd1 now1 grid nutrients tick k).2
    = (runNutrients rnd2 now2 grid nutrients tick k).2.
Proof.
  intros Hag. unfold runNutrients.
  destruct (foldl_related (flowRelated now1 now2 tick) snd
              (moveNutrient rnd1 (gridRows grid) (gridCols grid))
              (moveNutrient rnd2 (gridRows grid) (gridCols grid)) k nutrients
              (grid, [], ∅, k) (grid, [], ∅, k)) as [HR Hle]; [| |done|].
  { intros s1 s2 n. by apply moveNutrient_related. }
  { repeat split. constructor. }
  simpl in Hle.
  destruct (Z.rem tick PRODUCE_EVERY =? 0).
  - destruct (foldl_related (flowRelated now1 now2 tick) snd
                (produceAt rnd1 now1 tick (gridRows grid) (gridCols grid))
                (produceAt rnd2 now2 tick (gridRows grid) (gridCols grid)) k
                (allCells (gridRows grid) (gridCols grid)) _ _
                ltac:(intros s1 s2 p; by apply produceAt_related) HR Hle) as [HR' _].
    destruct (foldl (produceAt rnd1 _ _ _ _) _ _) as [[[n1 o1] oc1] k1],
             (foldl (produceAt rnd2 _ _ _ _) _ _) as [[[n2 o2] oc2] k2].
    destruct HR' as (? & ? & ? & ?). done.
  - destruct (foldl (moveNutrient rnd1 _ _) _ _) as [[[n1 o1] oc1] k1],
             (foldl (moveNutrient rnd2 _ _) _ _) as [[[n2 o2] oc2] k2].
    destruct HR as (? & ? & ? & ?). done.
Qed.

Lemma sameButClock_eq now tick out1 out2 :
  Forall2 (sameButClock now now tick) out1 out2 → out1 = out2.
Proof.
  induction 1 as [|m1 m2 l1 l2 Hm _ IH]; [done|]. f_equal; [|exact IH].
  destruct Hm as [->|(p & q & r & c & tm & d & -> & ->)]; done.
Qed.

Lemma sameButClock_ext now1 now2 now2' tick m1 m2 :
  (∀ p, now2 p = now2' p) → sameButClock now1 now2 tick m1 m2 → sameButClock now1 now2' tick m1 m2.
Proof.
  intros Hext [->|(p & q & r & c & tm & d & -> & ->)]; [by left|].
  right. exists p, q, r, c, tm, d. split; [done|]. by rewrite Hext.
Qed.

(** X26: the draws decide the result, and the clock only names tokens.
    Two runs from the same state whose generators return the same values
    from the current call on give the same rule tick: the same result of
    [stepGrid] (grid, blasts, animations, number of draws) and the same
    state after the interval callback.  They give the same nutrient tick
    but for the clock: the same grid, the same number of draws, and lists
    of tokens of which each pair is one and the same token, or a pair of
    tokens emitted in this call by the same producer that differ in the
    clock value of their ids and in nothing else.  When the clocks read the
    same too, the two nutrient ticks are equal. *)
Theorem X26_draws_decide (rnd1 rnd2 : nat → Q) (now1 now2 : Z * Z → Z)
  (sim : Sim.t) (k : nat) :
  agreeFrom k rnd1 rnd2 →
  stepGrid rnd1 (Sim.grid sim) k = stepGrid rnd2 (Sim.grid sim) k
  ∧ tickInterval rnd1 sim k = tickInterval rnd2 sim k
  ∧ Sim.grid (nutrientInterval rnd1 now1 sim k).1 = Sim.grid (nutrientInterval rnd2 now2 sim k).1
  ∧ Forall2 (sameButClock now1 now2 (Sim.nutrientTick sim))
      (Sim.nutrients (nutrientInterval rnd1 now1 sim k).1)
      (Sim.nutrients (nutrientInterval rnd2 now2 sim k).1)
  ∧ (nutrientInterval rnd1 now1 sim k).2 = (nutrientInterval rnd2 now2 sim k).2
  ∧ ((∀ p, now1 p = now2 p) →
     nutrientInterval rnd1 now1 sim k = nutrientInterval rnd2 now2 sim k).
Proof.
  intros Hag.
  assert (Hstep : stepGrid rnd1 (Sim.grid sim) k = stepGrid rnd2 (Sim.grid sim) k).
  { unfold stepGrid. by rewrite (stepTrace_agree rnd1 rnd2). }
  split; [done|]. split; [unfold tickInterval; by rewrite Hstep|].
  destruct (runNutrients_related rnd1 rnd2 now1 now2 (Sim.grid sim) (Sim.nutrients sim)
              (Sim.nutrientTick sim) k Hag) as (Hg & Hn & Hk).
  unfold nutrientInterval.
  destruct (runNutrients rnd1 _ _ _ _ _) as [res1 k1],
           (runNutrients rnd2 _ _ _ _ _) as [res2 k2].
  cbn [fst snd Sim.grid Sim.nutrients] in *.
  split; [done|]. split; [done|]. split; [done|].
  intros Hnow.
  assert (Heq : FlowResult.nutrients res1 = FlowResult.nutrients res2).
  { apply (sameButClock_eq now1 (Sim.nutrientTick sim)).
    eapply Forall2_impl; [exact Hn|]. intros m1 m2 Hm.
    apply (sameButClock_ext now1 now2 now1); [|done]. intros p. by rewrite Hnow. }
  by rewrite Hg, Heq, Hk.
Qed.

Lemma X26_draws_decide_witness :
  agreeFrom 5 drawsA drawsB
  ∧ stepGrid drawsA loneDot 5 = stepGrid drawsB loneDot 5.
Proof.
  assert (Hag : agreeFrom 5 drawsA drawsB).
  { intros n Hn. unfold drawsA, drawsB. destruct (Nat.ltb_spec n 5); [lia|reflexivity]. }
  split; [exact Hag|].
  exact (proj1 (X26_draws_decide drawsA drawsB (fun _ => 0) (fun _ => 1)
                  (Sim.mk loneDot [] 0) 5%nat Hag)).
Defined.

(** ** Cell-state invariants *)

Lemma cellOK_empty : cellOK emptyCell.
Proof.
  unfold cellOK, MAX_HEALTH, healthOr0. simpl. split; [done|]. split; [|lia].
  intros [?|[?|?]]; done.
Qed.

Lemma cellOK_fresh s tm :
  s ≠ empty → is_Some tm → cellOK (mkCell s tm None) ∧ cellOK (mkCell s tm (Some 0)).
Proof.
  unfold cellOK, MAX_HEALTH, healthOr0. simpl. intros Hs Htm. repeat split; done || lia.
Qed.

Lemma cellOK_bomb s tm : s = bomb_armed ∨ s = bomb_hot → cellOK (mkCell s tm None).
Proof.
  unfold cellOK, MAX_HEALTH, healthOr0. simpl.
  intros [-> | ->]; repeat split; try done; try lia; intros [?|[?|?]]; done.
Qed.

Lemma gridOK_get g r c : allCellsOf cellOK g → cellOK (getCell g r c).
Proof. intros Hg. apply allCellsOf_getCell; [done|apply cellOK_empty]. Qed.

Lemma gridOK_createEmptyGrid rows cols : allCellsOf cellOK (createEmptyGrid rows cols).
Proof.
  unfold allCellsOf, createEmptyGrid. apply Forall_replicate, Forall_replicate, cellOK_empty.
Qed.

Lemma gridOK_applyBombState s grid next work :
  s = bomb_armed ∨ s = bomb_hot →
  allCellsOf cellOK next → allCellsOf cellOK (applyBombState s grid next work).
Proof.
  intros Hs Hnext. unfold applyBombState. apply foldl_invariant; [|done].
  intros nx p _ Hnx. apply allCellsOf_setCell; [done|]. by apply cellOK_bomb.
Qed.

Lemma gridOK_explode rnd rows cols next bombs k :
  allCellsOf cellOK next → allCellsOf cellOK (explode rnd rows cols next bombs k).1.1.
Proof.
  intros Hnext. unfold explode. destruct bombs as [|b bombs]; [done|].
  destruct (collectAll rnd rows cols (b :: bombs) k) as [cells k1].
  pose proof (foldl_invariant (fun st : Grid * nat => allCellsOf cellOK st.1)
                (blastOne rnd rows cols) cells (next, k1)) as Hfold.
  destruct (foldl (blastOne rnd rows cols) (next, k1) cells) as [next' k2]. simpl in *.
  apply Hfold; [|done]. intros [nx k0] p _ Hnx. simpl in Hnx. unfold blastOne.
  destruct (inBounds _ _ _ _); [|done].
  destruct (isBomb _); [apply allCellsOf_setCell; [done|apply cellOK_empty]|].
  destruct (Qltb _ _); [done|]. apply allCellsOf_setCell; [done|apply cellOK_empty].
Qed.

Lemma gridOK_resolveIntent (st : Grid * gmap (Z * Z) AnimInfo) (it : Intent.t) :
  is_Some (Intent.team it) →
  allCellsOf cellOK st.1 → allCellsOf cellOK (resolveIntent st it).1.
Proof.
  destruct st as [next anims]. simpl. intros Htm Hnext. unfold resolveIntent.
  pose proof (gridOK_get next (Intent.r it) (Intent.c it) Hnext) as (He & Ht & Hh).
  case_bool_decide as Hempty.
  { simpl. apply allCellsOf_setCell; [done|]. by apply cellOK_fresh. }
  case_bool_decide as Henemy; [|done].
  destruct (0 <? healthOr0 _) eqn:Hpos; simpl.
  - apply Z.ltb_lt in Hpos. apply allCellsOf_setCell; [done|].
    unfold cellOK, healthOr0 in *. simpl. unfold MAX_HEALTH in *.
    split; [done|]. split; [done|lia].
  - apply allCellsOf_setCell; [done|]. by apply cellOK_fresh.
Qed.

Lemma scanJustified_team grid rows cols it :
  allCellsOf cellOK grid → scanJustified grid rows cols it → is_Some (Intent.team it).
Proof.
  intros Hg (r & c & d & _ & Hdot & -> & _).
  pose proof (gridOK_get grid r c Hg) as (_ & Ht & _). apply Ht.
  unfold isDotLike in Hdot. apply orb_true_iff in Hdot as [H|H];
    apply bool_decide_eq_true in H; tauto.
Qed.

Lemma gridOK_burstCorner (rows cols r c : Z) (tm : option Team)
  (st : Grid * gmap (Z * Z) AnimInfo) (d : Z * Z) :
  is_Some tm → allCellsOf cellOK st.1 →
  allCellsOf cellOK (burstCorner rows cols r c tm st d).1.
Proof.
  destruct st as [next anims]. simpl. intros Htm Hnext. unfold burstCorner.
  destruct (negb _); [done|].
  repeat case_bool_decide; simpl; (apply allCellsOf_setCell; [done|]); by apply cellOK_fresh.
Qed.

Lemma gridOK_burst (rows cols r c : Z) (tm : option Team) (next : Grid)
  (anims : gmap (Z * Z) AnimInfo) :
  is_Some tm → allCellsOf cellOK next →
  allCellsOf cellOK (burst rows cols r c tm next anims).1.
Proof.
  intros Htm Hnext. unfold burst.
  apply (foldl_invariant (fun s : Grid * gmap (Z * Z) AnimInfo => allCellsOf cellOK s.1)).
  - intros s d _ Hs. by apply gridOK_burstCorner.
  - apply allCellsOf_setCell; [done|apply cellOK_empty].
Qed.

Lemma gridOK_resolveCenter (rnd : nat → Q) (rows cols : Z)
  (st : Grid * gmap (Z * Z) AnimInfo * nat) (key : Z * Z) :
  allCellsOf cellOK st.1.1 → allCellsOf cellOK (resolveCenter rnd rows cols st key).1.1.
Proof.
  destruct st as [[next anims] k]. simpl. intros Hnext. unfold resolveCenter.
  case_bool_decide as Hdot; [|done]. cbn [negb].
  pose proof (gridOK_get next key.1 key.2 Hnext) as (_ & Ht & Hh).
  assert (Htm : is_Some (team (getCell next key.1 key.2))) by (apply Ht; by left).
  destruct (0 <? length _)%nat.
  - destruct (shuffled rnd _ k) as [order k1]. destruct order as [|[nr nc] ?]; [done|].
    simpl. apply allCellsOf_setCell; [|apply cellOK_empty].
    apply allCellsOf_setCell; [done|].
    unfold cellOK. simpl. repeat split; try done; apply Hh.
  - pose proof (gridOK_burst rows cols key.1 key.2 _ next anims Htm Hnext) as Hres.
    by destruct (burst _ _ _ _ _ _ _) as [next' anims'].
Qed.

Lemma gridOK_stepTrace rnd grid k :
  allCellsOf cellOK grid →
  allCellsOf cellOK (StepResult.grid (Trace.final (stepTrace rnd grid k).1)).
Proof.
  intros Hg. pose proof (stepTrace_intents rnd grid k) as Hint. revert Hint.
  unfold stepTrace.
  pose proof (gridOK_explode rnd (gridRows grid) (gridCols grid)
    (applyBombState bomb_hot grid
       (applyBombState bomb_armed grid grid (toArm grid (gridRows grid) (gridCols grid)))
       (toHot grid (gridRows grid) (gridCols grid)))
    (toExplode grid (gridRows grid) (gridCols grid)) k) as Hex.
  destruct (explode _ _ _ _ _ _) as [[next3 blasts] k1]. simpl in Hex.
  destruct (spawnIntents _ _ _ _ _) as [intents k2].
  pose proof (shuffled_Permutation rnd intents k2) as Hperm.
  destruct (shuffled rnd intents k2) as [order k3]. simpl in Hperm.
  pose proof (foldl_invariant (fun s : Grid * gmap (Z * Z) AnimInfo => allCellsOf cellOK s.1)
                resolveIntent order (next3, ∅)) as Hres.
  destruct (foldl resolveIntent (next3, ∅) order) as [next4 anims].
  destruct (shuffled rnd (findCenters _ _ _) k3) as [corder k4].
  pose proof (foldl_invariant
                (fun s : Grid * gmap (Z * Z) AnimInfo * nat => allCellsOf cellOK s.1.1)
                (resolveCenter rnd (gridRows grid) (gridCols grid)) corder
                (next4, anims, k4)) as Hcen.
  destruct (foldl (resolveCenter _ _ _) _ _) as [[next5 anims'] k5]. simpl in *.
  intros Hint. apply Hcen.
  - intros s key _ Hs. by apply gridOK_resolveCenter.
  - apply Hres.
    + intros s it Hit Hs. apply gridOK_resolveIntent; [|done].
      rewrite Hperm in Hit.
      eapply scanJustified_team; [exact Hg|]. eapply Forall_forall; [exact Hint|done].
    + apply Hex. by repeat apply gridOK_applyBombState; auto.
Qed.

Lemma gridOK_feedDot next nr nc tm :
  allCellsOf cellOK next → allCellsOf cellOK (feedDot next nr nc tm).1.
Proof.
  intros Hnext. unfold feedDot.
  destruct (bool_decide (team (getCell next nr nc) ≠ Some tm)) eqn:Hteam; [done|].
  apply bool_decide_eq_false in Hteam. apply dec_stable in Hteam.
  destruct (isDotLike (getCell next nr nc)) eqn:Hdot; [|done]. cbn [negb orb].
  pose proof (gridOK_get next nr nc Hnext) as (He & Ht & Hh).
  assert (Hbump : allCellsOf cellOK (bumpHealth next nr nc)).
  { unfold bumpHealth. apply allCellsOf_setCell; [done|].
    unfold cellOK, healthOr0, MAX_HEALTH in *. simpl. split; [done|]. split; [done|lia]. }
  destruct (negb _); [|done]. simpl. unfold setState.
  apply allCellsOf_setCell; [done|].
  assert (Hcell : getCell (bumpHealth next nr nc) nr nc
                  = mkCell (state (getCell next nr nc)) (team (getCell next nr nc))
                      (Some (Z.min MAX_HEALTH (healthOr0 (getCell next nr nc) + 1)))).
  { unfold bumpHealth. apply getCell_setCell_same. intros Heq. rewrite Heq in Hteam. done. }
  rewrite Hcell. simpl. rewrite Hteam.
  unfold cellOK, healthOr0, MAX_HEALTH in *. simpl. split; [done|]. split; [by eexists|lia].
Qed.

Lemma gridOK_moveNutrient (rnd : nat → Q) (rows cols : Z) (st : FlowState) (n : Nutrient.t) :
  allCellsOf cellOK st.1.1.1 → allCellsOf cellOK (moveNutrient rnd rows cols st n).1.1.1.
Proof.
  destruct st as [[[next out] occ] k]. simpl. intros Hnext. unfold moveNutrient.
  destruct (_ || _); [done|].
  destruct (length _ =? 0)%nat.
  - simpl. unfold handleDeadEnd. destruct (friendlyDots _ _ _ _ _ _) as [|[nr nc] ?]; [done|].
    by apply gridOK_feedDot.
  - destruct (shuffled rnd _ k) as [order k1]. destruct order as [|[dr dc] ?]; [done|].
    by destruct (MAX_NUTRIENTS_PER_CELL <=? _).
Qed.

Lemma produceAt_grid (rnd : nat → Q) (now : Z * Z → Z) (tick rows cols : Z)
  (st : FlowState) (p : Z * Z) :
  (produceAt rnd now tick rows cols st p).1.1.1 = st.1.1.1.
Proof.
  destruct st as [[[next out] occ] k]. unfold produceAt.
  destruct (team _); [|done]. destruct (bool_decide _); [done|].
  destruct (length _ =? 0)%nat; [done|].
  destruct (shuffled rnd _ k) as [order k1]. destruct order as [|[dr dc] ?]; [done|].
  by destruct (MAX_NUTRIENTS_PER_CELL <=? _).
Qed.

Lemma gridOK_runNutrients rnd now grid nutrients tick k :
  allCellsOf cellOK grid →
  allCellsOf cellOK (FlowResult.grid (runNutrients rnd now grid nutrients tick k).1).
Proof.
  intros Hg. unfold runNutrients.
  assert (Hmoved : allCellsOf cellOK
    (foldl (moveNutrient rnd (gridRows grid) (gridCols grid)) (grid, [], ∅, k) nutrients).1.1.1).
  { apply (foldl_invariant (fun st : FlowState => allCellsOf cellOK st.1.1.1)); [|done].
    intros st n _ Hst. by apply gridOK_moveNutrient. }
  destruct (Z.rem tick PRODUCE_EVERY =? 0).
  - assert (Hprod : allCellsOf cellOK
      (foldl (produceAt rnd now tick (gridRows grid) (gridCols grid))
         (foldl (moveNutrient rnd (gridRows grid) (gridCols grid)) (grid, [], ∅, k) nutrients)
         (allCells (gridRows grid) (gridCols grid))).1.1.1).
    { apply (foldl_invariant (fun st : FlowState => allCellsOf cellOK st.1.1.1)); [|done].
      intros st p _ Hst. by rewrite produceAt_grid. }
    by destruct (foldl (produceAt _ _ _ _ _) _ _) as [[[? ?] ?] ?].
  - by destruct (foldl (moveNutrient _ _ _) _ _) as [[[? ?] ?] ?].
Qed.

Lemma gridOK_placeDot tm r c prev :
  allCellsOf cellOK prev → allCellsOf cellOK (placeDot tm r c prev).
Proof.
  intros Hg. unfold placeDot. destruct (bool_decide _); [done|].
  apply allCellsOf_setCell; [done|]. by apply cellOK_fresh.
Qed.

Lemma gridOK_handleDrop e selectedTeam r c prev :
  allCellsOf cellOK prev → allCellsOf cellOK (handleDrop e selectedTeam r c prev).
Proof.
  intros Hg. unfold handleDrop. destruct (dropProducer e); [|by apply gridOK_placeDot].
  destruct (bool_decide _); [done|].
  apply allCellsOf_setCell; [done|]. by apply cellOK_fresh.
Qed.

Lemma reachable_gridOK sim : reachable sim → allCellsOf cellOK (Sim.grid sim).
Proof.
  induction 1 as [|rnd k sim _ IH|rnd k sim _ IH|rnd now k sim _ IH|tm r c sim _ IH
                  |e sel r c sim _ IH|sim _ _]; simpl.
  - apply gridOK_createEmptyGrid.
  - unfold tickInterval, stepGrid.
    pose proof (gridOK_stepTrace rnd (Sim.grid sim) k IH) as Hstep.
    by destruct (stepTrace rnd (Sim.grid sim) k) as [trace k'].
  - unfold stepOnce, stepGrid.
    pose proof (gridOK_stepTrace rnd (Sim.grid sim) k IH) as Hstep.
    by destruct (stepTrace rnd (Sim.grid sim) k) as [trace k'].
  - unfold nutrientInterval.
    pose proof (gridOK_runNutrients rnd now (Sim.grid sim) (Sim.nutrients sim)
                  (Sim.nutrientTick sim) k IH) as Hflow.
    by destruct (runNutrients _ _ _ _ _ _) as [res k'].
  - by apply gridOK_placeDot.
  - by apply gridOK_handleDrop.
  - apply gridOK_createEmptyGrid.
Qed.

(** C9: the cell-state invariants hold in every reachable grid, that is,
    they are preserved by step (interval tick and "Step once"), flow,
    seeding and reset: every empty cell has no team, every block cell has
    a team, and every cell's health (absent read as 0) is in [0,3]. *)
Theorem C9_invariants_preserved (sim : Sim.t) :
  reachable sim →
  allCellsOf cellInvariant (Sim.grid sim)
  ∧ ∀ r c,
      (state (getCell (Sim.grid sim) r c) = empty → team (getCell (Sim.grid sim) r c) = None)
      ∧ (state (getCell (Sim.grid sim) r c) = block →
         is_Some (team (getCell (Sim.grid sim) r c)))
      ∧ 0 <= healthOr0 (getCell (Sim.grid sim) r c) <= 3.
Proof.
  intros Hreach. pose proof (reachable_gridOK sim Hreach) as Hok.
  assert (Hweaken : ∀ x, cellOK x → cellInvariant x).
  { intros x (He & Ht & Hh). split; [done|]. split; [|done]. intros Hb. apply Ht. tauto. }
  split.
  - unfold allCellsOf in *. eapply Forall_impl; [exact Hok|].
    intros row Hrow. eapply Forall_impl; [exact Hrow|]. exact Hweaken.
  - intros r c. exact (Hweaken _ (gridOK_get _ r c Hok)).
Qed.

Lemma C9_invariants_preserved_witness :
  reachable (tickInterval drawsB seededSim 0).1
  ∧ allCellsOf cellInvariant (Sim.grid (tickInterval drawsB seededSim 0).1).
Proof.
  assert (Hreach : reachable (tickInterval drawsB seededSim 0).1).
  { apply reach_tick. apply (reach_place blue 5 5 resetGrid). apply reach_init. }
  split; [exact Hreach|].
  exact (proj1 (C9_invariants_preserved _ Hreach)).
Defined.

(** ** Bomb lifecycle *)

Lemma applyBombState_other s grid next work r c :
  (r, c) ∉ work → getCell (applyBombState s grid next work) r c = getCell next r c.
Proof.
  unfold applyBombState. revert next. induction work as [|a work IH]; intros next Hnot; [done|].
  simpl. rewrite IH by (intros ?; apply Hnot; by apply list_elem_of_further).
  apply getCell_setCell_other. intros Heq. apply Hnot. rewrite Heq. destruct a. apply list_elem_of_here.
Qed.

Lemma applyBombState_hit s grid next work r c :
  s ≠ empty → (r, c) ∈ work → getCell next r c ≠ emptyCell →
  getCell (applyBombState s grid next work) r c = mkCell s (team (getCell grid r c)) None.
Proof.
  intros Hs. unfold applyBombState. revert next.
  induction work as [|a work IH]; intros next Hin Hcell; [by apply elem_of_nil in Hin|].
  simpl. destruct (decide ((r, c) ∈ work)) as [Hw|Hw].
  - apply IH; [done|].
    destruct (getCell_setCell_cases next a.1 a.2
                (mkCell s (team (getCell grid a.1 a.2)) None) r c) as [[-> _]| ->]; [|done].
    intros [= Heq]. done.
  - apply elem_of_cons in Hin as [Heq|Hin]; [|done]. subst a. cbn [fst snd].
    fold (applyBombState s grid
            (setCell next r c (mkCell s (team (getCell grid r c)) None)) work).
    rewrite applyBombState_other by done. by apply getCell_setCell_same.
Qed.

Lemma elem_of_toHot grid rows cols r c :
  (r, c) ∈ toHot grid rows cols
  ↔ state (getCell grid r c) = bomb_armed ∧ inBounds r c rows cols = true.
Proof. unfold toHot. by rewrite list_elem_of_filter, elem_of_allCells. Qed.

Lemma elem_of_toExplode grid rows cols r c :
  (r, c) ∈ toExplode grid rows cols
  ↔ state (getCell grid r c) = bomb_hot ∧ inBounds r c rows cols = true.
Proof. unfold toExplode. by rewrite list_elem_of_filter, elem_of_allCells. Qed.

Lemma elem_of_toArm grid rows cols r c :
  (r, c) ∈ toArm grid rows cols → isDotLike (getCell grid r c) = true.
Proof. unfold toArm. rewrite list_elem_of_filter. simpl. tauto. Qed.

Lemma collectAll_mem rnd rows cols bombs k r c :
  (r, c) ∈ bombs → inBounds r c rows cols = true → (r, c) ∈ (collectAll rnd rows cols bombs k).1.
Proof.
  revert k. induction bombs as [|[br bc] bombs IH]; intros k Hin Hb;
    [by apply elem_of_nil in Hin|].
  cbn [collectAll]. unfold collectBlastCells.
  destruct (spillLoop rnd rows cols (spill br bc) k) as [xs k1].
  specialize (IH k1). destruct (collectAll rnd rows cols bombs k1) as [more k2]. simpl in *.
  apply elem_of_cons in Hin as [[= <- <-]|Hin].
  - apply elem_of_app. left. apply elem_of_app. left. apply blastCore_spec.
    split; [done|]. unfold chebyshev. simpl. lia.
  - apply elem_of_app. right. by apply IH.
Qed.

Lemma blastOne_cases (rnd : nat → Q) (rows cols : Z) (st : Grid * nat) (q : Z * Z) :
  (blastOne rnd rows cols st q).1 = st.1
  ∨ (blastOne rnd rows cols st q).1 = setCell st.1 q.1 q.2 emptyCell.
Proof.
  destruct st as [next k]. unfold blastOne. destruct (inBounds _ _ _ _); [|by left].
  destruct (isBomb _); [by right|]. destruct (Qltb _ _); [by left|by right].
Qed.

Lemma blastOne_keeps (rnd : nat → Q) (rows cols : Z) (st : Grid * nat) (q : Z * Z) r c :
  bombOrEmpty (getCell st.1 r c) → bombOrEmpty (getCell (blastOne rnd rows cols st q).1 r c).
Proof.
  intros Hb. destruct (blastOne_cases rnd rows cols st q) as [->| ->]; [done|].
  apply (setCell_keeps (fun s => s = bomb_armed ∨ s = bomb_hot ∨ s = empty) _ _ _ _ (r, c));
    [done|]. intros _. right. by right.
Qed.

Lemma blastOne_empty (rnd : nat → Q) (rows cols : Z) (st : Grid * nat) (q : Z * Z) r c :
  state (getCell st.1 r c) = empty → state (getCell (blastOne rnd rows cols st q).1 r c) = empty.
Proof.
  intros Hb. destruct (blastOne_cases rnd rows cols st q) as [->| ->]; [done|].
  by apply (setCell_keeps (fun s => s = empty) _ _ _ _ (r, c)).
Qed.

Lemma blastOne_hits (rnd : nat → Q) (rows cols : Z) (st : Grid * nat) r c :
  inBounds r c rows cols = true → bombOrEmpty (getCell st.1 r c) →
  state (getCell (blastOne rnd rows cols st (r, c)).1 r c) = empty.
Proof.
  intros Hin Hb. destruct st as [next k]. unfold blastOne. simpl in *. rewrite Hin.
  destruct (isBomb (getCell next r c)) eqn:Hbomb.
  - simpl. rewrite getCell_setCell_same; [done|]. intros Heq. by rewrite Heq in Hbomb.
  - assert (He : state (getCell next r c) = empty).
    { unfold isBomb in Hbomb. apply orb_false_iff in Hbomb as [H1 H2].
      apply bool_decide_eq_false in H1, H2. destruct Hb as [?|[?|?]]; done. }
    destruct (Qltb _ _); simpl; [done|].
    by apply (setCell_keeps (fun s => s = empty) _ _ _ _ (r, c)).
Qed.

Lemma blastAll_empty (rnd : nat → Q) (rows cols : Z) cells (st : Grid * nat) r c :
  state (getCell st.1 r c) = empty →
  state (getCell (foldl (blastOne rnd rows cols) st cells).1 r c) = empty.
Proof.
  intros He. apply (foldl_invariant (fun s : Grid * nat => state (getCell s.1 r c) = empty));
    [|done]. intros s q _ Hs. by apply blastOne_empty.
Qed.

Lemma blastAll_hits (rnd : nat → Q) (rows cols : Z) cells (st : Grid * nat) r c :
  (r, c) ∈ cells → inBounds r c rows cols = true → bombOrEmpty (getCell st.1 r c) →
  state (getCell (foldl (blastOne rnd rows cols) st cells).1 r c) = empty.
Proof.
  revert st. induction cells as [|q cells IH]; intros st Hin Hb Hcell;
    [by apply elem_of_nil in Hin|].
  simpl. apply elem_of_cons in Hin as [<-|Hin].
  - apply blastAll_empty. by apply blastOne_hits.
  - apply IH; [done|done|]. by apply blastOne_keeps.
Qed.

Lemma blastAll_other (rnd : nat → Q) (rows cols : Z) cells (st : Grid * nat) r c :
  (r, c) ∉ cells → getCell (foldl (blastOne rnd rows cols) st cells).1 r c = getCell st.1 r c.
Proof.
  revert st. induction cells as [|q cells IH]; intros st Hnot; [done|].
  simpl. rewrite IH by (intros ?; apply Hnot; by apply list_elem_of_further).
  destruct (blastOne_cases rnd rows cols st q) as [->| ->]; [done|].
  apply getCell_setCell_other. intros Heq. apply Hnot. rewrite Heq. destruct q.
  apply list_elem_of_here.
Qed.

Lemma explode_spec (rnd : nat → Q) (rows cols : Z) (next : Grid) bombs (k : nat) r c :
  let res := explode rnd rows cols next bombs k in
  ((r, c) ∈ bombs → inBounds r c rows cols = true → (r, c) ∈ res.1.2)
  ∧ ((r, c) ∈ res.1.2 → inBounds r c rows cols = true → bombOrEmpty (getCell next r c) →
     state (getCell res.1.1 r c) = empty)
  ∧ ((r, c) ∉ res.1.2 → getCell res.1.1 r c = getCell next r c).
Proof.
  unfold explode. destruct bombs as [|b bombs].
  { simpl. split; [intros H; by apply elem_of_nil in H|]. split; [|done].
    intros H; by apply elem_of_nil in H. }
  pose proof (collectAll_mem rnd rows cols (b :: bombs) k r c) as Hmem.
  destruct (collectAll rnd rows cols (b :: bombs) k) as [cells k1].
  pose proof (blastAll_hits rnd rows cols cells (next, k1) r c) as Hhit.
  pose proof (blastAll_other rnd rows cols cells (next, k1) r c) as Hother.
  destruct (foldl (blastOne rnd rows cols) (next, k1) cells) as [next' k2]. simpl in *.
  split; [done|]. split; done.
Qed.

Lemma resolveIntent_other (st : Grid * gmap (Z * Z) AnimInfo) (it : Intent.t) r c :
  (r, c) ≠ (Intent.r it, Intent.c it) →
  getCell (resolveIntent st it).1 r c = getCell st.1 r c.
Proof.
  destruct st as [next anims]. intros Hne. unfold resolveIntent.
  destruct (bool_decide _); [by apply getCell_setCell_other|].
  destruct (bool_decide _); [|done].
  destruct (0 <? _); by apply getCell_setCell_other.
Qed.

Lemma resolveIntents_other (st : Grid * gmap (Z * Z) AnimInfo) (order : list Intent.t) r c :
  Forall (fun it => (r, c) ≠ (Intent.r it, Intent.c it)) order →
  getCell (foldl resolveIntent st order).1 r c = getCell st.1 r c.
Proof.
  revert st. induction order as [|it order IH]; intros st Hall; [done|].
  apply Forall_cons in Hall as [Hit Hall]. simpl. rewrite IH by done.
  by apply resolveIntent_other.
Qed.

(** An intent of the scan targets a cell that is empty or a dot/producer
    in the grid the scan read. *)
Lemma scanJustified_target grid rows cols it :
  scanJustified grid rows cols it →
  state (getCell grid (Intent.r it) (Intent.c it)) = empty
  ∨ isDotLike (getCell grid (Intent.r it) (Intent.c it)) = true.
Proof.
  intros (r & c & d & _ & _ & _ & _ & _ & [[Heq He]|[[Heq (_ & _ & He)]|[Heq (Hd & _)]]]);
    injection Heq as -> ->; tauto.
Qed.

Lemma isBomb_not_target grid rows cols it r c :
  isBomb (getCell grid r c) = true → scanJustified grid rows cols it →
  (r, c) ≠ (Intent.r it, Intent.c it).
Proof.
  intros Hbomb Hit [= -> ->]. unfold isBomb, isDotLike in *.
  destruct (scanJustified_target _ _ _ _ Hit) as [He|Hd]; clear Hit.
  - rewrite He in Hbomb. compute in Hbomb. congruence.
  - apply orb_true_iff in Hbomb as [Hb|Hb]; apply orb_true_iff in Hd as [Hd|Hd];
      apply bool_decide_eq_true in Hb, Hd; congruence.
Qed.

(** The line-of-five phase writes [dot] only over an empty cell, [empty]
    only over a dot, and otherwise [block] over a non-empty cell.  So a
    set [S] of states that holds [block] once it holds a non-empty state,
    and holds [dot] exactly when it holds [empty], is never left. *)
Section PressureKeeps.
Variable S : CellState → Prop.
Hypothesis S_block : ∀ s, S s → s ≠ empty → S block.
Hypothesis S_dot : S empty → S dot.
Hypothesis S_empty : S dot → S empty.
Variable p : Z * Z.

Lemma burstCorner_keeps (rows cols r c : Z) (tm : option Team)
  (st : Grid * gmap (Z * Z) AnimInfo) (d : Z * Z) :
  S (state (getCell st.1 p.1 p.2)) →
  S (state (getCell (burstCorner rows cols r c tm st d).1 p.1 p.2)).
Proof using S_block S_dot.
  destruct st as [next anims]. cbn [fst]. intros Hp. unfold burstCorner.
  destruct (negb _); [done|].
  case_bool_decide as He; cbn [fst].
  - apply setCell_keeps; [done|]. intros <-. cbn [state fst snd] in *. rewrite He in Hp.
    by apply S_dot.
  - assert (Hblock : (r + d.1, c + d.2) = p → S block).
    { intros <-. cbn [fst snd] in Hp. by eapply S_block. }
    destruct (bool_decide _); cbn [fst]; by apply setCell_keeps.
Qed.

Lemma resolveCenter_keeps (rnd : nat → Q) (rows cols : Z)
  (st : Grid * gmap (Z * Z) AnimInfo * nat) (key : Z * Z) :
  S (state (getCell st.1.1 p.1 p.2)) →
  S (state (getCell (resolveCenter rnd rows cols st key).1.1 p.1 p.2)).
Proof using S_block S_dot S_empty.
  destruct st as [[next anims] k]. cbn [fst]. intros Hp. unfold resolveCenter.
  case_bool_decide as Hdot; [|done]. cbn [negb].
  assert (Hcentre : (key.1, key.2) = p → S empty).
  { intros <-. cbn [fst snd] in Hp. rewrite Hdot in Hp. by apply S_empty. }
  destruct (0 <? length _)%nat.
  - pose proof (shuffled_Permutation rnd (openNeighbors next rows cols key.1 key.2) k)
      as Hperm.
    destruct (shuffled rnd _ k) as [order k1]. cbn [fst] in Hperm.
    destruct order as [|[nr nc] rest]; [done|]. cbn [fst].
    assert (Hopen : (nr, nc) ∈ openNeighbors next rows cols key.1 key.2).
    { rewrite <- Hperm. apply list_elem_of_here. }
    apply openNeighbors_spec in Hopen as (_ & _ & He). cbn [fst snd] in He.
    apply setCell_keeps; [|done].
    apply setCell_keeps; [done|]. intros <-. cbn [state fst snd] in *. rewrite He in Hp.
    by apply S_dot.
  - assert (Hres : S (state (getCell
      (burst rows cols key.1 key.2 (team (getCell next key.1 key.2)) next anims).1
      p.1 p.2))).
    { unfold burst.
      apply (foldl_invariant
               (fun s : Grid * gmap (Z * Z) AnimInfo => S (state (getCell s.1 p.1 p.2)))).
      - intros s d _ Hs. by apply burstCorner_keeps.
      - cbn [fst]. by apply setCell_keeps. }
    by destruct (burst _ _ _ _ _ _ _) as [next' anims'].
Qed.

Lemma resolveCenters_keeps (rnd : nat → Q) (rows cols : Z)
  (st : Grid * gmap (Z * Z) AnimInfo * nat) (corder : list (Z * Z)) :
  S (state (getCell st.1.1 p.1 p.2)) →
  S (state (getCell (foldl (resolveCenter rnd rows cols) st corder).1.1 p.1 p.2)).
Proof using S_block S_dot S_empty.
  intros Hp.
  apply (foldl_invariant
           (fun s : Grid * gmap (Z * Z) AnimInfo * nat => S (state (getCell s.1.1 p.1 p.2))));
    [|done].
  intros s key _ Hs. by apply resolveCenter_keeps.
Qed.
End PressureKeeps.

(** The phases of [stepTrace], one after the other. *)
Lemma stepTrace_phases rnd grid k :
  let rows := gridRows grid in
  let cols := gridCols grid in
  let next1 := applyBombState bomb_armed grid grid (toArm grid rows cols) in
  let next2 := applyBombState bomb_hot grid next1 (toHot grid rows cols) in
  let boom := explode rnd rows cols next2 (toExplode grid rows cols) k in
  let t := (stepTrace rnd grid k).1 in
  Trace.armed t = next1
  ∧ Trace.advanced t = next2
  ∧ Trace.exploded t = boom.1.1
  ∧ StepResult.blasts (Trace.final t) = boom.1.2
  ∧ ∃ order anims corder k4,
      order ≡ₚ Trace.intents t
      ∧ Trace.resolved t = (foldl resolveIntent (Trace.exploded t, ∅) order).1
      ∧ StepResult.grid (Trace.final t)
        = (foldl (resolveCenter rnd rows cols) (Trace.resolved t, anims, k4) corder).1.1.
Proof.
  intros rows cols next1 next2 boom. unfold stepTrace. fold rows cols next1 next2 boom.
  destruct boom as [[next3 blasts] k1].
  destruct (spawnIntents _ _ _ _ _) as [intents k2].
  pose proof (shuffled_Permutation rnd intents k2) as Hperm.
  destruct (shuffled rnd intents k2) as [order k3]. cbn [fst] in Hperm.
  destruct (foldl resolveIntent (next3, ∅) order) as [next4 anims] eqn:Hres.
  destruct (shuffled rnd (findCenters _ _ _) k3) as [corder k4].
  destruct (foldl (resolveCenter _ _ _) _ _) as [[next5 anims'] k5] eqn:Hcen.
  cbn. split; [done|]. split; [done|]. split; [done|]. split; [done|].
  exists order, anims, corder, k4. rewrite Hres, Hcen. done.
Qed.

(** C2, as stated, fails: on [bombRow] (every draw 1/2: no spill, no
    survival) the explosion empties the dot at (0,1) in the working grid,
    yet the scan still emits that dot's spawn intent at (0,2), read from
    the pre-tick grid, and the step ends with a new dot at (0,2).  A scan
    of the working grid would find no dot and leave the row empty. *)
Lemma C2_counterexample :
  getCell (Trace.exploded (stepTrace (fun _ => 1 # 2)%Q bombRow 0).1) 0 1 = emptyCell
  ∧ Trace.intents (stepTrace (fun _ => 1 # 2)%Q bombRow 0).1 = [Intent.mk 0 2 (Some blue)]
  ∧ StepResult.grid (stepGrid (fun _ => 1 # 2)%Q bombRow 0).1
    = [[emptyCell; emptyCell; mkCell dot (Some blue) (Some 0)]]
  ∧ StepResult.grid (stepGridPhasewise (fun _ => 1 # 2)%Q bombRow 0).1
    = [[emptyCell; emptyCell; emptyCell]]
  ∧ stepGrid (fun _ => 1 # 2)%Q bombRow 0 ≠ stepGridPhasewise (fun _ => 1 # 2)%Q bombRow 0.
Proof.
  split; [by vm_compute|]. split; [by vm_compute|].
  split; [by vm_compute|]. split; [by vm_compute|].
  intros Heq. apply (f_equal (fun x => StepResult.grid x.1)) in Heq.
  vm_compute in Heq. congruence.
Qed.

(** C4 (as the code has it): within one step, a cell that is bomb-armed in
    the input grid is bomb-hot once the advance phase has run, and a cell
    that is bomb-hot in the input grid explodes: it is listed in the
    blasts and empty once the explosion phase has run.  A blast of the same
    step also empties an armed cell it reaches (bombs never survive); an
    armed cell that no blast reaches is still bomb-hot after the intents
    are resolved and is bomb-hot in the output, unless a burst overwrote it
    with a block.  No intent targets a cell that is armed or hot in the
    input, so such a cell is bomb-hot or empty after the replication
    phase; in the output it is never a producer, and it is a dot only when
    a blast emptied it and the line-of-five phase then moved or plopped a
    dot into it. *)
Theorem C4_bomb_lifecycle (rnd : nat → Q) (grid : Grid) (k : nat) (r c : Z) :
  wfGrid grid →
  let t := (stepTrace rnd grid k).1 in
  let out := StepResult.grid (stepGrid rnd grid k).1 in
  let blasts := StepResult.blasts (stepGrid rnd grid k).1 in
  (state (getCell grid r c) = bomb_armed →
     state (getCell (Trace.advanced t) r c) = bomb_hot
     ∧ ((r, c) ∈ blasts → state (getCell (Trace.exploded t) r c) = empty)
     ∧ ((r, c) ∉ blasts →
        state (getCell (Trace.resolved t) r c) = bomb_hot
        ∧ (state (getCell out r c) = bomb_hot ∨ state (getCell out r c) = block)))
  ∧ (state (getCell grid r c) = bomb_hot →
     (r, c) ∈ blasts ∧ state (getCell (Trace.exploded t) r c) = empty)
  ∧ (isBomb (getCell grid r c) = true →
     getCell (Trace.resolved t) r c = getCell (Trace.exploded t) r c
     ∧ (state (getCell (Trace.resolved t) r c) = bomb_hot
        ∨ state (getCell (Trace.resolved t) r c) = empty)
     ∧ state (getCell out r c) ≠ producer
     ∧ (state (getCell out r c) = dot → state (getCell (Trace.resolved t) r c) = empty)).
Proof.
  intros Hwf t out blasts.
  assert (Hout : out = StepResult.grid (Trace.final t)).
  { subst out t. unfold stepGrid. by destruct (stepTrace rnd grid k). }
  assert (Hblasts : blasts = StepResult.blasts (Trace.final t)).
  { subst blasts t. unfold stepGrid. by destruct (stepTrace rnd grid k). }
  clearbody out blasts. subst out blasts.
  destruct (stepTrace_phases rnd grid k)
    as (Harm & Hadv & Hexp & Hbl & order & anims & corder & k4 & Hperm & Hres & Hfin).
  pose proof (stepTrace_intents rnd grid k) as Hint.
  fold t in Harm, Hadv, Hexp, Hbl, Hperm, Hres, Hfin, Hint.
  set (rows := gridRows grid) in *. set (cols := gridCols grid) in *.
  set (next1 := applyBombState bomb_armed grid grid (toArm grid rows cols)) in *.
  set (next2 := applyBombState bomb_hot grid next1 (toHot grid rows cols)) in *.
  destruct (explode_spec rnd rows cols next2 (toExplode grid rows cols) k r c)
    as (Hboom1 & Hboom2 & Hboom3).
  rewrite <- Hbl in Hboom1. rewrite <- Hexp, <- Hbl in Hboom2, Hboom3.
  (* what holds of any cell that is a bomb in the input *)
  assert (Hbomb : isBomb (getCell grid r c) = true →
    inBounds r c rows cols = true
    ∧ getCell next1 r c = getCell grid r c
    ∧ state (getCell next2 r c) = bomb_hot
    ∧ getCell (Trace.resolved t) r c = getCell (Trace.exploded t) r c).
  { intros Hb.
    assert (Hcell : getCell grid r c ≠ emptyCell) by (intros Heq; by rewrite Heq in Hb).
    assert (Hin : inBounds r c rows cols = true) by (by apply getCell_inBounds).
    assert (H1 : getCell next1 r c = getCell grid r c).
    { apply applyBombState_other. intros Harmed%elem_of_toArm.
      unfold isBomb, isDotLike in *. destruct (state (getCell grid r c)); done. }
    split; [done|]. split; [done|]. split.
    - destruct (decide (state (getCell grid r c) = bomb_armed)) as [Ha|Ha].
      + subst next2. rewrite applyBombState_hit; [done|done| |by rewrite H1].
        by apply elem_of_toHot.
      + subst next2. rewrite applyBombState_other, H1.
        * unfold isBomb in Hb. apply orb_true_iff in Hb as [Hb|Hb];
            apply bool_decide_eq_true in Hb; done.
        * intros [Hh _]%elem_of_toHot. done.
    - rewrite Hres. apply resolveIntents_other. rewrite Hperm.
      eapply Forall_impl; [exact Hint|]. intros it Hit. by eapply isBomb_not_target. }
  assert (Hsolid : state (getCell (Trace.resolved t) r c) = bomb_hot →
    state (getCell (StepResult.grid (Trace.final t)) r c) = bomb_hot
    ∨ state (getCell (StepResult.grid (Trace.final t)) r c) = block).
  { intros Hh. rewrite Hfin.
    apply (resolveCenters_keeps (fun s => s = bomb_hot ∨ s = block)) with (p := (r, c)).
    - intros s _ _. by right.
    - intros [?|?]; done.
    - intros [?|?]; done.
    - by left. }
  split; [|split].
  - intros Ha.
    destruct Hbomb as (Hin & H1 & H2 & H4); [unfold isBomb; by rewrite Ha|].
    split; [by rewrite Hadv|]. split.
    + intros Hmem. apply Hboom2; [done..|]. right. by left.
    + intros Hnot. assert (Hr : state (getCell (Trace.resolved t) r c) = bomb_hot).
      { by rewrite H4, Hboom3. }
      split; [done|by apply Hsolid].
  - intros Hh.
    destruct Hbomb as (Hin & H1 & H2 & H4).
    { unfold isBomb. rewrite Hh. by rewrite orb_true_r. }
    assert (Hmem : (r, c) ∈ StepResult.blasts (Trace.final t)).
    { apply Hboom1; [|done]. by apply elem_of_toExplode. }
    split; [done|]. apply Hboom2; [done..|]. right. by left.
  - intros Hb. destruct (Hbomb Hb) as (Hin & H1 & H2 & H4).
    assert (Hstate : state (getCell (Trace.resolved t) r c) = bomb_hot
                     ∨ state (getCell (Trace.resolved t) r c) = empty).
    { rewrite H4. destruct (decide ((r, c) ∈ StepResult.blasts (Trace.final t))) as [Hm|Hm].
      - right. apply Hboom2; [done..|]. right. by left.
      - left. by rewrite Hboom3. }
    split; [done|]. split; [done|]. split.
    + rewrite Hfin.
      apply (resolveCenters_keeps (fun s => s ≠ producer)) with (p := (r, c)); try done.
      cbn [fst snd]. destruct Hstate as [-> | ->]; done.
    + intros Hdot. destruct Hstate as [Hh|He]; [|done].
      destruct (Hsolid Hh) as [Hf|Hf]; rewrite Hdot in Hf; done.
Qed.

Lemma C4_bomb_lifecycle_witness :
  wfGrid armedByHot
  ∧ state (getCell armedByHot 0 1) = bomb_armed
  ∧ state (getCell (Trace.advanced (stepTrace drawsB armedByHot 0).1) 0 1) = bomb_hot.
Proof.
  assert (Hwf : wfGrid armedByHot) by (repeat constructor).
  split; [exact Hwf|]. split; [reflexivity|].
  exact (proj1 (proj1 (C4_bomb_lifecycle drawsB armedByHot 0%nat 0 1 Hwf) eq_refl)).
Defined.

(** C4, as stated, fails on the code in three ways.  An armed bomb next to
    an exploding one is emptied, not hot, after the step ([armedByHot],
    every draw 1/2).  The cell of a hot bomb holds a dot after the step
    when the centre of a row of five above it moves into the emptied cell
    ([fiveOverHot], every draw 0).  And a dot armed in this very step is
    captured by the attack its green neighbour had declared on the
    pre-tick grid, and ends the step as a green dot ([walledDot]). *)
Lemma C4_counterexample :
  (state (getCell armedByHot 0 1) = bomb_armed
   ∧ state (getCell (StepResult.grid (stepGrid (fun _ => 1 # 2)%Q armedByHot 0).1) 0 1) = empty)
  ∧ (state (getCell fiveOverHot 1 2) = bomb_hot
     ∧ state (getCell (StepResult.grid (stepGrid (fun _ => 0%Q) fiveOverHot 0).1) 1 2) = dot)
  ∧ (state (getCell (Trace.armed (stepTrace (fun _ => 0%Q) walledDot 0).1) 1 1) = bomb_armed
     ∧ getCell (StepResult.grid (stepGrid (fun _ => 0%Q) walledDot 0).1) 1 1
       = mkCell dot (Some green) (Some 0)).
Proof. repeat split; by vm_compute. Qed.

(** * Further properties of the code *)

(** ** Shuffling *)

(** X1: [shuffled] returns a permutation of its argument, of the same
    length, and makes exactly [length - 1] draws (none for an empty or a
    one-element array). *)
Theorem X1_shuffled_permutes {T} (rnd : nat → Q) (items : list T) (k : nat) :
  (shuffled rnd items k).1 ≡ₚ items
  ∧ length (shuffled rnd items k).1 = length items
  ∧ (shuffled rnd items k).2 = (k + (length items - 1))%nat.
Proof.
  pose proof (shuffled_Permutation rnd items k) as Hperm.
  split; [done|]. split; [by rewrite Hperm|].
  unfold shuffled. apply shuffleLoop_cursor.
Qed.

(** ** The shape of the grid *)

Lemma sameShape_refl g : sameShape g g.
Proof. by repeat split. Qed.

Lemma sameShape_trans g1 g2 g3 : sameShape g1 g2 → sameShape g2 g3 → sameShape g1 g3.
Proof.
  intros (Hr & Hc & Hw) (Hr' & Hc' & Hw'). repeat split; [congruence..|tauto].
Qed.

Lemma sameShape_setCell g r c x : sameShape g (setCell g r c x).
Proof.
  split; [apply gridRows_setCell|]. split; [apply gridCols_setCell|apply wfGrid_setCell].
Qed.

Lemma sameShape_set g g' r c x : sameShape g g' → sameShape g (setCell g' r c x).
Proof. intros H. eapply sameShape_trans; [exact H|apply sameShape_setCell]. Qed.

Lemma sameShape_applyBombState s grid g next work :
  sameShape g next → sameShape g (applyBombState s grid next work).
Proof.
  intros H. unfold applyBombState. apply (foldl_invariant (sameShape g)); [|done].
  intros nx p _ Hnx. by apply sameShape_set.
Qed.

Lemma sameShape_explode rnd rows cols g next bombs k :
  sameShape g next → sameShape g (explode rnd rows cols next bombs k).1.1.
Proof.
  intros H. unfold explode. destruct bombs as [|b bombs]; [done|].
  destruct (collectAll rnd rows cols (b :: bombs) k) as [cells k1].
  assert (Hf : sameShape g (foldl (blastOne rnd rows cols) (next, k1) cells).1).
  { apply (foldl_invariant (fun st : Grid * nat => sameShape g st.1)); [|done].
    intros st q _ Hst. destruct (blastOne_cases rnd rows cols st q) as [-> | ->]; [done|].
    by apply sameShape_set. }
  by destruct (foldl (blastOne rnd rows cols) (next, k1) cells).
Qed.

Lemma sameShape_resolveIntent (g : Grid) (st : Grid * gmap (Z * Z) AnimInfo)
  (it : Intent.t) :
  sameShape g st.1 → sameShape g (resolveIntent st it).1.
Proof.
  destruct st as [next anims]. cbn [fst]. intros H. unfold resolveIntent.
  destruct (bool_decide _); [by apply sameShape_set|].
  destruct (bool_decide _); [|done].
  destruct (0 <? _); by apply sameShape_set.
Qed.

Lemma sameShape_burst (g : Grid) (rows cols r c : Z) (tm : option Team) (next : Grid)
  (anims : gmap (Z * Z) AnimInfo) :
  sameShape g next → sameShape g (burst rows cols r c tm next anims).1.
Proof.
  intros H. unfold burst.
  apply (foldl_invariant (fun s : Grid * gmap (Z * Z) AnimInfo => sameShape g s.1)).
  - intros [nx an] d _ Hs. cbn [fst] in *. unfold burstCorner.
    destruct (negb _); [done|].
    repeat (destruct (bool_decide _)); cbn [fst]; by apply sameShape_set.
  - cbn [fst]. by apply sameShape_set.
Qed.

Lemma sameShape_resolveCenter (g : Grid) (rnd : nat → Q) (rows cols : Z)
  (st : Grid * gmap (Z * Z) AnimInfo * nat) (key : Z * Z) :
  sameShape g st.1.1 → sameShape g (resolveCenter rnd rows cols st key).1.1.
Proof.
  destruct st as [[next anims] k]. cbn [fst]. intros H. unfold resolveCenter.
  destruct (negb _); [done|].
  destruct (0 <? length _)%nat.
  - destruct (shuffled rnd _ k) as [order k1]. destruct order as [|[nr nc] ?]; [done|].
    cbn [fst]. by repeat apply sameShape_set.
  - pose proof (sameShape_burst g rows cols key.1 key.2
                  (team (getCell next key.1 key.2)) next anims H) as Hb.
    by destruct (burst _ _ _ _ _ _ _).
Qed.

Lemma sameShape_stepGrid rnd grid k :
  sameShape grid (StepResult.grid (stepGrid rnd grid k).1).
Proof.
  destruct (stepTrace_phases rnd grid k)
    as (Harm & Hadv & Hexp & _ & order & anims & corder & k4 & _ & Hres & Hfin).
  assert (Hout : StepResult.grid (stepGrid rnd grid k).1
                 = StepResult.grid (Trace.final (stepTrace rnd grid k).1)).
  { unfold stepGrid. by destruct (stepTrace rnd grid k). }
  rewrite Hout, Hfin.
  apply (foldl_invariant
           (fun s : Grid * gmap (Z * Z) AnimInfo * nat => sameShape grid s.1.1)).
  { intros s key _ Hs. by apply sameShape_resolveCenter. }
  cbn [fst]. rewrite Hres.
  apply (foldl_invariant (fun s : Grid * gmap (Z * Z) AnimInfo => sameShape grid s.1)).
  { intros s it _ Hs. by apply sameShape_resolveIntent. }
  cbn [fst]. rewrite Hexp. apply sameShape_explode.
  apply sameShape_applyBombState, sameShape_applyBombState, sameShape_refl.
Qed.

Lemma sameShape_feedDot g next nr nc tm :
  sameShape g next → sameShape g (feedDot next nr nc tm).1.
Proof.
  intros H. unfold feedDot. destruct (_ || _); [done|].
  destruct (negb _); cbn [fst]; unfold setState, bumpHealth; by repeat apply sameShape_set.
Qed.

Lemma sameShape_runNutrients rnd now grid nutrients tick k :
  sameShape grid (FlowResult.grid (runNutrients rnd now grid nutrients tick k).1).
Proof.
  unfold runNutrients.
  assert (Hmoved : sameShape grid
    (foldl (moveNutrient rnd (gridRows grid) (gridCols grid)) (grid, [], ∅, k) nutrients).1.1.1).
  { apply (foldl_invariant (fun st : FlowState => sameShape grid st.1.1.1));
      [|apply sameShape_refl].
    intros [[[next out] occ] k0] n _ Hst. cbn [fst] in *. unfold moveNutrient.
    destruct (_ || _); [done|]. destruct (length _ =? 0)%nat.
    - cbn [fst]. unfold handleDeadEnd.
      destruct (friendlyDots _ _ _ _ _ _) as [|[nr nc] ?]; [done|].
      by apply sameShape_feedDot.
    - destruct (shuffled rnd _ k0) as [order k1]. destruct order as [|[dr dc] ?]; [done|].
      by destruct (MAX_NUTRIENTS_PER_CELL <=? _). }
  destruct (Z.rem tick PRODUCE_EVERY =? 0).
  - assert (Hprod : sameShape grid
      (foldl (produceAt rnd now tick (gridRows grid) (gridCols grid))
         (foldl (moveNutrient rnd (gridRows grid) (gridCols grid)) (grid, [], ∅, k) nutrients)
         (allCells (gridRows grid) (gridCols grid))).1.1.1).
    { apply (foldl_invariant (fun st : FlowState => sameShape grid st.1.1.1)); [|done].
      intros st p _ Hst. by rewrite produceAt_grid. }
    by destruct (foldl (produceAt _ _ _ _ _) _ _) as [[[? ?] ?] ?].
  - by destruct (foldl (moveNutrient _ _ _) _ _) as [[[? ?] ?] ?].
Qed.

(** X3: [createEmptyGrid rows cols] is a rectangular grid of [rows] rows
    and [cols] columns whose every cell is empty, without team or health. *)
Theorem X3_createEmptyGrid (rows cols : Z) :
  0 < rows → 0 <= cols →
  wfGrid (createEmptyGrid rows cols)
  ∧ gridRows (createEmptyGrid rows cols) = rows
  ∧ gridCols (createEmptyGrid rows cols) = cols
  ∧ allCellsOf (fun x => x = emptyCell) (createEmptyGrid rows cols)
  ∧ ∀ r c, getCell (createEmptyGrid rows cols) r c = emptyCell.
Proof.
  intros Hr Hc. unfold createEmptyGrid.
  assert (Hcols : gridCols (replicate (Z.to_nat rows) (replicate (Z.to_nat cols) emptyCell))
                  = cols).
  { destruct (Z.to_nat rows) as [|n] eqn:Hn; [lia|]. simpl. rewrite length_replicate. lia. }
  assert (Hall : allCellsOf (fun x => x = emptyCell)
                   (replicate (Z.to_nat rows) (replicate (Z.to_nat cols) emptyCell))).
  { by apply Forall_replicate, Forall_replicate. }
  split; [|split; [|split; [done|split; [done|]]]].
  - unfold wfGrid. rewrite Hcols. apply Forall_replicate. rewrite length_replicate. lia.
  - unfold gridRows. rewrite length_replicate. lia.
  - intros r c. by apply (allCellsOf_getCell (fun x => x = emptyCell)).
Qed.

Lemma X3_createEmptyGrid_witness :
  0 < ROWS ∧ 0 <= COLS ∧ gridRows (createEmptyGrid ROWS COLS) = 24
  ∧ gridCols (createEmptyGrid ROWS COLS) = 24.
Proof.
  assert (Hr : 0 < ROWS) by (by vm_compute).
  assert (Hc : 0 <= COLS) by (by vm_compute).
  split; [exact Hr|]. split; [exact Hc|].
  destruct (X3_createEmptyGrid ROWS COLS Hr Hc) as (_ & H1 & H2 & _).
  split; [exact H1|exact H2].
Defined.

(** X4: every operation keeps the shape of the board: the grids returned
    by [stepGrid], [runNutrients], [placeDot] and [handleDrop] have the
    row and column counts of their input, and are rectangular when the
    input is. *)
Theorem X4_shape_preserved (rnd : nat → Q) (now : Z * Z → Z) (grid : Grid)
  (nutrients : list Nutrient.t) (tick : Z) (k : nat) (e : DataTransfer)
  (selectedTeam tm : Team) (r c : Z) :
  sameShape grid (StepResult.grid (stepGrid rnd grid k).1)
  ∧ sameShape grid (FlowResult.grid (runNutrients rnd now grid nutrients tick k).1)
  ∧ sameShape grid (placeDot tm r c grid)
  ∧ sameShape grid (handleDrop e selectedTeam r c grid).
Proof.
  assert (Hplace : ∀ t, sameShape grid (placeDot t r c grid)).
  { intros t. unfold placeDot. destruct (bool_decide _);
      [apply sameShape_refl|apply sameShape_setCell]. }
  split; [apply sameShape_stepGrid|]. split; [apply sameShape_runNutrients|].
  split; [apply Hplace|].
  unfold handleDrop. destruct (dropProducer e); [|apply Hplace].
  destruct (bool_decide _); [apply sameShape_refl|apply sameShape_setCell].
Qed.

(** ** Seeding, again *)

(** X5: on a cell of the board, seeding an occupied cell is silently
    ignored ([placeDot] and [handleDrop] return the grid they were given);
    seeding never changes any other cell; and seeding the same cell a
    second time, with whatever team or kind, changes nothing more. *)
Theorem X5_seed_ignored_when_occupied (e e' : DataTransfer) (selectedTeam tm tm' : Team)
  (r c : Z) (prev : Grid) :
  wfGrid prev →
  inBounds r c (gridRows prev) (gridCols prev) = true →
  (state (getCell prev r c) ≠ empty →
     placeDot tm r c prev = prev ∧ handleDrop e selectedTeam r c prev = prev)
  ∧ (∀ r' c', (r', c') ≠ (r, c) →
       getCell (placeDot tm r c prev) r' c' = getCell prev r' c'
       ∧ getCell (handleDrop e selectedTeam r c prev) r' c' = getCell prev r' c')
  ∧ placeDot tm' r c (placeDot tm r c prev) = placeDot tm r c prev
  ∧ handleDrop e' selectedTeam r c (handleDrop e selectedTeam r c prev)
    = handleDrop e selectedTeam r c prev.
Proof.
  intros Hwf Hin.
  assert (Hocc : ∀ g t, state (getCell g r c) ≠ empty → placeDot t r c g = g).
  { intros g t Hne. unfold placeDot. by rewrite bool_decide_eq_true_2. }
  assert (Hocc' : ∀ g d, state (getCell g r c) ≠ empty → handleDrop d selectedTeam r c g = g).
  { intros g d Hne. unfold handleDrop. destruct (dropProducer d); [|by apply Hocc].
    by rewrite bool_decide_eq_true_2. }
  assert (Hframe : ∀ t r' c', (r', c') ≠ (r, c) →
            getCell (placeDot t r c prev) r' c' = getCell prev r' c').
  { intros t r' c' Hne. unfold placeDot. destruct (bool_decide _); [done|].
    by apply getCell_setCell_other. }
  assert (Hfull : ∀ x, state x ≠ empty → state (getCell (setCell prev r c x) r c) ≠ empty).
  { intros x Hx. by rewrite getCell_setCell_eq. }
  split; [|split; [|split]].
  - intros Hne. split; [by apply Hocc|by apply Hocc'].
  - intros r' c' Hne. split; [by apply Hframe|].
    unfold handleDrop. destruct (dropProducer e); [|by apply Hframe].
    destruct (bool_decide _); [done|]. by apply getCell_setCell_other.
  - apply Hocc. unfold placeDot. case_bool_decide as He; [done|]. by apply Hfull.
  - apply Hocc'. unfold handleDrop. destruct (dropProducer e).
    + case_bool_decide as He; [done|]. by apply Hfull.
    + unfold placeDot. case_bool_decide as He; [done|]. by apply Hfull.
Qed.

Lemma X5_seed_ignored_when_occupied_witness :
  wfGrid (createEmptyGrid 2 3)
  ∧ inBounds 1 2 (gridRows (createEmptyGrid 2 3)) (gridCols (createEmptyGrid 2 3)) = true
  ∧ placeDot green 1 2 (placeDot blue 1 2 (createEmptyGrid 2 3))
    = placeDot blue 1 2 (createEmptyGrid 2 3).
Proof.
  assert (Hwf : wfGrid (createEmptyGrid 2 3)) by (repeat constructor).
  assert (Hin : inBounds 1 2 (gridRows (createEmptyGrid 2 3))
                  (gridCols (createEmptyGrid 2 3)) = true) by reflexivity.
  split; [exact Hwf|]. split; [exact Hin|].
  exact (proj1 (proj2 (proj2
    (X5_seed_ignored_when_occupied (mkDrop false None) (mkDrop false None) blue blue green
       1 2 (createEmptyGrid 2 3) Hwf Hin)))).
Defined.


(** ** The nutrient flow, step by step *)

Lemma elem_of_wallNeighborDirs next rows cols r c tm prev d :
  d ∈ wallNeighborDirs next rows cols r c tm prev →
  d ∈ CARDINALS ∧ isWallOf next rows cols tm (r + d.1, c + d.2).
Proof.
  unfold wallNeighborDirs, isWallOf. intros H.
  assert (Hd : d ∈ filter (fun d : Z * Z =>
              inBounds (r + d.1) (c + d.2) rows cols = true
              ∧ state (getCell next (r + d.1) (c + d.2)) = block
              ∧ team (getCell next (r + d.1) (c + d.2)) = Some tm) CARDINALS).
  { destruct prev as [p|]; [|done]. destruct (1 <? _)%nat; [|done].
    by apply list_elem_of_filter in H as [_ H]. }
  apply list_elem_of_filter in Hd as [HP Hc]. done.
Qed.

(** The four things the body of the move loop does with a token: drop it
    (it is not on a wall of its team), feed at a dead end, keep it where it
    is (the chosen neighbour is full), or move it one step. *)
Lemma moveNutrient_cases (rnd : nat → Q) (rows cols : Z) (next : Grid)
  (out : list Nutrient.t) (occ : gmap (Z * Z) Z) (k : nat) (n : Nutrient.t) :
  moveNutrient rnd rows cols (next, out, occ, k) n = (next, out, occ, k)
  ∨ (isWallOf next rows cols (Nutrient.team n) (Nutrient.r n, Nutrient.c n)
     ∧ moveNutrient rnd rows cols (next, out, occ, k) n
       = (handleDeadEnd next rows cols n, out, occ, k))
  ∨ (isWallOf next rows cols (Nutrient.team n) (Nutrient.r n, Nutrient.c n)
     ∧ ∃ (d : Z * Z) (k1 : nat),
         d ∈ wallNeighborDirs next rows cols (Nutrient.r n) (Nutrient.c n)
               (Nutrient.team n) (Some (Nutrient.dir n))
         ∧ ((MAX_NUTRIENTS_PER_CELL <= occupancy occ (Nutrient.r n + d.1, Nutrient.c n + d.2)
             ∧ moveNutrient rnd rows cols (next, out, occ, k) n
               = (next, out ++ [n],
                  <[(Nutrient.r n, Nutrient.c n)
                    := occupancy occ (Nutrient.r n, Nutrient.c n) + 1]> occ, k1))
            ∨ (occupancy occ (Nutrient.r n + d.1, Nutrient.c n + d.2) < MAX_NUTRIENTS_PER_CELL
               ∧ moveNutrient rnd rows cols (next, out, occ, k) n
                 = (next,
                    out ++ [Nutrient.mk (Nutrient.id n) (Nutrient.r n + d.1)
                              (Nutrient.c n + d.2) (Nutrient.team n) d
                              (Some (Nutrient.dir n))],
                    <[(Nutrient.r n + d.1, Nutrient.c n + d.2)
                      := occupancy occ (Nutrient.r n + d.1, Nutrient.c n + d.2) + 1]> occ,
                    k1)))).
Proof.
  unfold moveNutrient.
  destruct (negb _ || _ || _) eqn:Hguard; [by left|]. right.
  apply orb_false_iff in Hguard as [Hg Ht]. apply orb_false_iff in Hg as [Hin Hs].
  apply negb_false_iff in Hin. apply bool_decide_eq_false in Hs, Ht.
  assert (Hwall : isWallOf next rows cols (Nutrient.team n) (Nutrient.r n, Nutrient.c n)).
  { split; [done|]. cbn [fst snd]. split.
    - by destruct (decide (state (getCell next (Nutrient.r n) (Nutrient.c n)) = block)).
    - by destruct (decide (team (getCell next (Nutrient.r n) (Nutrient.c n))
                           = Some (Nutrient.team n))). }
  destruct (length _ =? 0)%nat eqn:Hlen; [left; by split|].
  right. split; [done|].
  destruct (shuffled_head rnd
              (wallNeighborDirs next rows cols (Nutrient.r n) (Nutrient.c n)
                 (Nutrient.team n) (Some (Nutrient.dir n))) k) as (d & rest & Hsh & Hd).
  { intros Hnil. rewrite Hnil in Hlen. done. }
  destruct (shuffled rnd _ k) as [order k1]. cbn [fst] in Hsh. subst order.
  destruct d as [dr dc]. exists (dr, dc), k1. split; [done|]. cbn [fst snd].
  destruct (MAX_NUTRIENTS_PER_CELL <=? _) eqn:Hcap.
  - left. split; [by apply Z.leb_le|done].
  - right. split; [by apply Z.leb_gt|done].
Qed.

(** The two things the body of the producer loop does at a cell: nothing
    to the tokens, or emit one token to a wall neighbour that is not full. *)
Lemma produceAt_cases (rnd : nat → Q) (now : Z * Z → Z) (tick rows cols : Z) (next : Grid)
  (out : list Nutrient.t) (occ : gmap (Z * Z) Z) (k : nat) (p : Z * Z) :
  (∃ k1 : nat, produceAt rnd now tick rows cols (next, out, occ, k) p = (next, out, occ, k1))
  ∨ ∃ (tm : Team) (d : Z * Z) (k1 : nat),
      state (getCell next p.1 p.2) = producer
      ∧ team (getCell next p.1 p.2) = Some tm
      ∧ d ∈ wallNeighborDirs next rows cols p.1 p.2 tm None
      ∧ occupancy occ (p.1 + d.1, p.2 + d.2) < MAX_NUTRIENTS_PER_CELL
      ∧ produceAt rnd now tick rows cols (next, out, occ, k) p
        = (next,
           out ++ [Nutrient.mk (mkId (now (p.1, p.2)) p.1 p.2 tick (rnd k1))
                     (p.1 + d.1) (p.2 + d.2) tm d None],
           <[(p.1 + d.1, p.2 + d.2) := occupancy occ (p.1 + d.1, p.2 + d.2) + 1]> occ,
           S k1).
Proof.
  unfold produceAt.
  destruct (team (getCell next p.1 p.2)) as [tm|] eqn:Htm; [|left; by exists k].
  case_bool_decide as Hst; [left; by exists k|].
  assert (Hprod : state (getCell next p.1 p.2) = producer).
  { by destruct (decide (state (getCell next p.1 p.2) = producer)). }
  destruct (length _ =? 0)%nat eqn:Hlen; [left; by exists k|].
  destruct (shuffled_head rnd (wallNeighborDirs next rows cols p.1 p.2 tm None) k)
    as (d & rest & Hsh & Hd).
  { intros Hnil. rewrite Hnil in Hlen. done. }
  destruct (shuffled rnd _ k) as [order k1]. cbn [fst] in Hsh. subst order.
  destruct d as [dr dc]. cbn [fst snd].
  destruct (MAX_NUTRIENTS_PER_CELL <=? _) eqn:Hcap; [left; by exists k1|].
  right. exists tm, (dr, dc), k1. repeat split; try done. by apply Z.leb_gt.
Qed.

(** An invariant of the two loops of [runNutrients] holds of its result. *)
Lemma runNutrients_ind (rnd : nat → Q) (now : Z * Z → Z) (grid : Grid)
  (nutrients : list Nutrient.t) (tick : Z) (k : nat)
  (I : Grid → list Nutrient.t → gmap (Z * Z) Z → Prop) :
  I grid [] ∅ →
  (∀ (next : Grid) (out : list Nutrient.t) (occ : gmap (Z * Z) Z) (k0 : nat) (n : Nutrient.t),
     n ∈ nutrients → I next out occ →
     I (moveNutrient rnd (gridRows grid) (gridCols grid) (next, out, occ, k0) n).1.1.1
       (moveNutrient rnd (gridRows grid) (gridCols grid) (next, out, occ, k0) n).1.1.2
       (moveNutrient rnd (gridRows grid) (gridCols grid) (next, out, occ, k0) n).1.2) →
  (Z.rem tick PRODUCE_EVERY = 0 →
   ∀ (next : Grid) (out : list Nutrient.t) (occ : gmap (Z * Z) Z) (k0 : nat) (p : Z * Z),
     p ∈ allCells (gridRows grid) (gridCols grid) → I next out occ →
     I (produceAt rnd now tick (gridRows grid) (gridCols grid) (next, out, occ, k0) p).1.1.1
       (produceAt rnd now tick (gridRows grid) (gridCols grid) (next, out, occ, k0) p).1.1.2
       (produceAt rnd now tick (gridRows grid) (gridCols grid) (next, out, occ, k0) p).1.2) →
  ∃ occ : gmap (Z * Z) Z,
    I (FlowResult.grid (runNutrients rnd now grid nutrients tick k).1)
      (FlowResult.nutrients (runNutrients rnd now grid nutrients tick k).1) occ.
Proof.
  intros H0 Hmove Hprod. unfold runNutrients.
  assert (Hmoved : (fun st : FlowState => I st.1.1.1 st.1.1.2 st.1.2)
            (foldl (moveNutrient rnd (gridRows grid) (gridCols grid)) (grid, [], ∅, k)
               nutrients)).
  { apply (foldl_invariant (fun st : FlowState => I st.1.1.1 st.1.1.2 st.1.2)); [|done].
    intros [[[next out] occ] k0] n Hn Hst. by apply Hmove. }
  cbn beta in Hmoved.
  destruct (Z.rem tick PRODUCE_EVERY =? 0) eqn:Htick.
  - apply Z.eqb_eq in Htick.
    assert (Hall : (fun st : FlowState => I st.1.1.1 st.1.1.2 st.1.2)
              (foldl (produceAt rnd now tick (gridRows grid) (gridCols grid))
                 (foldl (moveNutrient rnd (gridRows grid) (gridCols grid)) (grid, [], ∅, k)
                    nutrients) (allCells (gridRows grid) (gridCols grid)))).
    { apply (foldl_invariant (fun st : FlowState => I st.1.1.1 st.1.1.2 st.1.2)); [|done].
      intros [[[next out] occ] k0] p Hp Hst. by apply Hprod. }
    cbn beta in Hall.
    destruct (foldl (produceAt _ _ _ _ _) _ _) as [[[next out] occ] k']. by exists occ.
  - destruct (foldl (moveNutrient _ _ _) _ _) as [[[next out] occ] k']. by exists occ.
Qed.

Lemma isWallOf_blocksSame g g' rows cols tm p :
  blocksSame g g' → isWallOf g' rows cols tm p ↔ isWallOf g rows cols tm p.
Proof.
  intros Hsame. unfold isWallOf. split; intros (Hin & Hb & Ht).
  - rewrite <- (Hsame p.1 p.2) by (by left). done.
  - rewrite (Hsame p.1 p.2) by (by right). done.
Qed.

Lemma blocksSame_handleDeadEnd next rows cols n :
  blocksSame next (handleDeadEnd next rows cols n).
Proof.
  unfold handleDeadEnd. destruct (friendlyDots _ _ _ _ _ _) as [|[nr nc] ?];
    [apply blocksSame_refl|apply blocksSame_feedDot].
Qed.

Lemma filter_all {A} (P : A → Prop) `{∀ x, Decision (P x)} (l : list A) :
  Forall P l → filter P l = l.
Proof.
  induction 1 as [|x l Hx _ IH]; [done|].
  rewrite filter_cons, decide_True by done. by rewrite IH.
Qed.

(** ** Pruning *)

(** X6: [pruneNutrients] keeps, in their order, exactly the tokens that sit
    inside the board on a wall of their own team; pruning a second time
    drops nothing more; and after a rule tick ([tickInterval]) every token
    that is left sits on such a wall of the new grid. *)
Theorem X6_prune_keeps_hosted (rnd : nat → Q) (grid : Grid) (nutrients : list Nutrient.t)
  (sim : Sim.t) (k : nat) :
  (∀ n, n ∈ pruneNutrients grid nutrients ↔ n ∈ nutrients ∧ hosted grid n)
  ∧ pruneNutrients grid nutrients `sublist_of` nutrients
  ∧ pruneNutrients grid (pruneNutrients grid nutrients) = pruneNutrients grid nutrients
  ∧ Forall (hosted (Sim.grid (tickInterval rnd sim k).1))
      (Sim.nutrients (tickInterval rnd sim k).1).
Proof.
  assert (Hmem : ∀ g ns n, n ∈ pruneNutrients g ns ↔ n ∈ ns ∧ hosted g n).
  { intros g ns n. unfold pruneNutrients. rewrite list_elem_of_filter.
    unfold hosted, isWallOf. cbn [fst snd]. tauto. }
  assert (Hall : ∀ g ns, Forall (hosted g) (pruneNutrients g ns)).
  { intros g ns. apply Forall_forall. intros n Hn. by apply Hmem in Hn as [_ Hn]. }
  split; [apply Hmem|]. split; [apply sublist_filter|]. split.
  - apply filter_all. apply (Hall grid nutrients).
  - unfold tickInterval. destruct (stepGrid rnd (Sim.grid sim) k) as [result k'].
    cbn [fst Sim.grid Sim.nutrients]. apply Hall.
Qed.

(** ** Tokens stay on walls *)

(** X7: every token [runNutrients] returns sits inside the board on a wall
    cell of its own team in the grid returned with it, so pruning right
    after a nutrient tick drops nothing. *)
Theorem X7_flow_tokens_hosted (rnd : nat → Q) (now : Z * Z → Z) (grid : Grid)
  (nutrients : list Nutrient.t) (tick : Z) (k : nat) :
  Forall (hosted (FlowResult.grid (runNutrients rnd now grid nutrients tick k).1))
    (FlowResult.nutrients (runNutrients rnd now grid nutrients tick k).1)
  ∧ pruneNutrients (FlowResult.grid (runNutrients rnd now grid nutrients tick k).1)
      (FlowResult.nutrients (runNutrients rnd now grid nutrients tick k).1)
    = FlowResult.nutrients (runNutrients rnd now grid nutrients tick k).1.
Proof.
  assert (Hhost : Forall (hosted (FlowResult.grid (runNutrients rnd now grid nutrients tick k).1))
                    (FlowResult.nutrients (runNutrients rnd now grid nutrients tick k).1)).
  { destruct (runNutrients_ind rnd now grid nutrients tick k
      (fun next out _ =>
         blocksSame grid next
         ∧ Forall (fun m => isWallOf grid (gridRows grid) (gridCols grid) (Nutrient.team m)
                              (Nutrient.r m, Nutrient.c m)) out))
      as (_ & Hsame & Hout).
    - split; [apply blocksSame_refl|constructor].
    - intros next out occ k0 n _ [Hsame Hout].
      destruct (moveNutrient_cases rnd (gridRows grid) (gridCols grid) next out occ k0 n)
        as [-> | [[_ ->] | (Hwall & d & k1 & Hd & [[_ ->] | [_ ->]])]]; cbn [fst snd].
      + done.
      + split; [|done]. eapply blocksSame_trans; [exact Hsame|].
        apply blocksSame_handleDeadEnd.
      + split; [done|]. apply Forall_app_2; [done|]. apply Forall_singleton.
        by apply (isWallOf_blocksSame grid next).
      + split; [done|]. apply Forall_app_2; [done|]. apply Forall_singleton.
        cbn [Nutrient.team Nutrient.r Nutrient.c].
        apply (isWallOf_blocksSame grid next); [done|].
        by apply elem_of_wallNeighborDirs in Hd as [_ Hd].
    - intros _ next out occ k0 p _ [Hsame Hout].
      destruct (produceAt_cases rnd now tick (gridRows grid) (gridCols grid) next out occ k0 p)
        as [[k1 ->] | (tm & d & k1 & _ & _ & Hd & _ & ->)]; cbn [fst snd]; [done|].
      split; [done|]. apply Forall_app_2; [done|]. apply Forall_singleton.
      cbn [Nutrient.team Nutrient.r Nutrient.c].
      apply (isWallOf_blocksSame grid next); [done|].
      by apply elem_of_wallNeighborDirs in Hd as [_ Hd].
    - destruct (sameShape_runNutrients rnd now grid nutrients tick k) as (Hr & Hc & _).
      eapply Forall_impl; [exact Hout|]. intros m Hm. unfold hosted.
      rewrite Hr, Hc. by apply (isWallOf_blocksSame grid). }
  split; [done|]. unfold pruneNutrients. apply filter_all.
  eapply Forall_impl; [exact Hhost|]. intros m Hm. exact Hm.
Qed.


(** ** What feeding does to the grid *)

Lemma fedFrom_refl g : fedFrom g g.
Proof. intros r c. repeat split; try done; lia. Qed.

Lemma isDotLike_state x y : state x = state y → isDotLike x = isDotLike y.
Proof. unfold isDotLike. by intros ->. Qed.

Lemma fedFrom_trans g1 g2 g3 : fedFrom g1 g2 → fedFrom g2 g3 → fedFrom g1 g3.
Proof.
  intros H12 H23 r c.
  destruct (H12 r c) as (Ht & Hn & Hd), (H23 r c) as (Ht' & Hn' & Hd').
  split; [congruence|]. split.
  - intros Hno. specialize (Hn Hno). rewrite Hn in Hn'. rewrite Hn' by done. done.
  - intros Hyes. destruct (Hd Hyes) as (Hd2 & Hp & Hh).
    destruct (Hd' Hd2) as (Hd3 & Hp' & Hh').
    split; [done|]. split; [tauto|]. intros Hle. lia.
Qed.

Lemma fedFrom_feedDot next nr nc tm : fedFrom next (feedDot next nr nc tm).1.
Proof.
  unfold feedDot.
  destruct (_ || _) eqn:Hguard; [apply fedFrom_refl|].
  apply orb_false_iff in Hguard as [_ Hdot]. apply negb_false_iff in Hdot.
  assert (Hbump : ∀ r c,
    getCell (bumpHealth next nr nc) r c = getCell next r c
    ∨ ((r, c) = (nr, nc)
       ∧ getCell (bumpHealth next nr nc) r c
         = mkCell (state (getCell next nr nc)) (team (getCell next nr nc))
             (Some (Z.min MAX_HEALTH (healthOr0 (getCell next nr nc) + 1))))).
  { intros r c. unfold bumpHealth.
    destruct (getCell_setCell_cases next nr nc
                (mkCell (state (getCell next nr nc)) (team (getCell next nr nc))
                   (Some (Z.min MAX_HEALTH (healthOr0 (getCell next nr nc) + 1)))) r c)
      as [[Heq Hpos] | Heq]; [by right|by left]. }
  assert (Hfed1 : fedFrom next (bumpHealth next nr nc)).
  { intros r c. destruct (Hbump r c) as [-> | [Hpos ->]]; [apply fedFrom_refl|].
    injection Hpos as -> ->. cbn [team state]. split; [done|]. split.
    - intros Hno. congruence.
    - intros _. split; [by rewrite <- Hdot|]. split; [done|].
      intros Hle. set (h := healthOr0 (getCell next nr nc)) in *.
      unfold healthOr0. simpl. unfold MAX_HEALTH in *. lia. }
  assert (Hfed2 : fedFrom (bumpHealth next nr nc)
                    (setState (bumpHealth next nr nc) nr nc producer)).
  { intros r c. unfold setState.
    destruct (getCell_setCell_cases (bumpHealth next nr nc) nr nc
                (mkCell producer (team (getCell (bumpHealth next nr nc) nr nc))
                   (health (getCell (bumpHealth next nr nc) nr nc))) r c)
      as [[Heq Hpos] | Heq]; [|rewrite Heq; apply fedFrom_refl].
    rewrite Heq. injection Hpos as -> ->. cbn [team state]. split; [done|]. split.
    - intros Hno. exfalso.
      destruct (Hfed1 nr nc) as (_ & _ & Hd). destruct (Hd Hdot) as [Hd' _]. congruence.
    - intros _. split; [done|]. split; [done|].
      unfold healthOr0. cbn [health]. lia. }
  destruct (negb _); cbn [fst]; [|done].
  eapply fedFrom_trans; [exact Hfed1|exact Hfed2].
Qed.

Lemma runNutrients_fedFrom rnd now grid nutrients tick k :
  fedFrom grid (FlowResult.grid (runNutrients rnd now grid nutrients tick k).1).
Proof.
  destruct (runNutrients_ind rnd now grid nutrients tick k
              (fun next _ _ => fedFrom grid next)) as [_ Hfed]; [| | |done].
  - apply fedFrom_refl.
  - intros next out occ k0 n _ Hfed.
    destruct (moveNutrient_cases rnd (gridRows grid) (gridCols grid) next out occ k0 n)
      as [-> | [[_ ->] | (_ & d & k1 & _ & [[_ ->] | [_ ->]])]]; cbn [fst snd]; try done.
    eapply fedFrom_trans; [exact Hfed|]. unfold handleDeadEnd.
    destruct (friendlyDots _ _ _ _ _ _) as [|[nr nc] ?];
      [apply fedFrom_refl|apply fedFrom_feedDot].
  - intros _ next out occ k0 p _ Hfed. by rewrite produceAt_grid.
Qed.

(** X8: the nutrient flow changes the grid by feeding only.  In the grid
    [runNutrients] returns, every cell has the team it had; a cell that was
    no dot or producer (empty, wall, bomb) is unchanged; a dot or producer
    is still one, a producer is still a producer, and a health within
    [MAX_HEALTH] has not gone down and is still within it. *)
Theorem X8_flow_only_feeds (rnd : nat → Q) (now : Z * Z → Z) (grid : Grid)
  (nutrients : list Nutrient.t) (tick : Z) (k : nat) (r c : Z) :
  let old := getCell grid r c in
  let new := getCell (FlowResult.grid (runNutrients rnd now grid nutrients tick k).1) r c in
  team new = team old
  ∧ (isDotLike old = false → new = old)
  ∧ (isDotLike old = true →
     isDotLike new = true
     ∧ (state old = producer → state new = producer)
     ∧ (healthOr0 old <= MAX_HEALTH → healthOr0 old <= healthOr0 new <= MAX_HEALTH)).
Proof. exact (runNutrients_fedFrom rnd now grid nutrients tick k r c). Qed.

(** ** Where tokens come from *)

Lemma moveNutrients_kept (rnd : nat → Q) (rows cols : Z) (nutrients : list Nutrient.t)
  (st : FlowState) :
  ∃ kept : list Nutrient.t,
    (foldl (moveNutrient rnd rows cols) st nutrients).1.1.2 = st.1.1.2 ++ kept
    ∧ (idTeam <$> kept) `sublist_of` (idTeam <$> nutrients).
Proof.
  revert st. induction nutrients as [|n ns IH]; intros [[[next out] occ] k0].
  { exists []. cbn [foldl fst snd]. by rewrite app_nil_r. }
  cbn [foldl].
  destruct (moveNutrient_cases rnd rows cols next out occ k0 n)
    as [-> | [[_ ->] | (_ & d & k1 & _ & [[_ ->] | [_ ->]])]].
  - destruct (IH (next, out, occ, k0)) as (kept & -> & Hsub).
    exists kept. split; [done|]. rewrite fmap_cons. by apply sublist_cons.
  - destruct (IH (handleDeadEnd next rows cols n, out, occ, k0)) as (kept & -> & Hsub).
    exists kept. split; [done|]. rewrite fmap_cons. by apply sublist_cons.
  - destruct (IH (next, out ++ [n],
                  <[(Nutrient.r n, Nutrient.c n)
                    := occupancy occ (Nutrient.r n, Nutrient.c n) + 1]> occ, k1))
      as (kept & -> & Hsub).
    exists (n :: kept). cbn [fst snd]. split; [by rewrite <- app_assoc|].
    rewrite !fmap_cons. by apply sublist_skip.
  - match goal with
    | |- context [foldl _ ?s ns] => destruct (IH s) as (kept & -> & Hsub)
    end.
    eexists (_ :: kept). cbn [fst snd]. split; [by rewrite <- app_assoc|].
    rewrite !fmap_cons. by apply sublist_skip.
Qed.

Lemma produceAll_emitted (rnd : nat → Q) (now : Z * Z → Z) (tick rows cols : Z)
  (cells : list (Z * Z)) (st : FlowState) :
  ∃ emitted : list Nutrient.t,
    (foldl (produceAt rnd now tick rows cols) st cells).1.1.2 = st.1.1.2 ++ emitted
    ∧ Forall (emittedBy st.1.1.1 tick) emitted.
Proof.
  assert (Hinv : (fun s : FlowState =>
            ∃ emitted : list Nutrient.t,
              s.1.1.2 = st.1.1.2 ++ emitted ∧ s.1.1.1 = st.1.1.1
              ∧ Forall (emittedBy st.1.1.1 tick) emitted)
            (foldl (produceAt rnd now tick rows cols) st cells)).
  { apply foldl_invariant.
    - intros [[[next out] occ] k0] p _ (emitted & Hout & Hgrid & Hall). cbn [fst snd] in *.
      destruct (produceAt_cases rnd now tick rows cols next out occ k0 p)
        as [[k1 ->] | (tm & d & k1 & Hst & Htm & Hd & _ & ->)]; cbn [fst snd].
      + by exists emitted.
      + eexists (emitted ++ [_]). split; [by rewrite Hout, <- app_assoc|]. split; [done|].
        apply Forall_app_2; [done|]. apply Forall_singleton.
        apply elem_of_wallNeighborDirs in Hd as [Hd _].
        unfold emittedBy. cbn [Nutrient.id Nutrient.prev Nutrient.team Nutrient.dir
                               Nutrient.r Nutrient.c idTick idR idC].
        rewrite <- Hgrid. done.
    - exists []. by rewrite app_nil_r. }
  cbn beta in Hinv. destruct Hinv as (emitted & H1 & _ & H2). by exists emitted.
Qed.

(** X9: tokens are neither copied nor invented.  The list [runNutrients]
    returns is a list of kept tokens followed by a list of emitted ones:
    the kept ones are, in their order, input tokens with their id and team
    (each input token at most once); the emitted ones exist on production
    ticks only, and each names in its id the tick and the cell of a
    producer of its team, next to which it sits. *)
Theorem X9_tokens_origin (rnd : nat → Q) (now : Z * Z → Z) (grid : Grid)
  (nutrients : list Nutrient.t) (tick : Z) (k : nat) :
  ∃ kept emitted : list Nutrient.t,
    FlowResult.nutrients (runNutrients rnd now grid nutrients tick k).1 = kept ++ emitted
    ∧ (idTeam <$> kept) `sublist_of` (idTeam <$> nutrients)
    ∧ (Z.rem tick PRODUCE_EVERY ≠ 0 → emitted = [])
    ∧ Forall (emittedBy (FlowResult.grid (runNutrients rnd now grid nutrients tick k).1) tick)
        emitted.
Proof.
  unfold runNutrients.
  destruct (moveNutrients_kept rnd (gridRows grid) (gridCols grid) nutrients (grid, [], ∅, k))
    as (kept & Hkept & Hsub). cbn [fst snd app] in Hkept.
  destruct (Z.rem tick PRODUCE_EVERY =? 0) eqn:Htick.
  - destruct (produceAll_emitted rnd now tick (gridRows grid) (gridCols grid)
                (allCells (gridRows grid) (gridCols grid))
                (foldl (moveNutrient rnd (gridRows grid) (gridCols grid)) (grid, [], ∅, k)
                   nutrients)) as (emitted & Hem & Hall).
    assert (Hgrid : (foldl (produceAt rnd now tick (gridRows grid) (gridCols grid))
                       (foldl (moveNutrient rnd (gridRows grid) (gridCols grid))
                          (grid, [], ∅, k) nutrients)
                       (allCells (gridRows grid) (gridCols grid))).1.1.1
                    = (foldl (moveNutrient rnd (gridRows grid) (gridCols grid))
                         (grid, [], ∅, k) nutrients).1.1.1).
    { apply (foldl_invariant (fun s : FlowState =>
        s.1.1.1 = (foldl (moveNutrient rnd (gridRows grid) (gridCols grid))
                     (grid, [], ∅, k) nutrients).1.1.1)); [|done].
      intros s p _ Hs. by rewrite produceAt_grid. }
    rewrite Hkept in Hem. rewrite <- Hgrid in Hall.
    destruct (foldl (produceAt _ _ _ _ _) _ _) as [[[next out] occ] k'].
    cbn [fst snd FlowResult.nutrients FlowResult.grid] in *.
    exists kept, emitted. split; [done|]. split; [done|]. split; [|done].
    apply Z.eqb_eq in Htick. done.
  - destruct (foldl (moveNutrient _ _ _) _ _) as [[[next out] occ] k'].
    cbn [fst snd FlowResult.nutrients FlowResult.grid] in *.
    exists kept, []. rewrite app_nil_r. by repeat split.
Qed.


(** ** The per-cell cap *)

Lemma tokensAt_snoc p out x :
  tokensAt p (out ++ [x])
  = tokensAt p out + (if decide ((Nutrient.r x, Nutrient.c x) = p) then 1 else 0).
Proof.
  unfold tokensAt. rewrite filter_app, length_app, filter_cons, filter_nil.
  destruct (decide _); cbn [length]; lia.
Qed.

Lemma occupancy_insert (occ : gmap (Z * Z) Z) (key p : Z * Z) (v : Z) :
  occupancy (<[key := v]> occ) p = if decide (key = p) then v else occupancy occ p.
Proof.
  unfold occupancy. destruct (decide (key = p)) as [->|Hne].
  - by rewrite lookup_insert_eq.
  - by rewrite lookup_insert_ne.
Qed.

Lemma tokensAt_positions p out : p ∈ positions out → 0 < tokensAt p out.
Proof.
  unfold positions, tokensAt. intros Hp.
  apply list_elem_of_fmap in Hp as (m & -> & Hm).
  assert (Hin : m ∈ filter (fun m' => (Nutrient.r m', Nutrient.c m')
                                       = (Nutrient.r m, Nutrient.c m)) out).
  { by apply list_elem_of_filter. }
  destruct (filter _ out); [by apply not_elem_of_nil in Hin|]. cbn [length]. lia.
Qed.

Lemma snoc_split {A} (out l1 l2 : list A) (x m : A) :
  out ++ [x] = l1 ++ m :: l2 →
  (l1 = out ∧ m = x ∧ l2 = []) ∨ ∃ l2', l2 = l2' ++ [x] ∧ out = l1 ++ m :: l2'.
Proof.
  destruct l2 as [|y l2' _] using rev_ind; intros Heq.
  - left. apply app_inj_tail in Heq as [-> ->]. done.
  - right. exists l2'.
    change (out ++ [x] = l1 ++ (m :: l2') ++ [y]) in Heq. rewrite app_assoc in Heq.
    apply app_inj_tail in Heq as [-> ->]. done.
Qed.

(** The bookkeeping of [occupied]: it counts the collected tokens cell by
    cell, and a collected token that shares its cell with an earlier one is
    an input token that stayed where it was. *)
Lemma cap_step (nutrients out : list Nutrient.t) (occ occ' : gmap (Z * Z) Z)
  (x : Nutrient.t) :
  (∀ p, occupancy occ p = tokensAt p out) →
  (∀ l1 m l2, out = l1 ++ m :: l2 → (Nutrient.r m, Nutrient.c m) ∈ positions l1 →
              m ∈ nutrients) →
  occ' = <[(Nutrient.r x, Nutrient.c x)
           := occupancy occ (Nutrient.r x, Nutrient.c x) + 1]> occ →
  x ∈ nutrients ∨ occupancy occ (Nutrient.r x, Nutrient.c x) < MAX_NUTRIENTS_PER_CELL →
  (∀ p, occupancy occ' p = tokensAt p (out ++ [x]))
  ∧ (∀ l1 m l2, out ++ [x] = l1 ++ m :: l2 → (Nutrient.r m, Nutrient.c m) ∈ positions l1 →
                m ∈ nutrients).
Proof.
  intros Hcount Hlate -> Hx. split.
  - intros p. rewrite occupancy_insert, tokensAt_snoc, <- !Hcount.
    destruct (decide _) as [->|]; lia.
  - intros l1 m l2 Heq Hpos.
    apply snoc_split in Heq as [(-> & -> & _) | (l2' & _ & ->)]; [|by eapply Hlate].
    destruct Hx as [Hx|Hx]; [done|].
    apply tokensAt_positions in Hpos. rewrite <- Hcount in Hpos.
    unfold MAX_NUTRIENTS_PER_CELL in Hx. lia.
Qed.

(** X10: the cap of one token per wall cell binds every token that
    arrives.  In the list [runNutrients] returns, a token that shares its
    cell with a token earlier in the list is always one of the input tokens,
    returned exactly as it was given (it waited in place); a token that
    moved or was emitted is the first of the list on its cell. *)
Theorem X10_cap_binds_arrivals (rnd : nat → Q) (now : Z * Z → Z) (grid : Grid)
  (nutrients : list Nutrient.t) (tick : Z) (k : nat)
  (l1 : list Nutrient.t) (m : Nutrient.t) (l2 : list Nutrient.t) :
  FlowResult.nutrients (runNutrients rnd now grid nutrients tick k).1 = l1 ++ m :: l2 →
  (Nutrient.r m, Nutrient.c m) ∈ positions l1 →
  m ∈ nutrients.
Proof.
  destruct (runNutrients_ind rnd now grid nutrients tick k
    (fun _ out occ =>
       (∀ p, occupancy occ p = tokensAt p out)
       ∧ (∀ l1 m l2, out = l1 ++ m :: l2 → (Nutrient.r m, Nutrient.c m) ∈ positions l1 →
                     m ∈ nutrients))) as (occ & _ & Hlate).
  - split; [done|]. intros [|? ?] ? ? Heq; discriminate Heq.
  - intros next out occ k0 n Hn [Hcount Hlate].
    destruct (moveNutrient_cases rnd (gridRows grid) (gridCols grid) next out occ k0 n)
      as [-> | [[_ ->] | (_ & d & k1 & _ & [[_ ->] | [Hfree ->]])]]; cbn [fst snd];
      [done|done|..].
    + apply (cap_step nutrients out occ _ n); try done. by left.
    + eapply cap_step; [done|done|done|]. right. done.
  - intros _ next out occ k0 p _ [Hcount Hlate].
    destruct (produceAt_cases rnd now tick (gridRows grid) (gridCols grid) next out occ k0 p)
      as [[k1 ->] | (tm & d & k1 & _ & _ & _ & Hfree & ->)]; cbn [fst snd]; [done|].
    eapply cap_step; [done|done|done|]. right. done.
  - exact (Hlate l1 m l2).
Qed.

Lemma X10_cap_binds_arrivals_witness :
  FlowResult.nutrients
    (runNutrients (fun _ => 0%Q) (fun _ => 0) corridorBoard corridorTokens 1 0).1
  = [Nutrient.mk (sampleId 0) 0 2 blue (0, -1) (Some (0, 1));
     Nutrient.mk (sampleId 1) 0 1 blue (0, 1) (Some (0, -1))]
    ++ Nutrient.mk (sampleId 2) 0 1 blue (0, 1) (Some (0, 1)) :: []
  ∧ (0, 1) ∈ positions [Nutrient.mk (sampleId 0) 0 2 blue (0, -1) (Some (0, 1));
                        Nutrient.mk (sampleId 1) 0 1 blue (0, 1) (Some (0, -1))]
  ∧ Nutrient.mk (sampleId 2) 0 1 blue (0, 1) (Some (0, 1)) ∈ corridorTokens.
Proof.
  assert (Hout : FlowResult.nutrients
            (runNutrients (fun _ => 0%Q) (fun _ => 0) corridorBoard corridorTokens 1 0).1
          = [Nutrient.mk (sampleId 0) 0 2 blue (0, -1) (Some (0, 1));
             Nutrient.mk (sampleId 1) 0 1 blue (0, 1) (Some (0, -1))]
            ++ Nutrient.mk (sampleId 2) 0 1 blue (0, 1) (Some (0, 1)) :: [])
    by (by vm_compute).
  assert (Hpos : (Nutrient.r (Nutrient.mk (sampleId 2) 0 1 blue (0, 1) (Some (0, 1))),
                  Nutrient.c (Nutrient.mk (sampleId 2) 0 1 blue (0, 1) (Some (0, 1))))
                 ∈ positions [Nutrient.mk (sampleId 0) 0 2 blue (0, -1) (Some (0, 1));
                              Nutrient.mk (sampleId 1) 0 1 blue (0, 1) (Some (0, -1))]).
  { apply list_elem_of_further, list_elem_of_here. }
  split; [exact Hout|]. split; [exact Hpos|].
  exact (X10_cap_binds_arrivals _ _ _ _ _ _ _ _ _ Hout Hpos).
Defined.


(** ** A board at rest *)

Lemma dotCount_zero g : dotCount g = 0%nat → allCellsOf (fun x => isDotLike x = false) g.
Proof.
  unfold dotCount, allCellsOf. induction g as [|row g IH]; [constructor|].
  cbn [concat]. rewrite filter_app, length_app. intros Hlen.
  constructor; [|apply IH; lia].
  assert (Hrow : length (filter (fun cell => isDotLike cell = true) row) = 0%nat) by lia.
  clear -Hrow. induction row as [|x row IHrow]; [constructor|].
  rewrite filter_cons in Hrow. destruct (decide _) as [|Hno]; [discriminate Hrow|].
  constructor; [by destruct (isDotLike x)|by apply IHrow].
Qed.

Lemma scanCells_still rnd grid rows cols cells k :
  (∀ r c, isDotLike (getCell grid r c) = false) →
  scanCells rnd grid rows cols cells k = ([], k).
Proof.
  intros Hno. induction cells as [|[r c] cells IH]; [done|].
  cbn [scanCells]. by rewrite Hno.
Qed.

Lemma isRun_head seg : isRun seg = true → ∃ x rest, seg = x :: rest ∧ isDotLike x = true.
Proof.
  unfold isRun. destruct seg as [|x rest]; [done|].
  cbn [forallb]. intros H. exists x, rest. split; [done|].
  by destruct (isDotLike x).
Qed.

Lemma findCenters_still next rows cols :
  allCellsOf (fun x => isDotLike x = false) next → findCenters next rows cols = [].
Proof.
  intros Hno. unfold findCenters.
  assert (HH : ∀ r c, isRun (segmentH next r c) = false).
  { intros r c. destruct (isRun (segmentH next r c)) eqn:Hrun; [|done]. exfalso.
    apply isRun_head in Hrun as (x & rest & Hseg & Hx).
    assert (Hrow : Forall (fun x => isDotLike x = false) (rowOf next r)).
    { unfold rowOf. destruct (next !! Z.to_nat r) as [row|] eqn:Hr; [|constructor].
      exact (Forall_lookup_1 _ _ _ _ Hno Hr). }
    assert (Hall : Forall (fun x => isDotLike x = false) (segmentH next r c)).
    { unfold segmentH. by apply Forall_take, Forall_drop. }
    rewrite Hseg in Hall. apply Forall_cons in Hall as [Hx' _]. congruence. }
  assert (HV : ∀ r c, isRun (segmentV next r c) = false).
  { intros r c. destruct (isRun (segmentV next r c)) eqn:Hrun; [|done]. exfalso.
    apply isRun_head in Hrun as (x & rest & Hseg & Hx).
    unfold segmentV in Hseg. cbn [fmap list_fmap] in Hseg. injection Hseg as <- _.
    by rewrite (allCellsOf_getCell (fun x => isDotLike x = false)) in Hx. }
  apply (foldl_invariant (fun cs : list (Z * Z) => cs = [])).
  - intros cs p _ ->. by rewrite HV.
  - apply (foldl_invariant (fun cs : list (Z * Z) => cs = [])); [|done].
    intros cs p _ ->. by rewrite HH.
Qed.

(** X11: a board at rest stays at rest.  When the counter of dots and
    producers is 0 and no cell holds a bomb, [stepGrid] returns the grid it
    was given, with no blast and no animation, and makes no draw. *)
Theorem X11_quiescent_board (rnd : nat → Q) (grid : Grid) (k : nat) :
  dotCount grid = 0%nat →
  allCellsOf (fun x => isBomb x = false) grid →
  stepGrid rnd grid k = (StepResult.mk grid [] ∅, k).
Proof.
  intros Hcount Hnb. apply dotCount_zero in Hcount.
  assert (Hnd : ∀ r c, isDotLike (getCell grid r c) = false).
  { intros r c. by apply (allCellsOf_getCell (fun x => isDotLike x = false)). }
  assert (Hnb' : ∀ r c, isBomb (getCell grid r c) = false).
  { intros r c. by apply (allCellsOf_getCell (fun x => isBomb x = false)). }
  assert (Harm : toArm grid (gridRows grid) (gridCols grid) = []).
  { apply filter_none. intros p _ [Hd _]. by rewrite Hnd in Hd. }
  assert (Hhot : toHot grid (gridRows grid) (gridCols grid) = []).
  { apply filter_none. intros p _ Hs. specialize (Hnb' p.1 p.2).
    unfold isBomb in Hnb'. rewrite Hs in Hnb'. done. }
  assert (Hboom : toExplode grid (gridRows grid) (gridCols grid) = []).
  { apply filter_none. intros p _ Hs. specialize (Hnb' p.1 p.2).
    unfold isBomb in Hnb'. rewrite Hs in Hnb'. done. }
  unfold stepGrid, stepTrace. rewrite Harm, Hhot, Hboom.
  cbn [applyBombState foldl explode].
  unfold spawnIntents. rewrite scanCells_still by done.
  unfold shuffled at 1. cbn [length Nat.sub shuffleLoop foldl].
  rewrite findCenters_still by done.
  unfold shuffled. cbn [length Nat.sub shuffleLoop foldl Trace.final]. done.
Qed.

Lemma X11_quiescent_board_witness :
  dotCount wallsOnly = 0%nat
  ∧ allCellsOf (fun x => isBomb x = false) wallsOnly
  ∧ stepGrid (fun _ => 0%Q) wallsOnly 7 = (StepResult.mk wallsOnly [] ∅, 7%nat).
Proof.
  assert (Hcount : dotCount wallsOnly = 0%nat) by reflexivity.
  assert (Hnb : allCellsOf (fun x => isBomb x = false) wallsOnly)
    by (repeat constructor).
  split; [exact Hcount|]. split; [exact Hnb|].
  exact (X11_quiescent_board (fun _ => 0%Q) wallsOnly 7 Hcount Hnb).
Defined.


(** ** The replication scan *)

Lemma tryDirs_live grid rows cols r c tm dirs d :
  d ∈ dirs →
  inBounds (r + d.1) (c + d.2) rows cols = true →
  state (getCell grid (r + d.1) (c + d.2)) = empty →
  is_Some (tryDirs grid rows cols r c tm dirs).
Proof.
  intros Hd Hin Hfree. induction dirs as [|d0 dirs IH]; [by apply not_elem_of_nil in Hd|].
  cbn [tryDirs]. destruct (tryDir grid rows cols r c tm d0) eqn:Htry; [done|].
  apply elem_of_cons in Hd as [->|Hd]; [|by apply IH].
  unfold tryDir in Htry. rewrite Hin in Htry. cbn [negb] in Htry.
  rewrite bool_decide_eq_true_2 in Htry by done. done.
Qed.

Lemma scanCells_length rnd grid rows cols cells k :
  (length (scanCells rnd grid rows cols cells k).1
   ≤ length (filter (fun p : Z * Z => isDotLike (getCell grid p.1 p.2) = true) cells))%nat.
Proof.
  revert k. induction cells as [|[r c] cells IH]; intros k; [done|].
  cbn [scanCells]. rewrite filter_cons. cbn [fst snd].
  destruct (isDotLike (getCell grid r c)) eqn:Hdot.
  - rewrite decide_True by done.
    destruct (shuffled rnd CARDINALS k) as [dirs k1].
    specialize (IH k1). destruct (scanCells rnd grid rows cols cells k1) as [more k2].
    cbn [fst] in *. rewrite length_app.
    destruct (tryDirs _ _ _ _ _ _ _); simpl length; lia.
  - rewrite decide_False by done. apply IH.
Qed.

Lemma scanCells_live rnd grid rows cols cells k r c :
  (r, c) ∈ cells → isDotLike (getCell grid r c) = true →
  ∃ dirs, dirs ≡ₚ CARDINALS
    ∧ ∀ it, tryDirs grid rows cols r c (team (getCell grid r c)) dirs = Some it →
            it ∈ (scanCells rnd grid rows cols cells k).1.
Proof.
  intros Hin Hdot. revert k. induction cells as [|[r0 c0] cells IH]; intros k;
    [by apply not_elem_of_nil in Hin|].
  cbn [scanCells].
  apply elem_of_cons in Hin as [Heq|Hin].
  - injection Heq as <- <-. rewrite Hdot.
    pose proof (shuffled_Permutation rnd CARDINALS k) as Hperm.
    destruct (shuffled rnd CARDINALS k) as [dirs k1]. cbn [fst] in Hperm.
    destruct (scanCells rnd grid rows cols cells k1) as [more k2].
    exists dirs. split; [done|]. intros it ->. cbn [fst]. simpl option_list.
    apply list_elem_of_here.
  - destruct (isDotLike (getCell grid r0 c0)).
    + destruct (shuffled rnd CARDINALS k) as [dirs0 k1].
      destruct (IH Hin k1) as (dirs & Hperm & Hit).
      destruct (scanCells rnd grid rows cols cells k1) as [more k2].
      exists dirs. split; [done|]. intros it Htry. cbn [fst] in *.
      apply elem_of_app. right. by apply Hit.
    + apply (IH Hin).
Qed.

Lemma scanCells_proposals rnd grid rows cols cells k :
  ∃ props : list (option Intent.t),
    Forall2 (fun (p : Z * Z) (o : option Intent.t) =>
               ∃ dirs, dirs ≡ₚ CARDINALS
                 ∧ o = tryDirs grid rows cols p.1 p.2 (team (getCell grid p.1 p.2)) dirs)
      (filter (fun p : Z * Z => isDotLike (getCell grid p.1 p.2) = true) cells) props
    ∧ (scanCells rnd grid rows cols cells k).1 = props ≫= option_list.
Proof.
  revert k. induction cells as [|[r c] cells IH]; intros k.
  { exists []. split; [constructor|done]. }
  cbn [scanCells]. rewrite filter_cons. cbn [fst snd].
  destruct (isDotLike (getCell grid r c)) eqn:Hdot.
  - rewrite decide_True by done.
    pose proof (shuffled_Permutation rnd CARDINALS k) as Hperm.
    destruct (shuffled rnd CARDINALS k) as [dirs k1]. cbn [fst] in Hperm.
    destruct (IH k1) as (props & Hall & Heq).
    destruct (scanCells rnd grid rows cols cells k1) as [more k2]. cbn [fst] in *.
    exists (tryDirs grid rows cols r c (team (getCell grid r c)) dirs :: props).
    split; [|by rewrite Heq].
    constructor; [|done]. by exists dirs.
  - rewrite decide_False by done. apply IH.
Qed.

Lemma stepTrace_intents_scan rnd grid k :
  ∃ k1, Trace.intents (stepTrace rnd grid k).1
        = (scanCells rnd grid (gridRows grid) (gridCols grid)
             (allCells (gridRows grid) (gridCols grid)) k1).1.
Proof.
  unfold stepTrace.
  destruct (explode rnd _ _ _ _ k) as [[next3 blasts] k1]. exists k1.
  unfold spawnIntents.
  destruct (scanCells rnd grid _ _ _ k1) as [intents k2].
  destruct (shuffled rnd intents k2) as [order k3].
  destruct (foldl resolveIntent _ order) as [next4 anims].
  destruct (shuffled rnd (findCenters _ _ _) k3) as [corder k4].
  by destruct (foldl (resolveCenter rnd _ _) _ corder) as [[next5 anims'] k5].
Qed.

(** X12: the scan makes at most one proposal per dot or producer, and a
    dot or producer with a free cell next to it always makes one, whatever
    the draws.  The intents are, in scan order, the proposals of the dots
    and producers of the pre-tick grid, one cell after the other: each cell
    gives the intent of the first of its four directions, taken in some
    order, that yields one, or nothing when none does.  A dot or producer
    of the board with a free in-board cardinal neighbour gives an intent of
    its team. *)
Theorem X12_scan_liveness (rnd : nat → Q) (grid : Grid) (k : nat) :
  (∃ props : list (option Intent.t),
     Forall2 (fun (p : Z * Z) (o : option Intent.t) =>
                ∃ dirs, dirs ≡ₚ CARDINALS
                  ∧ o = tryDirs grid (gridRows grid) (gridCols grid) p.1 p.2
                          (team (getCell grid p.1 p.2)) dirs)
       (filter (fun p : Z * Z => isDotLike (getCell grid p.1 p.2) = true)
          (allCells (gridRows grid) (gridCols grid))) props
     ∧ Trace.intents (stepTrace rnd grid k).1 = props ≫= option_list)
  ∧ (length (Trace.intents (stepTrace rnd grid k).1)
     ≤ length (filter (fun p : Z * Z => isDotLike (getCell grid p.1 p.2) = true)
                 (allCells (gridRows grid) (gridCols grid))))%nat
  ∧ ∀ (r c : Z) (d : Z * Z),
      inBounds r c (gridRows grid) (gridCols grid) = true →
      isDotLike (getCell grid r c) = true →
      d ∈ CARDINALS →
      inBounds (r + d.1) (c + d.2) (gridRows grid) (gridCols grid) = true →
      state (getCell grid (r + d.1) (c + d.2)) = empty →
      ∃ it d',
        it ∈ Trace.intents (stepTrace rnd grid k).1
        ∧ d' ∈ CARDINALS
        ∧ tryDir grid (gridRows grid) (gridCols grid) r c (team (getCell grid r c)) d' = Some it
        ∧ Intent.team it = team (getCell grid r c).
Proof.
  destruct (stepTrace_intents_scan rnd grid k) as [k1 ->].
  split; [apply scanCells_proposals|]. split; [apply scanCells_length|].
  intros r c d Hin Hdot Hd Hnin Hfree.
  destruct (scanCells_live rnd grid (gridRows grid) (gridCols grid)
              (allCells (gridRows grid) (gridCols grid)) k1 r c)
    as (dirs & Hperm & Hit); [by apply elem_of_allCells|done|].
  destruct (tryDirs_live grid (gridRows grid) (gridCols grid) r c
              (team (getCell grid r c)) dirs d) as [it Htry]; [by rewrite Hperm|done|done|].
  destruct (tryDirs_Some _ _ _ _ _ _ _ _ Htry) as (d' & Hd' & Htry').
  exists it, d'. split; [by apply Hit|]. split; [by rewrite <- Hperm|]. split; [done|].
  unfold tryDir in Htry'.
  repeat (destruct (negb _) || destruct (bool_decide _) || destruct (isDotLike _)
          || destruct (_ && _)); by simplify_eq.
Qed.

Lemma X12_scan_liveness_witness :
  inBounds 1 1 (gridRows loneDot) (gridCols loneDot) = true
  ∧ isDotLike (getCell loneDot 1 1) = true
  ∧ (1, 0) ∈ CARDINALS
  ∧ inBounds (1 + (1, 0).1) (1 + (1, 0).2) (gridRows loneDot) (gridCols loneDot) = true
  ∧ state (getCell loneDot (1 + (1, 0).1) (1 + (1, 0).2)) = empty
  ∧ ∃ it d',
      it ∈ Trace.intents (stepTrace drawsB loneDot 0).1
      ∧ d' ∈ CARDINALS
      ∧ tryDir loneDot (gridRows loneDot) (gridCols loneDot) 1 1 (team (getCell loneDot 1 1)) d'
        = Some it
      ∧ Intent.team it = team (getCell loneDot 1 1).
Proof.
  assert (Hin : inBounds 1 1 (gridRows loneDot) (gridCols loneDot) = true) by reflexivity.
  assert (Hdot : isDotLike (getCell loneDot 1 1) = true) by reflexivity.
  assert (Hd : (1, 0) ∈ CARDINALS) by apply list_elem_of_here.
  assert (Hnin : inBounds (1 + (1, 0).1) (1 + (1, 0).2) (gridRows loneDot) (gridCols loneDot)
                 = true) by reflexivity.
  assert (Hfree : state (getCell loneDot (1 + (1, 0).1) (1 + (1, 0).2)) = empty)
    by reflexivity.
  split; [exact Hin|]. split; [exact Hdot|]. split; [exact Hd|].
  split; [exact Hnin|]. split; [exact Hfree|].
  exact (proj2 (proj2 (X12_scan_liveness drawsB loneDot 0)) 1 1 (1, 0) Hin Hdot Hd Hnin Hfree).
Defined.

(** ** Attacks and health *)

Lemma resolveIntent_same_team (next : Grid) (anims : gmap (Z * Z) AnimInfo) (it : Intent.t) :
  state (getCell next (Intent.r it) (Intent.c it)) ≠ empty →
  team (getCell next (Intent.r it) (Intent.c it)) = Intent.team it →
  resolveIntent (next, anims) it = (next, anims).
Proof.
  intros Hocc Hteam. unfold resolveIntent.
  rewrite bool_decide_eq_false_2 by done.
  rewrite bool_decide_eq_false_2; [done|]. intros [_ Hne]. done.
Qed.

Lemma resolveIntents_same_team (n : nat) (next : Grid) (anims : gmap (Z * Z) AnimInfo)
  (it : Intent.t) :
  state (getCell next (Intent.r it) (Intent.c it)) ≠ empty →
  team (getCell next (Intent.r it) (Intent.c it)) = Intent.team it →
  foldl resolveIntent (next, anims) (replicate n it) = (next, anims).
Proof.
  intros Hocc Hteam. induction n as [|n IH]; [done|].
  cbn [replicate foldl]. by rewrite resolveIntent_same_team.
Qed.

Lemma attacks_absorbed (n : nat) (next : Grid) (anims : gmap (Z * Z) AnimInfo)
  (r c : Z) (ta : Team) :
  wfGrid next →
  inBounds r c (gridRows next) (gridCols next) = true →
  state (getCell next r c) ≠ empty →
  is_Some (team (getCell next r c)) →
  team (getCell next r c) ≠ Some ta →
  getCell (foldl resolveIntent (next, anims) (replicate (S n) (Intent.mk r c (Some ta)))).1 r c
  = if Z.of_nat (S n) <=? healthOr0 (getCell next r c)
    then mkCell (state (getCell next r c)) (team (getCell next r c))
           (Some (healthOr0 (getCell next r c) - Z.of_nat (S n)))
    else mkCell dot (Some ta) (Some 0).
Proof.
  revert next anims. induction n as [|n IH]; intros next anims Hwf Hin Hocc Hsome Hne.
  - cbn [replicate foldl]. unfold resolveIntent. cbn [Intent.r Intent.c Intent.team].
    rewrite bool_decide_eq_false_2 by done.
    rewrite bool_decide_eq_true_2 by done.
    destruct (0 <? healthOr0 (getCell next r c)) eqn:Hh; cbn [fst].
    + apply Z.ltb_lt in Hh. rewrite (getCell_setCell_eq next) by done.
      destruct (Z.of_nat 1 <=? _) eqn:Hle; [|apply Z.leb_gt in Hle; lia].
      f_equal. f_equal. lia.
    + apply Z.ltb_ge in Hh. rewrite (getCell_setCell_eq next) by done.
      destruct (Z.of_nat 1 <=? _) eqn:Hle; [apply Z.leb_le in Hle; lia|done].
  - change (replicate (S (S n)) (Intent.mk r c (Some ta)))
      with (Intent.mk r c (Some ta) :: replicate (S n) (Intent.mk r c (Some ta))).
    cbn [foldl]. unfold resolveIntent at 2. cbn [Intent.r Intent.c Intent.team].
    rewrite bool_decide_eq_false_2 by done.
    rewrite bool_decide_eq_true_2 by done.
    destruct (0 <? healthOr0 (getCell next r c)) eqn:Hh.
    + apply Z.ltb_lt in Hh.
      rewrite IH; rewrite ?gridRows_setCell, ?gridCols_setCell,
                    ?(getCell_setCell_eq next) by done;
        cbn [state team]; try done; [|by apply wfGrid_setCell].
      set (h := healthOr0 (getCell next r c)) in *.
      assert (Hh' : healthOr0 (mkCell (state (getCell next r c)) (team (getCell next r c))
                                 (Some (Z.max 0 (h - 1)))) = h - 1).
      { unfold healthOr0 at 1. simpl. lia. }
      rewrite Hh'.
      destruct (Z.leb_spec (Z.of_nat (S n)) (h - 1)) as [H1|H1],
               (Z.leb_spec (Z.of_nat (S (S n))) h) as [H2|H2]; try lia; [|done].
      f_equal. f_equal. lia.
    + apply Z.ltb_ge in Hh.
      rewrite resolveIntents_same_team;
        cbn [Intent.r Intent.c Intent.team fst];
        rewrite ?(getCell_setCell_eq next) by done; try done.
      destruct (Z.of_nat (S (S n)) <=? _) eqn:H2; [apply Z.leb_le in H2; lia|done].
Qed.

(** X13: health absorbs attacks.  A non-empty cell of another team with
    health [h] that is the target of [n >= 1] intents of team [ta], resolved
    one after the other, keeps its state and team and has health [h - n] as
    long as [n <= h]; from the [h + 1]-th intent on it is a dot of team
    [ta] with health 0, and the remaining intents change nothing.  No other
    cell changes. *)
Theorem X13_health_absorbs_attacks (next : Grid) (anims : gmap (Z * Z) AnimInfo)
  (r c : Z) (ta : Team) (n : nat) :
  wfGrid next →
  inBounds r c (gridRows next) (gridCols next) = true →
  state (getCell next r c) ≠ empty →
  is_Some (team (getCell next r c)) →
  team (getCell next r c) ≠ Some ta →
  (0 < n)%nat →
  getCell (foldl resolveIntent (next, anims) (replicate n (Intent.mk r c (Some ta)))).1 r c
  = (if Z.of_nat n <=? healthOr0 (getCell next r c)
     then mkCell (state (getCell next r c)) (team (getCell next r c))
            (Some (healthOr0 (getCell next r c) - Z.of_nat n))
     else mkCell dot (Some ta) (Some 0))
  ∧ ∀ r' c', (r', c') ≠ (r, c) →
      getCell (foldl resolveIntent (next, anims) (replicate n (Intent.mk r c (Some ta)))).1
        r' c' = getCell next r' c'.
Proof.
  intros Hwf Hin Hocc Hsome Hne Hn. split.
  - destruct n as [|n]; [lia|]. by apply attacks_absorbed.
  - intros r' c' Hother. rewrite resolveIntents_other; [done|].
    apply Forall_replicate. done.
Qed.

Lemma X13_health_absorbs_attacks_witness :
  wfGrid [[mkCell dot (Some green) (Some 2)]]
  ∧ getCell (foldl resolveIntent ([[mkCell dot (Some green) (Some 2)]], ∅)
               (replicate 3 (Intent.mk 0 0 (Some blue)))).1 0 0
    = mkCell dot (Some blue) (Some 0).
Proof.
  assert (Hwf : wfGrid [[mkCell dot (Some green) (Some 2)]]) by (repeat constructor).
  split; [exact Hwf|].
  refine (proj1 (X13_health_absorbs_attacks [[mkCell dot (Some green) (Some 2)]] ∅ 0 0 blue 3
                   Hwf _ _ _ _ _)).
  - reflexivity.
  - discriminate.
  - by eexists.
  - discriminate.
  - lia.
Defined.


(** ** Five in a row *)

Lemma elem_of_centersAdd key cs x : x ∈ centersAdd key cs ↔ x ∈ cs ∨ x = key.
Proof.
  unfold centersAdd. case_bool_decide as Hin.
  - split; [by left|]. by intros [?| ->].
  - rewrite elem_of_app, list_elem_of_singleton. done.
Qed.

Lemma NoDup_centersAdd key cs : NoDup cs → NoDup (centersAdd key cs).
Proof.
  intros Hnd. unfold centersAdd. case_bool_decide as Hin; [done|].
  apply NoDup_app. split; [done|]. split; [|apply NoDup_singleton].
  intros x Hx ->%list_elem_of_singleton. done.
Qed.

Lemma centersFold_spec {A} (b : A → bool) (f : A → Z * Z) (l : list A) (init : list (Z * Z)) :
  (∀ x, x ∈ foldl (fun cs p => if b p then centersAdd (f p) cs else cs) init l
        ↔ x ∈ init ∨ ∃ p, p ∈ l ∧ b p = true ∧ f p = x)
  ∧ (NoDup init → NoDup (foldl (fun cs p => if b p then centersAdd (f p) cs else cs) init l)).
Proof.
  revert init. induction l as [|p l IH]; intros init.
  { cbn [foldl]. split; [|done]. intros x. split; [by left|].
    intros [?|(p & Hp & _)]; [done|]. by apply not_elem_of_nil in Hp. }
  cbn [foldl]. destruct (IH (if b p then centersAdd (f p) init else init)) as [Hmem Hnd].
  split.
  - intros x. rewrite Hmem. destruct (b p) eqn:Hb.
    + rewrite elem_of_centersAdd. split.
      * intros [[?| ->]|(q & Hq & Hbq & Hfq)]; [by left|..].
        -- right. exists p. split; [apply list_elem_of_here|done].
        -- right. exists q. split; [by apply list_elem_of_further|done].
      * intros [?|(q & Hq & Hbq & Hfq)]; [by left; left|].
        apply elem_of_cons in Hq as [->|Hq]; [left; right; done|].
        right. by exists q.
    + split.
      * intros [?|(q & Hq & Hbq & Hfq)]; [by left|].
        right. exists q. split; [by apply list_elem_of_further|done].
      * intros [?|(q & Hq & Hbq & Hfq)]; [by left|].
        apply elem_of_cons in Hq as [->|Hq]; [congruence|].
        right. by exists q.
  - intros Hinit. apply Hnd. destruct (b p); [by apply NoDup_centersAdd|done].
Qed.

Lemma remove_dups_const {A} `{EqDecision A} (l : list A) (t : A) :
  l ≠ [] → (∀ y, y ∈ l → y = t) → remove_dups l = [t].
Proof.
  induction l as [|a l IH]; [done|]. intros _ Hall.
  assert (Ha : a = t) by (apply Hall, list_elem_of_here). subst a.
  cbn [remove_dups]. destruct (decide_rel elem_of t l) as [Hin|Hnin].
  - apply IH; [intros ->; by apply not_elem_of_nil in Hin|].
    intros y Hy. by apply Hall, list_elem_of_further.
  - destruct l as [|b l]; [done|]. exfalso. apply Hnin.
    assert (Hb : b = t) by (apply Hall, list_elem_of_further, list_elem_of_here).
    subst b. apply list_elem_of_here.
Qed.

Lemma forallb_Forall {A} (f : A → bool) (l : list A) :
  forallb f l = true ↔ Forall (fun x => f x = true) l.
Proof.
  induction l as [|x l IH]; cbn [forallb]; [by split; [constructor|]|].
  rewrite andb_true_iff, Forall_cons, IH. done.
Qed.

Lemma isRun_spec seg :
  isRun seg = true
  ↔ seg ≠ [] ∧ Forall (fun x => isDotLike x = true) seg
    ∧ ∀ x y, x ∈ seg → y ∈ seg → team x = team y.
Proof.
  unfold isRun, oneTeam. rewrite andb_true_iff, forallb_Forall, bool_decide_eq_true. split.
  - intros [Hdots Hone]. split; [by intros ->|]. split; [done|].
    destruct (remove_dups (team <$> seg)) as [|z [|? ?]] eqn:Hrd; [done| |done].
    assert (Hz : ∀ x, x ∈ seg → team x = z).
    { intros x Hx. assert (Hin : team x ∈ remove_dups (team <$> seg)).
      { apply elem_of_remove_dups, list_elem_of_fmap. by exists x. }
      rewrite Hrd in Hin. by apply list_elem_of_singleton in Hin. }
    intros x y Hx Hy. by rewrite (Hz x), (Hz y).
  - intros (Hne & Hdots & Hteam). split; [done|].
    destruct seg as [|x0 rest]; [done|].
    rewrite (remove_dups_const _ (team x0)); [done|done|].
    intros t (y & -> & Hy)%list_elem_of_fmap. apply Hteam; [done|apply list_elem_of_here].
Qed.

Lemma elem_of_window (k : Z) : k ∈ [0; 1; 2; 3; 4] ↔ 0 <= k <= 4.
Proof.
  rewrite !elem_of_cons, elem_of_nil. lia.
Qed.

Lemma isRun_window (cellAt : Z → Cell) :
  isRun (cellAt <$> [0; 1; 2; 3; 4]) = true
  ↔ ∀ k, 0 <= k <= 4 → isDotLike (cellAt k) = true ∧ team (cellAt k) = team (cellAt 2).
Proof.
  rewrite isRun_spec. split.
  - intros (_ & Hdots & Hteam) k Hk.
    assert (Hin : ∀ j, 0 <= j <= 4 → cellAt j ∈ cellAt <$> [0; 1; 2; 3; 4]).
    { intros j Hj. apply list_elem_of_fmap. exists j. split; [done|]. by apply elem_of_window. }
    split.
    + rewrite Forall_forall in Hdots. by apply Hdots, Hin.
    + apply Hteam; apply Hin; lia.
  - intros Hall. split; [done|]. split.
    + apply Forall_forall. intros x (j & -> & Hj)%list_elem_of_fmap.
      apply elem_of_window in Hj. by apply Hall.
    + intros x y (j & -> & Hj)%list_elem_of_fmap (j' & -> & Hj')%list_elem_of_fmap.
      apply elem_of_window in Hj, Hj'.
      destruct (Hall j Hj) as [_ ->], (Hall j' Hj') as [_ ->]. done.
Qed.

Lemma segmentH_getCell g r c :
  wfGrid g → inBounds r c (gridRows g) (gridCols g - 4) = true →
  segmentH g r c = (fun k => getCell g r (c + k)) <$> [0; 1; 2; 3; 4].
Proof.
  intros Hwf Hin. apply inBounds_spec in Hin as [Hr Hc].
  destruct (lookup_inBounds g r c Hwf) as (row & x & Hrow & _).
  { apply inBounds_spec. lia. }
  assert (Hlen : Z.of_nat (length row) = gridCols g).
  { exact (Forall_lookup_1 _ _ _ _ Hwf Hrow). }
  unfold segmentH, rowOf. rewrite Hrow. cbn [default from_option id].
  assert (Hget : ∀ k, 0 <= k <= 4 →
            drop (Z.to_nat c) row !! Z.to_nat k = Some (getCell g r (c + k))).
  { intros k Hk. rewrite lookup_drop. unfold getCell.
    replace ((0 <=? r) && (0 <=? c + k)) with true
      by (symmetry; apply andb_true_iff; split; apply Z.leb_le; lia).
    rewrite Hrow. replace (Z.to_nat (c + k)) with (Z.to_nat c + Z.to_nat k)%nat by lia.
    destruct (lookup_lt_is_Some_2 row (Z.to_nat c + Z.to_nat k)) as [y Hy]; [lia|].
    by rewrite Hy. }
  apply list_eq. intros i.
  destruct (decide (i < 5)%nat) as [Hi|Hi].
  - rewrite lookup_take_lt by done.
    assert (Hk := Hget (Z.of_nat i)). rewrite Nat2Z.id in Hk. rewrite Hk by lia.
    destruct i as [|[|[|[|[|i]]]]]; [done..|lia].
  - rewrite lookup_take_ge by lia. symmetry. apply lookup_ge_None_2.
    rewrite length_fmap. cbn [length]. lia.
Qed.

(** The centres of a rectangular grid are the middles of its lines of
    five, each listed once. *)
Lemma findCenters_lines (next : Grid) (r c : Z) :
  wfGrid next →
  ((r, c) ∈ findCenters next (gridRows next) (gridCols next)
   ↔ lineOfFive next r c (0, 1) ∨ lineOfFive next r c (1, 0))
  ∧ NoDup (findCenters next (gridRows next) (gridCols next)).
Proof.
  intros Hwf. unfold findCenters.
  destruct (centersFold_spec (fun p : Z * Z => isRun (segmentH next p.1 p.2))
              (fun p : Z * Z => (p.1, p.2 + 2))
              (allCells (gridRows next) (gridCols next - 4)) []) as [HmemH HndH].
  destruct (centersFold_spec (fun p : Z * Z => isRun (segmentV next p.1 p.2))
              (fun p : Z * Z => (p.1 + 2, p.2))
              (c0 ← range (gridCols next); r0 ← range (gridRows next - 4); [(r0, c0)])
              (foldl (fun cs p =>
                        if isRun (segmentH next p.1 p.2) then centersAdd (p.1, p.2 + 2) cs
                        else cs) [] (allCells (gridRows next) (gridCols next - 4))))
    as [HmemV HndV].
  split; [|apply HndV, HndH, NoDup_nil_2].
  rewrite HmemV, HmemH. split.
  - intros [[Hnil|((r0 & c0) & Hp & Hrun & Heq)]|((r0 & c0) & Hp & Hrun & Heq)];
      [by apply not_elem_of_nil in Hnil|..]; cbn [fst snd] in *;
      injection Heq as Hr0 Hc0; subst r c.
    + left. apply elem_of_allCells in Hp.
      rewrite (segmentH_getCell next r0 c0 Hwf Hp) in Hrun.
      rewrite (isRun_window (fun k => getCell next r0 (c0 + k))) in Hrun.
      apply inBounds_spec in Hp. intros i Hi. cbn [fst snd].
      destruct (Hrun (i + 2)) as [Hd Ht]; [lia|].
      replace (r0 + i * 0) with r0 by lia.
      replace (c0 + 2 + i * 1) with (c0 + (i + 2)) by lia.
      split; [apply inBounds_spec; lia|]. done.
    + right.
      apply list_elem_of_bind in Hp as (c1 & Hp & Hc1).
      apply list_elem_of_bind in Hp as (r1 & Hp & Hr1).
      apply list_elem_of_singleton in Hp. injection Hp as Hr1' Hc1'. subst r1 c1.
      apply elem_of_range in Hc1, Hr1.
      unfold segmentV in Hrun.
      rewrite (isRun_window (fun k => getCell next (r0 + k) c0)) in Hrun.
      intros i Hi. cbn [fst snd].
      destruct (Hrun (i + 2)) as [Hd Ht]; [lia|].
      replace (c0 + i * 0) with c0 by lia.
      replace (r0 + 2 + i * 1) with (r0 + (i + 2)) by lia.
      split; [apply inBounds_spec; lia|]. done.
  - intros [Hline|Hline].
    + left. right. exists (r, c - 2). cbn [fst snd].
      assert (Hin : inBounds r (c - 2) (gridRows next) (gridCols next - 4) = true).
      { destruct (Hline (-2)) as [H1 _]; [lia|]. destruct (Hline 2) as [H2 _]; [lia|].
        cbn [fst snd] in H1, H2. apply inBounds_spec in H1, H2. apply inBounds_spec. lia. }
      split; [by apply elem_of_allCells|]. split; [|f_equal; lia].
      rewrite (segmentH_getCell next r (c - 2) Hwf Hin).
      apply (isRun_window (fun k => getCell next r (c - 2 + k))). intros k Hk.
      destruct (Hline (k - 2)) as (_ & Hd & Ht); [lia|]. cbn [fst snd] in Hd, Ht.
      replace (r + (k - 2) * 0) with r in Hd, Ht by lia.
      replace (c + (k - 2) * 1) with (c - 2 + k) in Hd, Ht by lia.
      replace (c - 2 + 2) with c by lia. done.
    + right. exists (r - 2, c). cbn [fst snd].
      destruct (Hline (-2)) as [H1 _]; [lia|]. destruct (Hline 2) as [H2 _]; [lia|].
      cbn [fst snd] in H1, H2. apply inBounds_spec in H1, H2.
      split; [|split; [|f_equal; lia]].
      * apply list_elem_of_bind. exists c. split; [|apply elem_of_range; lia].
        apply list_elem_of_bind. exists (r - 2). split; [apply list_elem_of_here|].
        apply elem_of_range. lia.
      * unfold segmentV.
        apply (isRun_window (fun k => getCell next (r - 2 + k) c)). intros k Hk.
        destruct (Hline (k - 2)) as (_ & Hd & Ht); [lia|]. cbn [fst snd] in Hd, Ht.
        replace (c + (k - 2) * 0) with c in Hd, Ht by lia.
        replace (r + (k - 2) * 1) with (r - 2 + k) in Hd, Ht by lia.
        replace (r - 2 + 2) with r by lia. done.
Qed.

(** X14: which cells are centres.  On a rectangular grid, [findCenters]
    lists a cell exactly when it is the middle of five cells in a row or
    in a column that lie inside the board and hold dots or producers of one
    team; it lists no cell twice. *)
Theorem X14_centers_are_lines_of_five (next : Grid) (r c : Z) :
  wfGrid next →
  ((r, c) ∈ findCenters next (gridRows next) (gridCols next)
   ↔ lineOfFive next r c (0, 1) ∨ lineOfFive next r c (1, 0))
  ∧ NoDup (findCenters next (gridRows next) (gridCols next)).
Proof. exact (findCenters_lines next r c). Qed.

Lemma X14_centers_are_lines_of_five_witness :
  wfGrid fiveDots ∧ NoDup (findCenters fiveDots (gridRows fiveDots) (gridCols fiveDots)).
Proof.
  assert (Hwf : wfGrid fiveDots) by (repeat constructor).
  split; [exact Hwf|].
  exact (proj2 (X14_centers_are_lines_of_five fiveDots 0 2 Hwf)).
Defined.


(** ** Bursting *)

Lemma elem_of_DIAGONALS d : d ∈ DIAGONALS → (d.1 = 1 ∨ d.1 = -1) ∧ (d.2 = 1 ∨ d.2 = -1).
Proof.
  unfold DIAGONALS. rewrite !elem_of_cons, elem_of_nil.
  intros [->|[->|[->|[->|[]]]]]; cbn [fst snd]; lia.
Qed.

Lemma NoDup_DIAGONALS : NoDup DIAGONALS.
Proof.
  unfold DIAGONALS.
  repeat (apply NoDup_cons; split;
          [rewrite ?elem_of_cons, elem_of_nil; intros H; intuition congruence|]).
  apply NoDup_nil_2.
Qed.

(** One corner of a burst: the corner cell, when on the board, becomes a
    dot if it was empty and a wall otherwise; nothing else changes. *)
Lemma burstCorner_spec (r c : Z) (tm : option Team) (next : Grid)
  (anims : gmap (Z * Z) AnimInfo) (d : Z * Z) :
  wfGrid next →
  wfGrid (burstCorner (gridRows next) (gridCols next) r c tm (next, anims) d).1
  ∧ gridRows (burstCorner (gridRows next) (gridCols next) r c tm (next, anims) d).1
    = gridRows next
  ∧ gridCols (burstCorner (gridRows next) (gridCols next) r c tm (next, anims) d).1
    = gridCols next
  ∧ (∀ r' c', (r', c') ≠ (r + d.1, c + d.2) →
       getCell (burstCorner (gridRows next) (gridCols next) r c tm (next, anims) d).1 r' c'
       = getCell next r' c')
  ∧ (inBounds (r + d.1) (c + d.2) (gridRows next) (gridCols next) = true →
     getCell (burstCorner (gridRows next) (gridCols next) r c tm (next, anims) d).1
       (r + d.1) (c + d.2)
     = mkCell (if bool_decide (state (getCell next (r + d.1) (c + d.2)) = empty)
               then dot else block) tm None).
Proof.
  intros Hwf. unfold burstCorner.
  destruct (inBounds (r + d.1) (c + d.2) (gridRows next) (gridCols next)) eqn:Hin;
    cbn [negb]; [|by repeat split].
  destruct (bool_decide (state (getCell next (r + d.1) (c + d.2)) = empty));
    [|destruct (bool_decide _)]; cbn [fst];
    (split; [by apply wfGrid_setCell|]);
    (split; [apply gridRows_setCell|]);
    (split; [apply gridCols_setCell|]);
    (split; [intros r' c' Hne; by apply getCell_setCell_other|]);
    intros _; by apply getCell_setCell_eq.
Qed.

Lemma burstCorners_spec (rows cols r c : Z) (tm : option Team) (ds : list (Z * Z))
  (next : Grid) (anims : gmap (Z * Z) AnimInfo) :
  wfGrid next → rows = gridRows next → cols = gridCols next → NoDup ds →
  (∀ r' c', (∀ d, d ∈ ds → (r', c') ≠ (r + d.1, c + d.2)) →
     getCell (foldl (burstCorner rows cols r c tm) (next, anims) ds).1 r' c'
     = getCell next r' c')
  ∧ (∀ d, d ∈ ds → inBounds (r + d.1) (c + d.2) rows cols = true →
       getCell (foldl (burstCorner rows cols r c tm) (next, anims) ds).1 (r + d.1) (c + d.2)
       = mkCell (if bool_decide (state (getCell next (r + d.1) (c + d.2)) = empty)
                 then dot else block) tm None).
Proof.
  intros Hwf -> -> Hnd. revert next anims Hwf.
  induction Hnd as [|d0 ds Hd0 Hnd IH]; intros next anims Hwf.
  { cbn [foldl fst]. split; [done|]. intros d Hd. by apply not_elem_of_nil in Hd. }
  cbn [foldl].
  destruct (burstCorner_spec r c tm next anims d0 Hwf) as (Hwf' & Hr' & Hc' & Hoth & Hhit).
  destruct (burstCorner (gridRows next) (gridCols next) r c tm (next, anims) d0)
    as [next' anims'] eqn:Hstep. cbn [fst] in *.
  destruct (IH next' anims' Hwf') as [IHoth IHhit].
  rewrite Hr', Hc' in IHoth, IHhit.
  assert (Hcell : ∀ d d' : Z * Z, d ≠ d' → (r + d.1, c + d.2) ≠ (r + d'.1, c + d'.2)).
  { intros [a b] [a' b'] Hne Heq. cbn [fst snd] in Heq. injection Heq as H1 H2.
    apply Hne. f_equal; lia. }
  split.
  - intros r' c' Hno. rewrite IHoth.
    + apply Hoth. apply Hno, list_elem_of_here.
    + intros d Hd. by apply Hno, list_elem_of_further.
  - intros d Hd Hin. apply elem_of_cons in Hd as [->|Hd].
    + rewrite IHoth; [by apply Hhit|]. intros d Hd. apply Hcell. by intros ->.
    + rewrite IHhit by done. rewrite Hoth; [done|]. apply Hcell. by intros ->.
Qed.

(** X15: what a burst does.  A dot that is a centre and has no free
    cardinal neighbour bursts, without a draw: its cell becomes empty, and
    each of its four diagonal neighbours on the board becomes a dot of the
    centre's team if it was empty, and a wall of the centre's team
    otherwise (whatever it held, of whatever team); no other cell
    changes. *)
Theorem X15_burst_effect (rnd : nat → Q) (next : Grid) (anims : gmap (Z * Z) AnimInfo)
  (k : nat) (r c : Z) :
  wfGrid next →
  inBounds r c (gridRows next) (gridCols next) = true →
  state (getCell next r c) = dot →
  openNeighbors next (gridRows next) (gridCols next) r c = [] →
  (resolveCenter rnd (gridRows next) (gridCols next) (next, anims, k) (r, c)).2 = k
  ∧ getCell (resolveCenter rnd (gridRows next) (gridCols next) (next, anims, k) (r, c)).1.1
      r c = emptyCell
  ∧ (∀ d, d ∈ DIAGONALS →
       inBounds (r + d.1) (c + d.2) (gridRows next) (gridCols next) = true →
       getCell (resolveCenter rnd (gridRows next) (gridCols next) (next, anims, k) (r, c)).1.1
         (r + d.1) (c + d.2)
       = mkCell (if bool_decide (state (getCell next (r + d.1) (c + d.2)) = empty)
                 then dot else block) (team (getCell next r c)) None)
  ∧ (∀ r' c', (r', c') ≠ (r, c) →
       (∀ d, d ∈ DIAGONALS → (r', c') ≠ (r + d.1, c + d.2)) →
       getCell (resolveCenter rnd (gridRows next) (gridCols next) (next, anims, k) (r, c)).1.1
         r' c' = getCell next r' c').
Proof.
  intros Hwf Hin Hdot Hopen.
  assert (Hcentre : ∀ d, d ∈ DIAGONALS → (r, c) ≠ (r + d.1, c + d.2)).
  { intros d Hd%elem_of_DIAGONALS Heq. injection Heq as H1 H2. lia. }
  destruct (burstCorners_spec (gridRows next) (gridCols next) r c (team (getCell next r c))
              DIAGONALS (setCell next r c emptyCell) anims) as [Hoth Hhit].
  { by apply wfGrid_setCell. }
  { by rewrite gridRows_setCell. }
  { by rewrite gridCols_setCell. }
  { apply NoDup_DIAGONALS. }
  assert (Hres : resolveCenter rnd (gridRows next) (gridCols next) (next, anims, k) (r, c)
                 = (burst (gridRows next) (gridCols next) r c (team (getCell next r c))
                      next anims, k)).
  { unfold resolveCenter. cbn [fst snd]. rewrite Hdot.
    rewrite bool_decide_eq_true_2 by done. cbn [negb]. rewrite Hopen. cbn [length Nat.ltb Nat.leb].
    by destruct (burst _ _ _ _ _ _ _). }
  rewrite Hres. cbn [fst snd]. unfold burst.
  split; [done|]. split; [|split].
  - rewrite Hoth by done. by apply getCell_setCell_eq.
  - intros d Hd Hdin. rewrite Hhit by done.
    rewrite getCell_setCell_other; [done|]. intros Heq. by apply (Hcentre d).
  - intros r' c' Hne Hno. rewrite Hoth by done. by apply getCell_setCell_other.
Qed.

Lemma X15_burst_effect_witness :
  wfGrid [[blueDot; greenWall]; [blueWall; greenDot]]
  ∧ getCell (resolveCenter drawsB 2 2 ([[blueDot; greenWall]; [blueWall; greenDot]], ∅, 0%nat)
               (0, 0)).1.1 1 1
    = mkCell block (Some blue) None.
Proof.
  assert (Hwf : wfGrid [[blueDot; greenWall]; [blueWall; greenDot]]) by (repeat constructor).
  split; [exact Hwf|].
  refine (proj1 (proj2 (proj2
    (X15_burst_effect drawsB [[blueDot; greenWall]; [blueWall; greenDot]] ∅ 0 0 0
       Hwf _ _ _))) (1, 1) _ _); try reflexivity.
  apply list_elem_of_here.
Defined.


(** ** Blasts *)

Lemma pickDraws_subset rnd cands k p : p ∈ pickDraws rnd cands k → p ∈ cands.
Proof.
  revert k. induction cands as [|q cands IH]; intros k; [done|].
  cbn [pickDraws]. destruct (Qltb _ _).
  - intros [->|Hp]%elem_of_cons; [apply list_elem_of_here|].
    apply list_elem_of_further. by eapply IH.
  - intros Hp. apply list_elem_of_further. by eapply IH.
Qed.

Lemma collectBlastCells_near rnd r c rows cols k p :
  p ∈ (collectBlastCells rnd r c rows cols k).1 →
  inBounds p.1 p.2 rows cols = true ∧ (chebyshev p (r, c) <= 1 ∨ manhattan p (r, c) = 2).
Proof.
  unfold collectBlastCells. rewrite spillLoop_spec. cbn [fst].
  intros [Hcore|Hspill]%elem_of_app.
  - apply blastCore_spec in Hcore as [Hin Hd]. by split; [|left].
  - apply pickDraws_subset, list_elem_of_filter in Hspill as [Hin Hsp].
    apply spill_spec in Hsp. by split; [|right].
Qed.

Lemma collectBlastCells_core rnd r c rows cols k p :
  p ∈ blastCore r c rows cols → p ∈ (collectBlastCells rnd r c rows cols k).1.
Proof.
  intros Hp. unfold collectBlastCells. destruct (spillLoop _ _ _ _ _) as [xs k'].
  cbn [fst]. apply elem_of_app. by left.
Qed.

Lemma collectAll_near rnd rows cols bombs k p :
  p ∈ (collectAll rnd rows cols bombs k).1 →
  inBounds p.1 p.2 rows cols = true
  ∧ ∃ b, b ∈ bombs ∧ (chebyshev p b <= 1 ∨ manhattan p b = 2).
Proof.
  revert k. induction bombs as [|[r c] bombs IH]; intros k;
    [by intros ?%not_elem_of_nil|].
  cbn [collectAll].
  pose proof (collectBlastCells_near rnd r c rows cols k p) as Hnear.
  destruct (collectBlastCells rnd r c rows cols k) as [cells k1].
  specialize (IH k1). destruct (collectAll rnd rows cols bombs k1) as [more k2].
  cbn [fst] in *. intros [Hp|Hp]%elem_of_app.
  - destruct (Hnear Hp) as [Hin Hd]. split; [done|]. exists (r, c).
    split; [apply list_elem_of_here|done].
  - destruct (IH Hp) as (Hin & b & Hb & Hd). split; [done|]. exists b.
    split; [by apply list_elem_of_further|done].
Qed.

Lemma collectAll_core rnd rows cols bombs k b p :
  b ∈ bombs → p ∈ blastCore b.1 b.2 rows cols → p ∈ (collectAll rnd rows cols bombs k).1.
Proof.
  intros Hb Hp. revert k. induction bombs as [|[r c] bombs IH]; intros k;
    [by apply not_elem_of_nil in Hb|].
  cbn [collectAll].
  pose proof (collectBlastCells_core rnd r c rows cols k p) as Hcore.
  destruct (collectBlastCells rnd r c rows cols k) as [cells k1].
  apply elem_of_cons in Hb as [->|Hb].
  - destruct (collectAll rnd rows cols bombs k1) as [more k2]. cbn [fst] in *.
    apply elem_of_app. left. by apply Hcore.
  - specialize (IH Hb k1). destruct (collectAll rnd rows cols bombs k1) as [more k2].
    cbn [fst] in *. apply elem_of_app. by right.
Qed.

Lemma explode_blasts rnd rows cols next bombs k :
  (explode rnd rows cols next bombs k).1.2
  = match bombs with [] => [] | _ => (collectAll rnd rows cols bombs k).1 end.
Proof.
  unfold explode. destruct bombs as [|b bombs]; [done|].
  destruct (collectAll rnd rows cols (b :: bombs) k) as [cells k1].
  by destruct (foldl (blastOne rnd rows cols) (next, k1) cells).
Qed.

Lemma explode_cell rnd rows cols next bombs k r c :
  getCell (explode rnd rows cols next bombs k).1.1 r c = getCell next r c
  ∨ getCell (explode rnd rows cols next bombs k).1.1 r c = emptyCell.
Proof.
  unfold explode. destruct bombs as [|b bombs]; [by left|].
  destruct (collectAll rnd rows cols (b :: bombs) k) as [cells k1].
  assert (Hf : (fun st : Grid * nat =>
                  getCell st.1 r c = getCell next r c ∨ getCell st.1 r c = emptyCell)
               (foldl (blastOne rnd rows cols) (next, k1) cells)).
  { apply foldl_invariant; [|by left].
    intros st q _ Hst. destruct (blastOne_cases rnd rows cols st q) as [-> | ->]; [done|].
    destruct (getCell_setCell_cases st.1 q.1 q.2 emptyCell r c) as [[-> _] | ->];
      [by right|done]. }
  cbn beta in Hf. by destruct (foldl (blastOne rnd rows cols) (next, k1) cells).
Qed.

Lemma stepGrid_final rnd grid k :
  (stepGrid rnd grid k).1 = Trace.final (stepTrace rnd grid k).1.
Proof. unfold stepGrid. by destruct (stepTrace rnd grid k). Qed.

(** X16: where blasts are.  Every cell [stepGrid] lists as blasted is on
    the board and within one king move, or exactly two city-block steps,
    of a cell that held a hot bomb before the tick; all the cells of the
    board within one king move of such a bomb are listed; without a hot
    bomb the list is empty; and the explosion phase leaves each cell as the
    advance phase left it, or empty. *)
Theorem X16_blasts_near_hot_bombs (rnd : nat → Q) (grid : Grid) (k : nat) :
  (∀ p, p ∈ StepResult.blasts (stepGrid rnd grid k).1 →
     inBounds p.1 p.2 (gridRows grid) (gridCols grid) = true
     ∧ ∃ b, state (getCell grid b.1 b.2) = bomb_hot
         ∧ inBounds b.1 b.2 (gridRows grid) (gridCols grid) = true
         ∧ (chebyshev p b <= 1 ∨ manhattan p b = 2))
  ∧ (∀ b p, state (getCell grid b.1 b.2) = bomb_hot →
       inBounds b.1 b.2 (gridRows grid) (gridCols grid) = true →
       inBounds p.1 p.2 (gridRows grid) (gridCols grid) = true →
       chebyshev p b <= 1 →
       p ∈ StepResult.blasts (stepGrid rnd grid k).1)
  ∧ ((∀ r c, state (getCell grid r c) ≠ bomb_hot) →
     StepResult.blasts (stepGrid rnd grid k).1 = [])
  ∧ (∀ r c,
       getCell (Trace.exploded (stepTrace rnd grid k).1) r c
       = getCell (Trace.advanced (stepTrace rnd grid k).1) r c
       ∨ getCell (Trace.exploded (stepTrace rnd grid k).1) r c = emptyCell).
Proof.
  destruct (stepTrace_phases rnd grid k) as (_ & Hadv & Hexp & Hbl & _).
  rewrite stepGrid_final, Hbl, Hexp, Hadv, explode_blasts.
  split; [|split; [|split]].
  - intros p Hp. destruct (toExplode grid _ _) as [|b0 bombs] eqn:Hbombs;
      [by apply not_elem_of_nil in Hp|].
    apply collectAll_near in Hp as (Hin & [br bc] & Hb & Hd). split; [done|].
    rewrite <- Hbombs in Hb. apply elem_of_toExplode in Hb as [Hhot Hbin].
    by exists (br, bc).
  - intros [br bc] p Hhot Hbin Hpin Hd. cbn [fst snd] in Hhot, Hbin.
    assert (Hb : (br, bc) ∈ toExplode grid (gridRows grid) (gridCols grid))
      by (by apply elem_of_toExplode).
    assert (Hp : p ∈ (collectAll rnd (gridRows grid) (gridCols grid)
                        (toExplode grid (gridRows grid) (gridCols grid)) k).1).
    { apply (collectAll_core _ _ _ _ _ (br, bc)); [done|]. by apply blastCore_spec. }
    destruct (toExplode grid _ _); [by apply not_elem_of_nil in Hb|done].
  - intros Hnone.
    assert (Hn : toExplode grid (gridRows grid) (gridCols grid) = []).
    { apply filter_none. intros p _ Hhot. by apply (Hnone p.1 p.2). }
    by rewrite Hn.
  - intros r c. apply explode_cell.
Qed.

(** ** Walls *)

(** X17: only a blast removes a wall.  A cell that holds a wall before
    the tick and is not in the blast list of [stepGrid] is untouched by
    the bomb, explosion and replication phases and still holds a wall in
    the grid returned (the line-of-five phase may hand it to another
    team). *)
Theorem X17_walls_fall_only_to_blasts (rnd : nat → Q) (grid : Grid) (k : nat) (r c : Z) :
  state (getCell grid r c) = block →
  (r, c) ∉ StepResult.blasts (stepGrid rnd grid k).1 →
  getCell (Trace.resolved (stepTrace rnd grid k).1) r c = getCell grid r c
  ∧ state (getCell (StepResult.grid (stepGrid rnd grid k).1) r c) = block.
Proof.
  intros Hwall Hnb.
  destruct (stepTrace_phases rnd grid k)
    as (_ & Hadv & Hexp & Hbl & order & anims & corder & k4 & Hperm & Hres & Hfin).
  pose proof (stepTrace_intents rnd grid k) as Hint.
  rewrite stepGrid_final in Hnb |- *. rewrite Hbl in Hnb.
  destruct (explode_spec rnd (gridRows grid) (gridCols grid)
              (applyBombState bomb_hot grid
                 (applyBombState bomb_armed grid grid
                    (toArm grid (gridRows grid) (gridCols grid)))
                 (toHot grid (gridRows grid) (gridCols grid)))
              (toExplode grid (gridRows grid) (gridCols grid)) k r c) as (_ & _ & Hkeep).
  assert (Hresolved : getCell (Trace.resolved (stepTrace rnd grid k).1) r c = getCell grid r c).
  { rewrite Hres, resolveIntents_other.
    - cbn [fst]. rewrite Hexp, Hkeep by done.
      rewrite !applyBombState_other; [done|..].
      + intros Hd%elem_of_toArm. apply isDotLike_not_block in Hd. done.
      + intros [Ha _]%elem_of_toHot. congruence.
    - rewrite Hperm. eapply Forall_impl; [exact Hint|]. intros it Hit Heq.
      injection Heq as -> ->.
      destruct (scanJustified_target _ _ _ _ Hit) as [He|Hd]; [congruence|].
      apply isDotLike_not_block in Hd. done. }
  split; [done|]. rewrite Hfin.
  apply (resolveCenters_keeps (fun s => s = block) ltac:(done) ltac:(done) ltac:(done) (r, c)).
  cbn [fst snd]. by rewrite Hresolved.
Qed.

Lemma X17_walls_fall_only_to_blasts_witness :
  state (getCell wallsOnly 0 0) = block
  ∧ ((0, 0) ∉ StepResult.blasts (stepGrid drawsB wallsOnly 0).1)
  ∧ state (getCell (StepResult.grid (stepGrid drawsB wallsOnly 0).1) 0 0) = block.
Proof.
  assert (Hwall : state (getCell wallsOnly 0 0) = block) by reflexivity.
  assert (Hnb : (0, 0) ∉ StepResult.blasts (stepGrid drawsB wallsOnly 0).1).
  { assert (Hnil : StepResult.blasts (stepGrid drawsB wallsOnly 0).1 = []) by (by vm_compute).
    rewrite Hnil. apply not_elem_of_nil. }
  split; [exact Hwall|]. split; [exact Hnb|].
  exact (proj2 (X17_walls_fall_only_to_blasts drawsB wallsOnly 0 0 0 Hwall Hnb)).
Defined.


(** ** Where producers and bombs come from *)

Lemma applyBombState_state s grid next work r c :
  state (getCell (applyBombState s grid next work) r c) = state (getCell next r c)
  ∨ (state (getCell (applyBombState s grid next work) r c) = s ∧ (r, c) ∈ work).
Proof.
  unfold applyBombState.
  apply (foldl_invariant (fun nx : Grid =>
    state (getCell nx r c) = state (getCell next r c)
    ∨ (state (getCell nx r c) = s ∧ (r, c) ∈ work))); [|by left].
  intros nx [pr pc] Hp Hnx. cbn [fst snd].
  destruct (getCell_setCell_cases nx pr pc
              (mkCell s (team (getCell grid pr pc)) None) r c) as [[-> Heq] | ->]; [|done].
  right. split; [done|]. by rewrite Heq.
Qed.

Lemma keptOr_refl s : keptOr s s.
Proof. by left. Qed.

Lemma resolveIntent_keptOr (s0 : CellState) (st : Grid * gmap (Z * Z) AnimInfo)
  (it : Intent.t) (p : Z * Z) :
  keptOr s0 (state (getCell st.1 p.1 p.2)) →
  keptOr s0 (state (getCell (resolveIntent st it).1 p.1 p.2)).
Proof.
  destruct st as [next anims]. cbn [fst]. intros Hk. unfold resolveIntent.
  destruct (bool_decide _).
  { cbn [fst]. apply (setCell_keeps (keptOr s0)); [done|]. intros _. right; right; by left. }
  destruct (bool_decide _); [|done].
  destruct (0 <? _); cbn [fst]; apply (setCell_keeps (keptOr s0)); try done.
  - intros <-. cbn [state]. exact Hk.
  - intros _. right; right; by left.
Qed.

Lemma stepGrid_keptOr rnd grid k r c :
  keptOr (state (getCell (Trace.exploded (stepTrace rnd grid k).1) r c))
    (state (getCell (StepResult.grid (stepGrid rnd grid k).1) r c)).
Proof.
  destruct (stepTrace_phases rnd grid k)
    as (_ & _ & _ & _ & order & anims & corder & k4 & _ & Hres & Hfin).
  rewrite stepGrid_final, Hfin.
  set (s0 := state (getCell (Trace.exploded (stepTrace rnd grid k).1) r c)).
  apply (resolveCenters_keeps (keptOr s0)) with (p := (r, c)).
  - intros s _ _. right; right; by right.
  - intros _. right; right; by left.
  - intros _. right; by left.
  - cbn [fst snd]. rewrite Hres.
    apply (foldl_invariant (fun st : Grid * gmap (Z * Z) AnimInfo =>
                              keptOr s0 (state (getCell st.1 r c)))).
    + intros st it _ Hst. by apply (resolveIntent_keptOr s0 st it (r, c)).
    + apply keptOr_refl.
Qed.

(** X18: where producers and bombs come from.  In the grid [stepGrid]
    returns, a producer was a producer before the tick (the resolver makes
    none); an armed bomb was a dot or producer with at least four walls of
    another team among its eight neighbours; and a hot bomb was an armed
    bomb. *)
Theorem X18_special_states_origin (rnd : nat → Q) (grid : Grid) (k : nat) (r c : Z) :
  wfGrid grid →
  (state (getCell (StepResult.grid (stepGrid rnd grid k).1) r c) = producer →
   state (getCell grid r c) = producer)
  ∧ (state (getCell (StepResult.grid (stepGrid rnd grid k).1) r c) = bomb_armed →
     isDotLike (getCell grid r c) = true
     ∧ 4 <= enemyWalls grid (gridRows grid) (gridCols grid) r c)
  ∧ (state (getCell (StepResult.grid (stepGrid rnd grid k).1) r c) = bomb_hot →
     state (getCell grid r c) = bomb_armed).
Proof.
  intros Hwf.
  pose proof (stepGrid_keptOr rnd grid k r c) as Hk.
  destruct (stepTrace_phases rnd grid k) as (_ & _ & Hexp & Hbl & _).
  rewrite Hexp in Hk.
  set (rows := gridRows grid) in *. set (cols := gridCols grid) in *.
  set (next1 := applyBombState bomb_armed grid grid (toArm grid rows cols)) in *.
  set (next2 := applyBombState bomb_hot grid next1 (toHot grid rows cols)) in *.
  pose proof (applyBombState_state bomb_armed grid grid (toArm grid rows cols) r c) as H1.
  pose proof (applyBombState_state bomb_hot grid next1 (toHot grid rows cols) r c) as H2.
  fold next1 in H1. fold next2 in H2.
  pose proof (explode_cell rnd rows cols next2 (toExplode grid rows cols) k r c) as H3.
  destruct (explode_spec rnd rows cols next2 (toExplode grid rows cols) k r c)
    as (Hboom1 & Hboom2 & _).
  set (out := getCell (StepResult.grid (stepGrid rnd grid k).1) r c) in *.
  set (ex := getCell (explode rnd rows cols next2 (toExplode grid rows cols) k).1.1 r c) in *.
  assert (Hsame : ∀ s, s ≠ empty → s ≠ dot → s ≠ block → state out = s →
            state (getCell next2 r c) = s ∧ state ex = s).
  { intros s He Hd Hb Hs. rewrite Hs in Hk.
    destruct Hk as [Hk|[Hk|[Hk|Hk]]]; try done.
    destruct H3 as [H3|H3]; [by rewrite <- H3|].
    rewrite H3 in Hk. cbn [state emptyCell] in Hk. congruence. }
  split; [|split].
  - intros Hs. destruct (Hsame producer) as [Hn2 _]; try done.
    destruct H2 as [H2|[H2 _]]; [|congruence]. rewrite H2 in Hn2.
    destruct H1 as [H1|[H1 _]]; congruence.
  - intros Hs. destruct (Hsame bomb_armed) as [Hn2 _]; try done.
    destruct H2 as [H2|[H2 _]]; [|congruence].
    assert (Hn1 : state (getCell next1 r c) = bomb_armed) by congruence.
    destruct H1 as [H1|[_ H1]].
    + exfalso. rewrite H1 in Hn1.
      assert (Hin : inBounds r c rows cols = true).
      { apply getCell_inBounds; [done|]. intros Heq. by rewrite Heq in Hn1. }
      assert (Hhot : getCell next2 r c = mkCell bomb_hot (team (getCell grid r c)) None).
      { apply applyBombState_hit; [done|by apply elem_of_toHot|].
        intros Heq. rewrite Heq in H2. cbn [state emptyCell] in H2. congruence. }
      rewrite Hhot in Hn2. done.
    + apply list_elem_of_filter in H1 as [H1 _]. exact H1.
  - intros Hs. destruct (Hsame bomb_hot) as [Hn2 Hex]; try done.
    destruct H2 as [H2|[_ H2]]; [|by apply elem_of_toHot in H2 as [H2 _]].
    exfalso. rewrite H2 in Hn2.
    destruct H1 as [H1|[H1 _]]; [|congruence]. rewrite H1 in Hn2.
    assert (Hin : inBounds r c rows cols = true).
    { apply getCell_inBounds; [done|]. intros Heq. by rewrite Heq in Hn2. }
    assert (Hempty : state ex = empty).
    { apply Hboom2; [|done|].
      - apply Hboom1; [|done]. by apply elem_of_toExplode.
      - right; left. congruence. }
    congruence.
Qed.

Lemma X18_special_states_origin_witness :
  wfGrid besieged
  ∧ state (getCell (StepResult.grid (stepGrid drawsB besieged 0).1) 2 2) = producer
  ∧ state (getCell besieged 2 2) = producer
  ∧ state (getCell (StepResult.grid (stepGrid drawsB besieged 0).1) 1 1) = bomb_armed
  ∧ isDotLike (getCell besieged 1 1) = true
  ∧ 4 <= enemyWalls besieged (gridRows besieged) (gridCols besieged) 1 1
  ∧ state (getCell (StepResult.grid (stepGrid drawsB besieged 0).1) 2 0) = bomb_hot
  ∧ state (getCell besieged 2 0) = bomb_armed.
Proof.
  assert (Hwf : wfGrid besieged) by (repeat constructor).
  assert (Hprod : state (getCell (StepResult.grid (stepGrid drawsB besieged 0).1) 2 2)
                  = producer) by (by vm_compute).
  assert (Harmed : state (getCell (StepResult.grid (stepGrid drawsB besieged 0).1) 1 1)
                   = bomb_armed) by (by vm_compute).
  assert (Hhot : state (getCell (StepResult.grid (stepGrid drawsB besieged 0).1) 2 0)
                 = bomb_hot) by (by vm_compute).
  split; [exact Hwf|]. split; [exact Hprod|].
  split; [exact (proj1 (X18_special_states_origin drawsB besieged 0 2 2 Hwf) Hprod)|].
  split; [exact Harmed|].
  destruct (proj1 (proj2 (X18_special_states_origin drawsB besieged 0 1 1 Hwf)) Harmed)
    as [Hdot Hwalls].
  split; [exact Hdot|]. split; [exact Hwalls|]. split; [exact Hhot|].
  exact (proj2 (proj2 (X18_special_states_origin drawsB besieged 0 2 0 Hwf)) Hhot).
Defined.

(** ** Teams *)

Lemma allCellsOf_of_getCell (P : Cell → Prop) g :
  (∀ r c, P (getCell g r c)) → allCellsOf P g.
Proof.
  intros Hall. apply Forall_lookup. intros i row Hrow.
  apply Forall_lookup. intros j x Hx.
  specialize (Hall (Z.of_nat i) (Z.of_nat j)). unfold getCell in Hall.
  replace ((0 <=? Z.of_nat i) && (0 <=? Z.of_nat j)) with true in Hall
    by (symmetry; apply andb_true_iff; split; apply Z.leb_le; lia).
  rewrite !Nat2Z.id, Hrow, Hx in Hall. exact Hall.
Qed.

Lemma teamAbsent_get tm g r c : teamAbsent tm g → team (getCell g r c) ≠ Some tm.
Proof. intros H. by apply (allCellsOf_getCell (fun x => team x ≠ Some tm)). Qed.

Lemma teamAbsent_set tm g r c x : teamAbsent tm g → team x ≠ Some tm → teamAbsent tm (setCell g r c x).
Proof. intros H Hx. by apply allCellsOf_setCell. Qed.

Lemma teamAbsent_applyBombState tm s grid next work :
  teamAbsent tm grid → teamAbsent tm next → teamAbsent tm (applyBombState s grid next work).
Proof.
  intros Hg Hn. unfold applyBombState. apply (foldl_invariant (teamAbsent tm)); [|done].
  intros nx p _ Hnx. apply teamAbsent_set; [done|]. cbn [team]. by apply teamAbsent_get.
Qed.

Lemma teamAbsent_explode tm rnd rows cols next bombs k :
  teamAbsent tm next → teamAbsent tm (explode rnd rows cols next bombs k).1.1.
Proof.
  intros Hn. unfold explode. destruct bombs as [|b bombs]; [done|].
  destruct (collectAll rnd rows cols (b :: bombs) k) as [cells k1].
  assert (Hf : teamAbsent tm (foldl (blastOne rnd rows cols) (next, k1) cells).1).
  { apply (foldl_invariant (fun st : Grid * nat => teamAbsent tm st.1)); [|done].
    intros st q _ Hst. destruct (blastOne_cases rnd rows cols st q) as [-> | ->]; [done|].
    by apply teamAbsent_set. }
  by destruct (foldl (blastOne rnd rows cols) (next, k1) cells).
Qed.

Lemma teamAbsent_resolveIntent (tm : Team) (st : Grid * gmap (Z * Z) AnimInfo)
  (it : Intent.t) :
  Intent.team it ≠ Some tm → teamAbsent tm st.1 → teamAbsent tm (resolveIntent st it).1.
Proof.
  destruct st as [next anims]. cbn [fst]. intros Hit Hn. unfold resolveIntent.
  destruct (bool_decide _); [by apply teamAbsent_set|].
  destruct (bool_decide _); [|done].
  destruct (0 <? _); cbn [fst]; apply teamAbsent_set; try done.
  cbn [team]. by apply teamAbsent_get.
Qed.

Lemma teamAbsent_burst (tm : Team) (rows cols r c : Z) (t : option Team) (next : Grid)
  (anims : gmap (Z * Z) AnimInfo) :
  t ≠ Some tm → teamAbsent tm next → teamAbsent tm (burst rows cols r c t next anims).1.
Proof.
  intros Ht Hn. unfold burst.
  apply (foldl_invariant (fun s : Grid * gmap (Z * Z) AnimInfo => teamAbsent tm s.1)).
  - intros [nx an] d _ Hs. cbn [fst] in *. unfold burstCorner.
    destruct (negb _); [done|].
    repeat (destruct (bool_decide _)); cbn [fst]; by apply teamAbsent_set.
  - cbn [fst]. by apply teamAbsent_set.
Qed.

Lemma teamAbsent_resolveCenter (tm : Team) (rnd : nat → Q) (rows cols : Z)
  (st : Grid * gmap (Z * Z) AnimInfo * nat) (key : Z * Z) :
  teamAbsent tm st.1.1 → teamAbsent tm (resolveCenter rnd rows cols st key).1.1.
Proof.
  destruct st as [[next anims] k]. cbn [fst]. intros Hn. unfold resolveCenter.
  destruct (negb _); [done|].
  pose proof (teamAbsent_get tm next key.1 key.2 Hn) as Hkey.
  destruct (0 <? length _)%nat.
  - destruct (shuffled rnd _ k) as [order k1]. destruct order as [|[nr nc] ?]; [done|].
    cbn [fst]. by repeat apply teamAbsent_set.
  - pose proof (teamAbsent_burst tm rows cols key.1 key.2
                  (team (getCell next key.1 key.2)) next anims Hkey Hn) as Hb.
    by destruct (burst _ _ _ _ _ _ _).
Qed.

(** X19: no team appears by itself.  If no cell of the grid belongs to a
    team, no cell of the grid returned by [stepGrid], nor of the one
    returned by [runNutrients], belongs to it: only seeding brings a team
    to the board. *)
Theorem X19_absent_team_stays_absent (rnd : nat → Q) (now : Z * Z → Z) (grid : Grid)
  (nutrients : list Nutrient.t) (tick : Z) (k : nat) (tm : Team) :
  (∀ r c, team (getCell grid r c) ≠ Some tm) →
  (∀ r c, team (getCell (StepResult.grid (stepGrid rnd grid k).1) r c) ≠ Some tm)
  ∧ (∀ r c, team (getCell (FlowResult.grid (runNutrients rnd now grid nutrients tick k).1) r c)
            ≠ Some tm).
Proof.
  intros Hno. split.
  - assert (Hg : teamAbsent tm grid) by (by apply allCellsOf_of_getCell).
    intros r c. apply teamAbsent_get.
    destruct (stepTrace_phases rnd grid k)
      as (_ & _ & Hexp & _ & order & anims & corder & k4 & Hperm & Hres & Hfin).
    pose proof (stepTrace_intents rnd grid k) as Hint.
    rewrite stepGrid_final, Hfin.
    apply (foldl_invariant
             (fun s : Grid * gmap (Z * Z) AnimInfo * nat => teamAbsent tm s.1.1)).
    { intros s key _ Hs. by apply teamAbsent_resolveCenter. }
    cbn [fst]. rewrite Hres.
    assert (Hord : Forall (fun it => Intent.team it ≠ Some tm) order).
    { rewrite Hperm. eapply Forall_impl; [exact Hint|].
      intros it (r0 & c0 & d & _ & _ & -> & _). apply Hno. }
    apply (foldl_invariant (fun s : Grid * gmap (Z * Z) AnimInfo => teamAbsent tm s.1)).
    { intros s it Hit Hs. apply teamAbsent_resolveIntent; [|done].
      rewrite Forall_forall in Hord. by apply Hord. }
    cbn [fst]. rewrite Hexp. apply teamAbsent_explode.
    by repeat apply teamAbsent_applyBombState.
  - intros r c. destruct (runNutrients_fedFrom rnd now grid nutrients tick k r c) as [-> _].
    apply Hno.
Qed.

Lemma X19_absent_team_stays_absent_witness :
  (∀ r c, team (getCell loneDot r c) ≠ Some green)
  ∧ team (getCell (StepResult.grid (stepGrid drawsB loneDot 0).1) 0 1) ≠ Some green.
Proof.
  assert (Hno : ∀ r c, team (getCell loneDot r c) ≠ Some green).
  { intros r c. apply (allCellsOf_getCell (fun x => team x ≠ Some green)); [|done].
    repeat constructor; done. }
  split; [exact Hno|].
  exact (proj1 (X19_absent_team_stays_absent drawsB (fun _ => 0) loneDot [] 0 0 green Hno)
           0 1).
Defined.


(** ** The dot counter *)

Lemma filter_length_insert {A} (P : A → Prop) `{∀ x, Decision (P x)} (l : list A)
  (j : nat) (old x : A) :
  l !! j = Some old →
  (length (filter P (<[j := x]> l)) + (if decide (P old) then 1 else 0)
   = length (filter P l) + (if decide (P x) then 1 else 0))%nat.
Proof.
  revert j. induction l as [|a l IH]; intros j Hj; [done|].
  destruct j as [|j].
  - injection Hj as ->. change (<[0%nat := x]> (old :: l)) with (x :: l).
    rewrite !filter_cons.
    destruct (decide (P old)), (decide (P x)); cbn [length]; lia.
  - change (<[S j := x]> (a :: l)) with (a :: <[j := x]> l). rewrite !filter_cons.
    specialize (IH j Hj). destruct (decide (P a)); cbn [length]; lia.
Qed.

Lemma concat_length_insert {A} (P : A → Prop) `{∀ x, Decision (P x)} (g : list (list A))
  (i : nat) (row row' : list A) :
  g !! i = Some row →
  (length (filter P (concat (<[i := row']> g))) + length (filter P row)
   = length (filter P (concat g)) + length (filter P row'))%nat.
Proof.
  revert i. induction g as [|a g IH]; intros i Hi; [done|].
  destruct i as [|i].
  - injection Hi as ->. change (<[0%nat := row']> (row :: g)) with (row' :: g).
    cbn [concat]. rewrite !filter_app, !length_app. lia.
  - change (<[S i := row']> (a :: g)) with (a :: <[i := row']> g).
    cbn [concat]. rewrite !filter_app, !length_app.
    specialize (IH i Hi). lia.
Qed.

Lemma dotCount_setCell g r c x :
  wfGrid g → inBounds r c (gridRows g) (gridCols g) = true →
  (dotCount (setCell g r c x) + (if isDotLike (getCell g r c) then 1 else 0)
   = dotCount g + (if isDotLike x then 1 else 0))%nat.
Proof.
  intros Hwf Hin. destruct (lookup_inBounds g r c Hwf Hin) as (row & old & Hrow & Hold).
  apply inBounds_spec in Hin as [Hr Hc].
  unfold dotCount, setCell, getCell.
  replace ((0 <=? r) && (0 <=? c)) with true
    by (symmetry; apply andb_true_iff; split; apply Z.leb_le; lia).
  rewrite Hrow, Hold. cbn [default from_option id].
  pose proof (concat_length_insert (fun cell => isDotLike cell = true) g (Z.to_nat r) row
                (<[Z.to_nat c := x]> row) Hrow) as H1.
  pose proof (filter_length_insert (fun cell => isDotLike cell = true) row (Z.to_nat c)
                old x Hold) as H2.
  cbn beta in H2.
  destruct (decide (isDotLike old = true)) as [Ho|Ho%not_true_is_false],
           (decide (isDotLike x = true)) as [Hx|Hx%not_true_is_false];
    rewrite Ho, Hx; lia.
Qed.

Lemma dotCount_none g : allCellsOf (fun x => isDotLike x = false) g → dotCount g = 0%nat.
Proof.
  unfold dotCount, allCellsOf. induction 1 as [|row g Hrow _ IH]; [done|].
  cbn [concat]. rewrite filter_app, length_app, IH.
  rewrite (filter_none _ row); [done|].
  intros x Hx. rewrite Forall_forall in Hrow. by rewrite (Hrow x Hx).
Qed.

(** X20: the counter shown above the board counts seeds exactly.  An
    empty board counts 0; seeding a free cell of the board, by click or by
    drop, with a dot or with a producer, raises the count of dots and
    producers by exactly one, and seeding an occupied cell leaves it as it
    is. *)
Theorem X20_counter_counts_seeds (e : DataTransfer) (selectedTeam tm : Team) (r c : Z)
  (prev : Grid) (rows cols : Z) :
  wfGrid prev →
  inBounds r c (gridRows prev) (gridCols prev) = true →
  dotCount (createEmptyGrid rows cols) = 0%nat
  ∧ dotCount (placeDot tm r c prev)
    = (if bool_decide (state (getCell prev r c) = empty)
       then S (dotCount prev) else dotCount prev)
  ∧ dotCount (handleDrop e selectedTeam r c prev)
    = (if bool_decide (state (getCell prev r c) = empty)
       then S (dotCount prev) else dotCount prev).
Proof.
  intros Hwf Hin.
  assert (Hset : ∀ s t, s = dot ∨ s = producer → state (getCell prev r c) = empty →
            dotCount (setCell prev r c (mkCell s t (Some 0))) = S (dotCount prev)).
  { intros s t Hs Hfree.
    pose proof (dotCount_setCell prev r c (mkCell s t (Some 0)) Hwf Hin) as Hc.
    assert (Hold : isDotLike (getCell prev r c) = false).
    { unfold isDotLike. by rewrite Hfree. }
    assert (Hnew : isDotLike (mkCell s t (Some 0)) = true).
    { unfold isDotLike. cbn [state]. by destruct Hs as [-> | ->]. }
    rewrite Hold, Hnew in Hc. lia. }
  assert (Hguard : ∀ A (x y : A),
            (if bool_decide (state (getCell prev r c) ≠ empty) then x else y)
            = (if bool_decide (state (getCell prev r c) = empty) then y else x)).
  { intros A x y. destruct (decide (state (getCell prev r c) = empty)) as [Hfree|Hocc].
    - rewrite (bool_decide_eq_false_2 (state (getCell prev r c) ≠ empty)) by (by intros ?).
      by rewrite bool_decide_eq_true_2.
    - rewrite (bool_decide_eq_true_2 (state (getCell prev r c) ≠ empty)) by done.
      by rewrite bool_decide_eq_false_2. }
  assert (Hseed : ∀ s t, s = dot ∨ s = producer →
            dotCount (if bool_decide (state (getCell prev r c) ≠ empty) then prev
                      else setCell prev r c (mkCell s t (Some 0)))
            = (if bool_decide (state (getCell prev r c) = empty)
               then S (dotCount prev) else dotCount prev)).
  { intros s t Hs. rewrite Hguard.
    destruct (bool_decide (state (getCell prev r c) = empty)) eqn:Hfree; [|done].
    apply bool_decide_eq_true in Hfree. by apply Hset. }
  split; [|split].
  - apply dotCount_none. unfold createEmptyGrid. by apply Forall_replicate, Forall_replicate.
  - unfold placeDot. apply Hseed. by left.
  - unfold handleDrop, placeDot. destruct (dropProducer e); apply Hseed; [by right|by left].
Qed.

Lemma X20_counter_counts_seeds_witness :
  wfGrid loneDot
  ∧ inBounds 0 0 (gridRows loneDot) (gridCols loneDot) = true
  ∧ dotCount (placeDot green 0 0 loneDot) = 2%nat.
Proof.
  assert (Hwf : wfGrid loneDot) by (repeat constructor).
  assert (Hin : inBounds 0 0 (gridRows loneDot) (gridCols loneDot) = true) by reflexivity.
  split; [exact Hwf|]. split; [exact Hin|].
  exact (proj1 (proj2 (X20_counter_counts_seeds (mkDrop false None) blue green 0 0 loneDot
                         ROWS COLS Hwf Hin))).
Defined.


(** ** A contested free cell *)

Lemma resolveIntent_claims (next : Grid) (anims : gmap (Z * Z) AnimInfo) (it : Intent.t) :
  wfGrid next →
  inBounds (Intent.r it) (Intent.c it) (gridRows next) (gridCols next) = true →
  is_Some (Intent.team it) →
  (state (getCell next (Intent.r it) (Intent.c it)) = empty
   ∨ ∃ tm : Team, getCell next (Intent.r it) (Intent.c it) = claimedBy (Some tm)) →
  getCell (resolveIntent (next, anims) it).1 (Intent.r it) (Intent.c it)
  = claimedBy (Intent.team it).
Proof.
  intros Hwf Hin [ti Hti] Hcell. unfold resolveIntent.
  destruct Hcell as [Hfree|[tm Hcl]].
  - rewrite bool_decide_eq_true_2 by done. cbn [fst]. by apply getCell_setCell_eq.
  - rewrite Hcl. cbn [state team claimedBy].
    rewrite bool_decide_eq_false_2 by done.
    destruct (decide (tm = ti)) as [->|Hne].
    + rewrite bool_decide_eq_false_2; [|intros [_ Hd]; by rewrite Hti in Hd].
      cbn [fst]. by rewrite Hcl, Hti.
    + rewrite bool_decide_eq_true_2
        by (split; [by eexists|rewrite Hti; congruence]).
      cbn [healthOr0 health claimedBy]. cbn. by apply getCell_setCell_eq.
Qed.

Lemma resolveIntent_shape (st : Grid * gmap (Z * Z) AnimInfo) (it : Intent.t) :
  sameShape st.1 (resolveIntent st it).1.
Proof. apply sameShape_resolveIntent, sameShape_refl. Qed.

(** X21: a contested free cell goes to the intent resolved last.  When
    the intents of a list all target one free cell of the board and carry a
    team, resolving them one after the other leaves there a dot with health
    0 of the team of the last intent: the first intent spawns, and each
    later intent of another team captures the fresh dot at once. *)
Theorem X21_contested_cell_last_wins (next : Grid) (anims : gmap (Z * Z) AnimInfo)
  (r c : Z) (intents : list Intent.t) (final : Intent.t) :
  wfGrid next →
  inBounds r c (gridRows next) (gridCols next) = true →
  state (getCell next r c) = empty →
  Forall (fun it => Intent.r it = r ∧ Intent.c it = c ∧ is_Some (Intent.team it)) intents →
  last intents = Some final →
  getCell (foldl resolveIntent (next, anims) intents).1 r c
  = mkCell dot (Intent.team final) (Some 0).
Proof.
  intros Hwf Hin Hfree Hall Hlast.
  assert (Hinv : ∀ its,
    Forall (fun it => Intent.r it = r ∧ Intent.c it = c ∧ is_Some (Intent.team it)) its →
    (fun st : Grid * gmap (Z * Z) AnimInfo =>
       sameShape next st.1 ∧ wfGrid st.1
       ∧ (state (getCell st.1 r c) = empty
          ∨ ∃ tm : Team, getCell st.1 r c = claimedBy (Some tm)))
      (foldl resolveIntent (next, anims) its)).
  { intros its Hits. apply foldl_invariant.
    - intros [nx an] it Hit (Hshape & Hwf' & Hcell). cbn [fst] in *.
      rewrite Forall_forall in Hits. destruct (Hits it Hit) as (Hr & Hc & Hteam).
      destruct Hshape as (Hrows & Hcols & _).
      split; [|split].
      + by apply sameShape_resolveIntent.
      + by apply (resolveIntent_shape (nx, an) it).
      + right. destruct Hteam as [ti Hti]. exists ti.
        rewrite <- Hti, <- Hr, <- Hc. subst r c.
        apply resolveIntent_claims; [done|by rewrite Hrows, Hcols|by eexists|done].
    - cbn [fst]. split; [apply sameShape_refl|]. split; [done|by left]. }
  destruct intents as [|it0 its0] using rev_ind; [done|].
  rewrite last_snoc in Hlast. injection Hlast as ->.
  apply Forall_app in Hall as [Hpre Hfin]. apply Forall_singleton in Hfin as (Hr & Hc & Hteam).
  specialize (Hinv its0 Hpre). cbn beta in Hinv.
  rewrite foldl_app. cbn [foldl].
  destruct (foldl resolveIntent (next, anims) its0) as [nx an].
  cbn [fst] in Hinv. destruct Hinv as ((Hrows & Hcols & _) & Hwf' & Hcell).
  subst r c. apply (resolveIntent_claims nx an final); [done|by rewrite Hrows, Hcols|done..].
Qed.

Lemma X21_contested_cell_last_wins_witness :
  wfGrid loneDot
  ∧ getCell (foldl resolveIntent (loneDot, ∅)
               [Intent.mk 0 1 (Some blue); Intent.mk 0 1 (Some green)]).1 0 1
    = mkCell dot (Some green) (Some 0).
Proof.
  assert (Hwf : wfGrid loneDot) by (repeat constructor).
  split; [exact Hwf|].
  refine (X21_contested_cell_last_wins loneDot ∅ 0 1
            [Intent.mk 0 1 (Some blue); Intent.mk 0 1 (Some green)]
            (Intent.mk 0 1 (Some green)) Hwf _ _ _ _); try reflexivity.
  repeat constructor; by eexists.
Defined.

(** ** Which way a token may go *)

Lemma NoDup_CARDINALS : NoDup CARDINALS.
Proof.
  unfold CARDINALS.
  repeat (apply NoDup_cons; split;
          [rewrite ?elem_of_cons, elem_of_nil; intros H; intuition congruence|]).
  apply NoDup_nil_2.
Qed.

Lemma NoDup_filter_fwd {A} (P : A → Prop) `{∀ x, Decision (P x)} (l : list A) :
  NoDup l → NoDup (filter P l).
Proof.
  induction 1 as [|x l Hx Hnd IH]; [constructor|].
  rewrite filter_cons. destruct (decide (P x)); [|done].
  constructor; [|done]. intros [_ Hin]%list_elem_of_filter. done.
Qed.

(** X22: which way a token may go.  [wallNeighborDirs] lists, without
    repetition, cardinal directions that lead to an in-board wall of the
    token's team; it is empty exactly when there is no such neighbour (so a
    token is treated as being at a dead end only then); and it proposes to go
    back where the token came from only when that is the one wall
    neighbour. *)
Theorem X22_no_turning_back (next : Grid) (rows cols r c : Z) (tm : Team)
  (prev : option NutrientDir) :
  NoDup (wallNeighborDirs next rows cols r c tm prev)
  ∧ (∀ d, d ∈ wallNeighborDirs next rows cols r c tm prev →
          d ∈ CARDINALS ∧ isWallOf next rows cols tm (r + d.1, c + d.2))
  ∧ (wallNeighborDirs next rows cols r c tm prev = []
     ↔ ∀ d, d ∈ CARDINALS → ¬ isWallOf next rows cols tm (r + d.1, c + d.2))
  ∧ (∀ p d, prev = Some p → d ∈ wallNeighborDirs next rows cols r c tm prev →
       d = (- p.1, - p.2) →
       ∀ d', d' ∈ CARDINALS → isWallOf next rows cols tm (r + d'.1, c + d'.2) → d' = d).
Proof.
  set (walls := filter (fun d : Z * Z =>
                 inBounds (r + d.1) (c + d.2) rows cols = true
                 ∧ state (getCell next (r + d.1) (c + d.2)) = block
                 ∧ team (getCell next (r + d.1) (c + d.2)) = Some tm) CARDINALS).
  assert (Hwalls : ∀ d, d ∈ walls
            ↔ d ∈ CARDINALS ∧ isWallOf next rows cols tm (r + d.1, c + d.2)).
  { intros d. unfold walls. rewrite list_elem_of_filter. unfold isWallOf. cbn [fst snd].
    tauto. }
  assert (Hnd : NoDup walls) by apply NoDup_filter_fwd, NoDup_CARDINALS.
  assert (Hdef : wallNeighborDirs next rows cols r c tm prev
                 = match prev with
                   | Some p =>
                       if (1 <? length walls)%nat
                       then filter (fun d : Z * Z => ¬ (d.1 = - p.1 ∧ d.2 = - p.2)) walls
                       else walls
                   | None => walls
                   end) by done.
  assert (Hsub : ∀ d, d ∈ wallNeighborDirs next rows cols r c tm prev → d ∈ walls).
  { intros d. rewrite Hdef. destruct prev as [p|]; [|done].
    destruct (1 <? length walls)%nat; [|done]. by intros [_ ?]%list_elem_of_filter. }
  assert (Hnil : wallNeighborDirs next rows cols r c tm prev = [] → walls = []).
  { rewrite Hdef. destruct prev as [p|]; [|done].
    destruct (1 <? length walls)%nat eqn:Hlen; [|done]. intros Hf. exfalso.
    apply Nat.ltb_lt in Hlen.
    destruct walls as [|a [|b rest]]; cbn [length] in Hlen; [lia|lia|].
    apply NoDup_cons in Hnd as [Hab _].
    assert (Hne : a ≠ b) by (intros ->; apply Hab, list_elem_of_here).
    assert (Ha : ¬ ¬ (a.1 = - p.1 ∧ a.2 = - p.2)).
    { intros Ha. assert (Hin : a ∈ filter (fun d : Z * Z => ¬ (d.1 = - p.1 ∧ d.2 = - p.2))
                                     (a :: b :: rest)).
      { apply list_elem_of_filter. split; [done|apply list_elem_of_here]. }
      rewrite Hf in Hin. by apply not_elem_of_nil in Hin. }
    assert (Hb : ¬ ¬ (b.1 = - p.1 ∧ b.2 = - p.2)).
    { intros Hb. assert (Hin : b ∈ filter (fun d : Z * Z => ¬ (d.1 = - p.1 ∧ d.2 = - p.2))
                                     (a :: b :: rest)).
      { apply list_elem_of_filter. split; [done|].
        apply list_elem_of_further, list_elem_of_here. }
      rewrite Hf in Hin. by apply not_elem_of_nil in Hin. }
    apply Hne. destruct a as [a1 a2], b as [b1 b2]. cbn [fst snd] in *. f_equal; lia. }
  split; [|split; [|split]].
  - rewrite Hdef. destruct prev as [p|]; [|done].
    destruct (1 <? length walls)%nat; [by apply NoDup_filter_fwd|done].
  - intros d Hd. by apply Hwalls, Hsub.
  - split.
    + intros Hempty d Hd Hwall. apply Hnil in Hempty.
      assert (Hin : d ∈ walls) by (by apply Hwalls). rewrite Hempty in Hin.
      by apply not_elem_of_nil in Hin.
    + intros Hno. apply wallNeighborDirs_dead_end. done.
  - intros p d -> Hd Hback d' Hd' Hwall'.
    assert (Hin' : d' ∈ walls) by (by apply Hwalls).
    rewrite Hdef in Hd. destruct (1 <? length walls)%nat eqn:Hlen.
    + apply list_elem_of_filter in Hd as [Hd _]. exfalso. apply Hd.
      rewrite Hback. done.
    + apply Nat.ltb_ge in Hlen.
      destruct walls as [|a [|b rest]]; cbn [length] in Hlen; [|clear Hlen|lia].
      * by apply not_elem_of_nil in Hd.
      * apply list_elem_of_singleton in Hd, Hin'. congruence.
Qed.

(** ** The board keeps its size *)

Lemma sameShape_placeDot tm r c g : sameShape g (placeDot tm r c g).
Proof.
  unfold placeDot. destruct (bool_decide _); [apply sameShape_refl|apply sameShape_setCell].
Qed.

Lemma sameShape_handleDrop e selectedTeam r c g : sameShape g (handleDrop e selectedTeam r c g).
Proof.
  unfold handleDrop. destruct (dropProducer e); [|apply sameShape_placeDot].
  destruct (bool_decide _); [apply sameShape_refl|apply sameShape_setCell].
Qed.

(** X23: the board keeps its size.  In every state reachable from the
    initial one by rule ticks, nutrient ticks, single steps, seeding and
    reset, the grid is rectangular with [ROWS] rows and [COLS] columns. *)
Theorem X23_board_keeps_size (sim : Sim.t) :
  reachable sim →
  wfGrid (Sim.grid sim) ∧ gridRows (Sim.grid sim) = ROWS ∧ gridCols (Sim.grid sim) = COLS.
Proof.
  assert (Hinit : wfGrid (createEmptyGrid ROWS COLS)
                  ∧ gridRows (createEmptyGrid ROWS COLS) = ROWS
                  ∧ gridCols (createEmptyGrid ROWS COLS) = COLS).
  { split; [|by split]. unfold createEmptyGrid, wfGrid.
    apply Forall_replicate. by rewrite length_replicate. }
  assert (Hkeep : ∀ g g', sameShape g g' →
            wfGrid g ∧ gridRows g = ROWS ∧ gridCols g = COLS →
            wfGrid g' ∧ gridRows g' = ROWS ∧ gridCols g' = COLS).
  { intros g g' (Hr & Hc & Hw) (Hwf & Hrows & Hcols). split; [tauto|]. split; congruence. }
  induction 1 as [|rnd k sim _ IH|rnd k sim _ IH|rnd now k sim _ IH|tm r c sim _ IH
                 |e selectedTeam r c sim _ IH|sim _ IH].
  - exact Hinit.
  - unfold tickInterval.
    pose proof (sameShape_stepGrid rnd (Sim.grid sim) k) as Hs.
    destruct (stepGrid rnd (Sim.grid sim) k) as [result k']. cbn [fst Sim.grid] in *.
    by apply (Hkeep (Sim.grid sim)).
  - unfold stepOnce.
    pose proof (sameShape_stepGrid rnd (Sim.grid sim) k) as Hs.
    destruct (stepGrid rnd (Sim.grid sim) k) as [result k']. cbn [fst Sim.grid] in *.
    by apply (Hkeep (Sim.grid sim)).
  - unfold nutrientInterval.
    pose proof (sameShape_runNutrients rnd now (Sim.grid sim) (Sim.nutrients sim)
                  (Sim.nutrientTick sim) k) as Hs.
    destruct (runNutrients rnd now (Sim.grid sim) (Sim.nutrients sim)
                (Sim.nutrientTick sim) k) as [result k']. cbn [fst Sim.grid] in *.
    by apply (Hkeep (Sim.grid sim)).
  - cbn [Sim.grid]. apply (Hkeep (Sim.grid sim)); [apply sameShape_placeDot|done].
  - cbn [Sim.grid]. apply (Hkeep (Sim.grid sim)); [apply sameShape_handleDrop|done].
  - exact Hinit.
Qed.

Lemma X23_board_keeps_size_witness :
  reachable (tickInterval drawsB seededSim 0).1
  ∧ gridRows (Sim.grid (tickInterval drawsB seededSim 0).1) = ROWS.
Proof.
  assert (Hreach : reachable (tickInterval drawsB seededSim 0).1).
  { apply reach_tick. apply (reach_place blue 5 5 resetGrid). apply reach_init. }
  split; [exact Hreach|].
  exact (proj1 (proj2 (X23_board_keeps_size _ Hreach))).
Defined.


(** ** One step at a time *)

Lemma emittedBy_fedFrom g g' tick m : fedFrom g g' → emittedBy g tick m → emittedBy g' tick m.
Proof.
  intros Hfed (Htick & Hprev & Hst & Htm & Hdir & Hpos).
  destruct (Hfed (idR (Nutrient.id m)) (idC (Nutrient.id m))) as (Hteam & _ & Hdot).
  assert (Hd : isDotLike (getCell g (idR (Nutrient.id m)) (idC (Nutrient.id m))) = true).
  { unfold isDotLike. rewrite Hst. done. }
  destruct (Hdot Hd) as (_ & Hprod & _).
  repeat split; try done; [by apply Hprod|by rewrite Hteam].
Qed.

(** X24: tokens move one step at a time.  Every token [runNutrients]
    returns is an input token returned as it was given, or an input token
    moved by one cardinal step (same id and team, its direction is the step
    taken, its previous direction the one it had), or a token emitted on
    this tick by a producer of the returned grid. *)
Theorem X24_tokens_move_one_step (rnd : nat → Q) (now : Z * Z → Z) (grid : Grid)
  (nutrients : list Nutrient.t) (tick : Z) (k : nat) :
  Forall (fun m =>
            m ∈ nutrients
            ∨ (∃ n, n ∈ nutrients ∧ movedFrom n m)
            ∨ emittedBy (FlowResult.grid (runNutrients rnd now grid nutrients tick k).1) tick m)
    (FlowResult.nutrients (runNutrients rnd now grid nutrients tick k).1).
Proof.
  destruct (runNutrients_ind rnd now grid nutrients tick k
    (fun next out _ =>
       Forall (fun m => m ∈ nutrients ∨ (∃ n, n ∈ nutrients ∧ movedFrom n m)
                        ∨ emittedBy next tick m) out)) as [_ Hall]; [| | |done].
  - constructor.
  - intros next out occ k0 n Hn Hout.
    destruct (moveNutrient_cases rnd (gridRows grid) (gridCols grid) next out occ k0 n)
      as [-> | [[_ ->] | (_ & d & k1 & Hd & [[_ ->] | [_ ->]])]]; cbn [fst snd].
    + done.
    + eapply Forall_impl; [exact Hout|]. intros m [Hm|[Hm|Hm]]; [by left|by right; left|].
      right; right. eapply emittedBy_fedFrom; [|exact Hm]. unfold handleDeadEnd.
      destruct (friendlyDots _ _ _ _ _ _) as [|[nr nc] ?];
        [apply fedFrom_refl|apply fedFrom_feedDot].
    + apply Forall_app_2; [done|]. apply Forall_singleton. by left.
    + apply Forall_app_2; [done|]. apply Forall_singleton. right; left.
      exists n. split; [done|]. apply elem_of_wallNeighborDirs in Hd as [Hd _].
      unfold movedFrom. cbn [Nutrient.id Nutrient.team Nutrient.dir Nutrient.r Nutrient.c
                             Nutrient.prev]. done.
  - intros _ next out occ k0 p _ Hout.
    destruct (produceAt_cases rnd now tick (gridRows grid) (gridCols grid) next out occ k0 p)
      as [[k1 ->] | (tm & d & k1 & Hst & Htm & Hd & _ & ->)]; cbn [fst snd]; [done|].
    apply Forall_app_2; [done|]. apply Forall_singleton. right; right.
    apply elem_of_wallNeighborDirs in Hd as [Hd _].
    unfold emittedBy. cbn [Nutrient.id Nutrient.prev Nutrient.team Nutrient.dir
                           Nutrient.r Nutrient.c idTick idR idC]. done.
Qed.

(** * The phases of a step and the grid each one reads *)

(** [stepTrace] as the chain of its phases: each line names the grid and
    the cursor the phase starts from. *)
Lemma stepTrace_pipeline rnd grid k :
  let rows := gridRows grid in
  let cols := gridCols grid in
  let next1 := applyBombState bomb_armed grid grid (toArm grid rows cols) in
  let next2 := applyBombState bomb_hot grid next1 (toHot grid rows cols) in
  let boom := explode rnd rows cols next2 (toExplode grid rows cols) k in
  let scan := spawnIntents rnd grid rows cols boom.2 in
  let order := shuffled rnd scan.1 scan.2 in
  let fought := foldl resolveIntent (boom.1.1, ∅) order.1 in
  let centers := findCenters fought.1 rows cols in
  let corder := shuffled rnd centers order.2 in
  let pushed :=
    foldl (resolveCenter rnd rows cols) (fought.1, fought.2, corder.2) corder.1 in
  stepTrace rnd grid k
  = (Trace.mk next1 next2 boom.1.1 scan.1 fought.1 centers
       (StepResult.mk pushed.1.1 boom.1.2 pushed.1.2), pushed.2).
Proof.
  intros rows cols next1 next2 boom scan order fought centers corder pushed.
  subst pushed corder centers fought order scan.
  unfold stepTrace. fold rows cols next1 next2 boom.
  destruct boom as [[next3 blasts] k1]. cbn [fst snd].
  destruct (spawnIntents rnd grid rows cols k1) as [intents k2]. cbn [fst snd].
  destruct (shuffled rnd intents k2) as [order k3]. cbn [fst snd].
  destruct (foldl resolveIntent (next3, ∅) order) as [next4 anims]. cbn [fst snd].
  destruct (shuffled rnd (findCenters next4 rows cols) k3) as [corder k4]. cbn [fst snd].
  by destruct (foldl (resolveCenter rnd rows cols) (next4, anims, k4) corder)
    as [[next5 anims'] k5].
Qed.

Lemma sameShape_resolved rnd grid k :
  sameShape grid (Trace.resolved (stepTrace rnd grid k).1).
Proof.
  destruct (stepTrace_phases rnd grid k)
    as (_ & _ & Hexp & _ & order & anims & corder & k4 & _ & Hres & _).
  rewrite Hres.
  apply (foldl_invariant (fun s : Grid * gmap (Z * Z) AnimInfo => sameShape grid s.1)).
  { intros s it _ Hs. by apply sameShape_resolveIntent. }
  cbn [fst]. rewrite Hexp. apply sameShape_explode.
  apply sameShape_applyBombState, sameShape_applyBombState, sameShape_refl.
Qed.

(** C2 (as the code has it): the replication-and-combat scan of phase 3
    reads the pre-tick grid, as the arming test and the tracking of armed
    and hot bombs do.  The intents [stepGrid] resolves are exactly those
    the scan of the pre-tick grid gives from the cursor the explosions
    left: every one was emitted by a cell that is a dot/producer in the
    pre-tick grid, carries that cell's pre-tick team, and targets a cell
    chosen by the pre-tick states of its neighbours (empty neighbour,
    empty cell behind a dot/producer neighbour, or dot/producer neighbour
    of another team), whatever the bomb phases did to the working grid in
    the same step.  The other phases work on the grid left by the phase
    before them: the explosions on the grid left by the advance of the
    bombs, the resolution of the shuffled intents on the grid left by the
    explosions, the detection of the centres on the grid left by that
    resolution (a cell is a centre exactly when it is the middle of a line
    of five of that grid), and the resolution of the shuffled centres on
    that grid too; its result is the grid [stepGrid] returns. *)
Theorem C2_scan_reads_pretick (rnd : nat → Q) (grid : Grid) (k : nat) :
  let rows := gridRows grid in
  let cols := gridCols grid in
  let t := (stepTrace rnd grid k).1 in
  let boom := explode rnd rows cols (Trace.advanced t) (toExplode grid rows cols) k in
  let scan := spawnIntents rnd grid rows cols boom.2 in
  let order := shuffled rnd scan.1 scan.2 in
  let fought := foldl resolveIntent (Trace.exploded t, ∅) order.1 in
  let corder := shuffled rnd (Trace.centers t) order.2 in
  let pushed :=
    foldl (resolveCenter rnd rows cols) (Trace.resolved t, fought.2, corder.2) corder.1 in
  Trace.intents t = scan.1
  ∧ Forall (scanJustified grid rows cols) (Trace.intents t)
  ∧ Trace.armed t = applyBombState bomb_armed grid grid (toArm grid rows cols)
  ∧ Trace.advanced t = applyBombState bomb_hot grid (Trace.armed t) (toHot grid rows cols)
  ∧ Trace.exploded t = boom.1.1
  ∧ Trace.resolved t = fought.1
  ∧ Trace.centers t = findCenters (Trace.resolved t) rows cols
  ∧ (wfGrid grid →
     ∀ r c, (r, c) ∈ Trace.centers t
            ↔ lineOfFive (Trace.resolved t) r c (0, 1)
              ∨ lineOfFive (Trace.resolved t) r c (1, 0))
  ∧ stepGrid rnd grid k = (StepResult.mk pushed.1.1 boom.1.2 pushed.1.2, pushed.2).
Proof.
  intros rows cols t boom scan order fought corder pushed.
  pose proof (stepTrace_intents rnd grid k) as Hsound.
  pose proof (sameShape_resolved rnd grid k) as (Hrows & Hcols & Hwf).
  pose proof (stepTrace_pipeline rnd grid k) as Hpipe. cbv zeta in Hpipe.
  fold rows cols in Hpipe.
  assert (Hstep : stepGrid rnd grid k
                  = (Trace.final (stepTrace rnd grid k).1, (stepTrace rnd grid k).2)).
  { unfold stepGrid. by destruct (stepTrace rnd grid k). }
  subst pushed corder fought order scan boom t. rewrite Hstep.
  fold rows cols in Hsound, Hrows, Hcols.
  set (tr := stepTrace rnd grid k) in *.
  assert (Hcenters : Trace.centers tr.1 = findCenters (Trace.resolved tr.1) rows cols)
    by (by rewrite Hpipe).
  split; [by rewrite Hpipe|]. split; [done|]. split; [by rewrite Hpipe|].
  split; [by rewrite Hpipe|]. split; [by rewrite Hpipe|]. split; [by rewrite Hpipe|].
  split; [done|]. split; [|by rewrite Hpipe].
  intros Hgrid r c. rewrite Hcenters, <- Hrows, <- Hcols.
  apply findCenters_lines. by apply Hwf.
Qed.

(** * Centres that are producers *)

Lemma tryDirs_None grid rows cols r c tm dirs :
  (∀ d, d ∈ dirs → tryDir grid rows cols r c tm d = None) →
  tryDirs grid rows cols r c tm dirs = None.
Proof.
  induction dirs as [|d dirs IH]; intros Hall; [done|].
  cbn [tryDirs]. rewrite (Hall d) by apply list_elem_of_here.
  apply IH. intros d' Hd'. by apply Hall, list_elem_of_further.
Qed.

Lemma elem_of_CARDINALS d : d ∈ CARDINALS → d = (1, 0) ∨ d = (-1, 0) ∨ d = (0, 1) ∨ d = (0, -1).
Proof.
  unfold CARDINALS. rewrite !elem_of_cons, elem_of_nil. tauto.
Qed.

(** On [pinnedProducers] only the middle producer can propose, and it
    proposes the cell above or the cell below it. *)
Lemma pinnedProducers_scan rnd k1 :
  ∃ it k2,
    spawnIntents rnd pinnedProducers 3 5 k1 = ([it], k2)
    ∧ (it = Intent.mk 0 2 (Some blue) ∨ it = Intent.mk 2 2 (Some blue)).
Proof.
  unfold spawnIntents.
  destruct (scanCells_proposals rnd pinnedProducers 3 5 (allCells 3 5) k1)
    as (props & Hall & Heq).
  assert (Hdots : filter (fun p : Z * Z => isDotLike (getCell pinnedProducers p.1 p.2) = true)
                    (allCells 3 5) = [(1, 0); (1, 1); (1, 2); (1, 3); (1, 4)])
    by (by vm_compute).
  rewrite Hdots in Hall. clear Hdots.
  apply Forall2_cons_inv_l in Hall as (o0 & ps0 & (dirs0 & Hp0 & Ho0) & Hall & ->).
  apply Forall2_cons_inv_l in Hall as (o1 & ps1 & (dirs1 & Hp1 & Ho1) & Hall & ->).
  apply Forall2_cons_inv_l in Hall as (o2 & ps2 & (dirs2 & Hp2 & Ho2) & Hall & ->).
  apply Forall2_cons_inv_l in Hall as (o3 & ps3 & (dirs3 & Hp3 & Ho3) & Hall & ->).
  apply Forall2_cons_inv_l in Hall as (o4 & ps4 & (dirs4 & Hp4 & Ho4) & Hall & ->).
  apply Forall2_nil_inv_l in Hall as ->.
  assert (Hside : ∀ (c : Z) dirs, c = 0 ∨ c = 1 ∨ c = 3 ∨ c = 4 → dirs ≡ₚ CARDINALS →
            tryDirs pinnedProducers 3 5 1 c (Some blue) dirs = None).
  { intros c dirs Hc Hperm. apply tryDirs_None. intros d Hd. rewrite Hperm in Hd.
    apply elem_of_CARDINALS in Hd.
    destruct Hc as [->|[->|[->| ->]]], Hd as [->|[->|[->| ->]]]; by vm_compute. }
  assert (H0 : o0 = None) by (rewrite Ho0; exact (Hside 0 dirs0 ltac:(tauto) Hp0)).
  assert (H1 : o1 = None) by (rewrite Ho1; exact (Hside 1 dirs1 ltac:(tauto) Hp1)).
  assert (H3 : o3 = None) by (rewrite Ho3; exact (Hside 3 dirs3 ltac:(tauto) Hp3)).
  assert (H4 : o4 = None) by (rewrite Ho4; exact (Hside 4 dirs4 ltac:(tauto) Hp4)).
  clear Ho0 Ho1 Ho3 Ho4. subst o0 o1 o3 o4.
  destruct (tryDirs_live pinnedProducers 3 5 1 2 (Some blue) dirs2 (1, 0)) as [it Htry].
  { rewrite Hp2. apply list_elem_of_here. }
  { reflexivity. }
  { reflexivity. }
  assert (Ho2' : o2 = Some it) by (rewrite Ho2; exact Htry).
  clear Ho2. subst o2.
  exists it, (scanCells rnd pinnedProducers 3 5 (allCells 3 5) k1).2.
  split.
  { destruct (scanCells rnd pinnedProducers 3 5 (allCells 3 5) k1) as [intents k2].
    cbn [fst snd] in *. by rewrite Heq. }
  destruct (tryDirs_Some _ _ _ _ _ _ _ _ Htry) as (d & Hd & Hd').
  rewrite Hp2 in Hd. apply elem_of_CARDINALS in Hd.
  destruct Hd as [->|[->|[->| ->]]]; vm_compute in Hd'; simplify_eq; auto.
Qed.

(** C5 (where the code departs from it): a centre that holds a producer
    is left where it is, whatever its neighbours hold: the resolution of a
    centre returns at once unless the centre holds a [dot].  On
    [pinnedProducers], whatever the draws, the scan makes the middle
    producer spawn a dot above or below itself; the line of five producers
    is then detected, its centre (1,2) is the one centre and has a free
    cardinal neighbour, and the line-of-five phase changes nothing: the
    producer is still at (1,2) in the grid returned. *)
Theorem C5_producer_center_skipped (rnd : nat → Q) (k : nat) :
  (∀ (rows cols : Z) (next : Grid) (anims : gmap (Z * Z) AnimInfo) (k' : nat) (r c : Z),
     state (getCell next r c) = producer →
     resolveCenter rnd rows cols (next, anims, k') (r, c) = (next, anims, k'))
  ∧ (Trace.resolved (stepTrace rnd pinnedProducers k).1 = setCell pinnedProducers 0 2 blueDot
     ∨ Trace.resolved (stepTrace rnd pinnedProducers k).1 = setCell pinnedProducers 2 2 blueDot)
  ∧ Trace.centers (stepTrace rnd pinnedProducers k).1 = [(1, 2)]
  ∧ isDotLike (getCell (Trace.resolved (stepTrace rnd pinnedProducers k).1) 1 2) = true
  ∧ openNeighbors (Trace.resolved (stepTrace rnd pinnedProducers k).1) 3 5 1 2 ≠ []
  ∧ StepResult.grid (stepGrid rnd pinnedProducers k).1
    = Trace.resolved (stepTrace rnd pinnedProducers k).1
  ∧ getCell (StepResult.grid (stepGrid rnd pinnedProducers k).1) 1 2 = blueProducer.
Proof.
  assert (Hskip : ∀ (rows cols : Z) (next : Grid) (anims : gmap (Z * Z) AnimInfo) (k' : nat)
                    (r c : Z),
            state (getCell next r c) = producer →
            resolveCenter rnd rows cols (next, anims, k') (r, c) = (next, anims, k')).
  { intros rows cols next anims k' r c Hprod. unfold resolveCenter. cbn [fst snd].
    rewrite Hprod. by rewrite bool_decide_eq_false_2. }
  split; [exact Hskip|].
  rewrite stepGrid_final.
  pose proof (stepTrace_pipeline rnd pinnedProducers k) as Hp. cbv zeta in Hp.
  change (gridRows pinnedProducers) with 3 in Hp.
  change (gridCols pinnedProducers) with 5 in Hp.
  assert (Harm : toArm pinnedProducers 3 5 = []) by (by vm_compute).
  assert (Hhot : toHot pinnedProducers 3 5 = []) by (by vm_compute).
  assert (Hboom : toExplode pinnedProducers 3 5 = []) by (by vm_compute).
  rewrite Harm, Hhot, Hboom in Hp. cbn [applyBombState foldl explode fst snd] in Hp.
  destruct (pinnedProducers_scan rnd k) as (it & k2 & Hscan & Hit).
  rewrite Hscan in Hp. cbn [fst snd] in Hp.
  change (shuffled rnd [it] k2) with ([it], k2) in Hp. cbn [fst snd foldl] in Hp.
  destruct (resolveIntent (pinnedProducers, ∅) it) as [next4 anims] eqn:Hf.
  cbn [fst snd] in Hp.
  assert (Hnext4 : (it = Intent.mk 0 2 (Some blue) ∧ next4 = setCell pinnedProducers 0 2 blueDot)
                   ∨ (it = Intent.mk 2 2 (Some blue)
                      ∧ next4 = setCell pinnedProducers 2 2 blueDot)).
  { apply (f_equal fst) in Hf. cbn [fst] in Hf.
    destruct Hit as [-> | ->]; [left|right]; (split; [done|]);
      rewrite <- Hf; by vm_compute. }
  assert (Hcent : findCenters next4 3 5 = [(1, 2)]).
  { destruct Hnext4 as [[_ ->]|[_ ->]]; by vm_compute. }
  assert (Hprod : getCell next4 1 2 = blueProducer).
  { destruct Hnext4 as [[_ ->]|[_ ->]]; by vm_compute. }
  assert (Hopen : openNeighbors next4 3 5 1 2 ≠ []).
  { destruct Hnext4 as [[_ ->]|[_ ->]]; by vm_compute. }
  rewrite Hcent in Hp.
  change (shuffled rnd [(1, 2)] k2) with ([(1, 2)], k2) in Hp. cbn [fst snd foldl] in Hp.
  rewrite Hskip in Hp by (by rewrite Hprod). cbn [fst snd] in Hp.
  rewrite Hp. cbn [fst Trace.resolved Trace.centers Trace.final StepResult.grid].
  split; [destruct Hnext4 as [[_ ->]|[_ ->]]; [by left|by right]|].
  split; [done|]. split; [by rewrite Hprod|]. split; [done|]. split; [done|]. done.
Qed.

(** ** Centres that are dots *)

(** X25: how a dot centre moves.  A centre that holds a dot and has a
    free in-board cardinal neighbour moves to the head of the shuffled list
    of those neighbours, which costs one draw less than their number: the
    destination, which was empty, receives a dot with the centre's team and
    health, the centre becomes empty, the move animation is recorded for
    the destination, and no other cell changes. *)
Theorem X25_dot_center_moves (rnd : nat → Q) (next : Grid)
  (anims : gmap (Z * Z) AnimInfo) (k : nat) (r c : Z) :
  wfGrid next →
  state (getCell next r c) = dot →
  openNeighbors next (gridRows next) (gridCols next) r c ≠ [] →
  ∃ nr nc rest,
    (shuffled rnd (openNeighbors next (gridRows next) (gridCols next) r c) k).1
    = (nr, nc) :: rest
    ∧ (∃ d, d ∈ CARDINALS ∧ (nr, nc) = (r + d.1, c + d.2))
    ∧ inBounds nr nc (gridRows next) (gridCols next) = true
    ∧ state (getCell next nr nc) = empty
    ∧ resolveCenter rnd (gridRows next) (gridCols next) (next, anims, k) (r, c)
      = (setCell
           (setCell next nr nc
              (mkCell dot (team (getCell next r c)) (health (getCell next r c))))
           r c (mkCell empty None None),
         markAnim (nr, nc) (mkAnim move (Some (c - nc)) (Some (r - nr))) anims,
         (k + (length (openNeighbors next (gridRows next) (gridCols next) r c) - 1))%nat)
    ∧ getCell (resolveCenter rnd (gridRows next) (gridCols next) (next, anims, k) (r, c)).1.1
        nr nc
      = mkCell dot (team (getCell next r c)) (health (getCell next r c))
    ∧ getCell (resolveCenter rnd (gridRows next) (gridCols next) (next, anims, k) (r, c)).1.1
        r c = mkCell empty None None
    ∧ ∀ r' c', (r', c') ≠ (r, c) → (r', c') ≠ (nr, nc) →
        getCell (resolveCenter rnd (gridRows next) (gridCols next) (next, anims, k) (r, c)).1.1
          r' c' = getCell next r' c'.
Proof.
  intros Hwf Hdot Hopen.
  assert (Hin : inBounds r c (gridRows next) (gridCols next) = true).
  { apply getCell_inBounds; [done|]. intros He. rewrite He in Hdot. done. }
  destruct (shuffled_head rnd _ k Hopen) as ([nr nc] & rest & Hs & Hmem).
  apply openNeighbors_spec in Hmem as (Hd & Hnin & Hnempty). cbn [fst snd] in Hnin, Hnempty.
  assert (Hne : (nr, nc) ≠ (r, c)).
  { intros [= -> ->]. congruence. }
  assert (Hcur : (shuffled rnd (openNeighbors next (gridRows next) (gridCols next) r c) k).2
                 = (k + (length (openNeighbors next (gridRows next) (gridCols next) r c) - 1))%nat).
  { unfold shuffled. apply shuffleLoop_cursor. }
  assert (Hres : resolveCenter rnd (gridRows next) (gridCols next) (next, anims, k) (r, c)
    = (setCell (setCell next nr nc
                  (mkCell dot (team (getCell next r c)) (health (getCell next r c))))
         r c (mkCell empty None None),
       markAnim (nr, nc) (mkAnim move (Some (c - nc)) (Some (r - nr))) anims,
       (k + (length (openNeighbors next (gridRows next) (gridCols next) r c) - 1))%nat)).
  { unfold resolveCenter. cbn [fst snd].
    rewrite bool_decide_eq_true_2 by done. cbn [negb].
    destruct (openNeighbors next (gridRows next) (gridCols next) r c) as [|o os] eqn:Ho;
      [done|].
    cbn [length]. change (0 <? S (length os))%nat with true. cbv iota.
    destruct (shuffled rnd (o :: os) k) as [order k1]. cbn [fst snd] in Hs, Hcur.
    subst order k1. done. }
  exists nr, nc, rest. split; [done|]. split; [done|]. split; [done|]. split; [done|].
  split; [done|]. rewrite Hres. cbn [fst]. split; [|split].
  - rewrite getCell_setCell_other by done. by apply getCell_setCell_eq.
  - apply getCell_setCell_eq.
    + by apply wfGrid_setCell.
    + by rewrite gridRows_setCell, gridCols_setCell.
  - intros r' c' H1 H2. by rewrite !getCell_setCell_other.
Qed.

Lemma X25_dot_center_moves_witness :
  wfGrid fiveDots
  ∧ state (getCell fiveDots 0 2) = dot
  ∧ openNeighbors fiveDots (gridRows fiveDots) (gridCols fiveDots) 0 2 ≠ []
  ∧ ∃ nr nc rest,
      (shuffled drawsB (openNeighbors fiveDots (gridRows fiveDots) (gridCols fiveDots) 0 2)
         0).1 = (nr, nc) :: rest
      ∧ getCell (resolveCenter drawsB (gridRows fiveDots) (gridCols fiveDots)
                   (fiveDots, ∅, 0%nat) (0, 2)).1.1 0 2 = mkCell empty None None.
Proof.
  assert (Hwf : wfGrid fiveDots) by (repeat constructor).
  assert (Hdot : state (getCell fiveDots 0 2) = dot) by reflexivity.
  assert (Hopen : openNeighbors fiveDots (gridRows fiveDots) (gridCols fiveDots) 0 2 ≠ [])
    by (by vm_compute).
  split; [exact Hwf|]. split; [exact Hdot|]. split; [exact Hopen|].
  destruct (X25_dot_center_moves drawsB fiveDots ∅ 0 0 2 Hwf Hdot Hopen)
    as (nr & nc & rest & Hs & _ & _ & _ & _ & _ & Horigin & _).
  exists nr, nc, rest. split; [exact Hs|exact Horigin].
Defined.
